(** * k-charted: dashboard resolution, discovery and label building

    A shallow embedding of [business/dashboards.go] (package [business] of
    k-charted) and the properties of its template resolver, its discovery
    matcher and its label builder.

    Conventions of the embedding:
    - a Go [string] is a byte string ([string] of Stdlib, one [ascii] per byte);
    - a Go [(value, error)] pair is a [result]: the callers modelled here read
      the value only when the error is nil (the one exception,
      [fetchMetricNames], keeps the pair);
    - a Go [error] is its message;
    - a Go [map] is a [gmap]; a [range] over a map takes its iteration order as
      an explicit list that is a permutation of the map's entries;
    - the [loaded] map that the resolver mutates through its recursion is
      threaded explicitly: every call returns the map it leaves behind;
    - the cluster client decodes a fresh object on every call, so the update
      in place of [dashboard.Spec.Items] by [resolveReferences] is the return
      of the updated dashboard, and a stored template is never changed;
    - the recursion of the resolver is bounded by a fuel argument; it is shown
      below that more fuel never changes a result and that a fuel above the
      number of stored templates always suffices;
    - calls to the logger do not change any result and are left out. *)

From stdpp Require Import gmap strings list fin_maps sorting.
From Stdlib Require Import Ascii SpecFloat.

Local Open Scope stdpp_scope.

#[local] Set Warnings "-clear-no-such-hyp".

(** ** Go values *)

Definition error : Type := string.

Inductive result (A : Type) : Type :=
| Ok (a : A)
| Err (e : error).
Arguments Ok {A} a.
Arguments Err {A} e.

(** The double quote, as a one-byte string. *)
Definition dquote : string := String (ascii_of_nat 34) EmptyString.

(** ** Package [strings] of Go *)
Module strings.

(** The white space of [unicode.IsSpace] that is a single byte. *)
Definition asciiSpace (c : ascii) : bool :=
  match c with
  | "009" | "010" | "011" | "012" | "013" | " " => true
  | _ => false
  end%char.

(** The third byte of the three-byte white space runes that start with
    E2 80: U+2000 to U+200A, U+2028, U+2029 and U+202F. *)
Definition spaceE280 (c : ascii) : bool :=
  let n := nat_of_ascii c in
  ((128 <=? n) && (n <=? 138)) || (n =? 168) || (n =? 169) || (n =? 175).

(** [TrimLeftFunc s unicode.IsSpace]: drops the leading white space runes:
    the ASCII ones, U+0085 and U+00A0 (C2 85, C2 A0), U+1680 (E1 9A 80),
    the E2 80 block above, U+205F (E2 81 9F) and U+3000 (E3 80 80). *)
Fixpoint trimLeftSpace (s : string) : string :=
  match s with
  | EmptyString => EmptyString
  | String c1 s1 =>
      if asciiSpace c1 then trimLeftSpace s1
      else
        match nat_of_ascii c1, s1 with
        | 194, String c2 s2 =>
            if (nat_of_ascii c2 =? 133) || (nat_of_ascii c2 =? 160)
            then trimLeftSpace s2 else s
        | 225, String c2 (String c3 s3) =>
            if (nat_of_ascii c2 =? 154) && (nat_of_ascii c3 =? 128)
            then trimLeftSpace s3 else s
        | 226, String c2 (String c3 s3) =>
            if ((nat_of_ascii c2 =? 128) && spaceE280 c3)
               || ((nat_of_ascii c2 =? 129) && (nat_of_ascii c3 =? 159))
            then trimLeftSpace s3 else s
        | 227, String c2 (String c3 s3) =>
            if (nat_of_ascii c2 =? 128) && (nat_of_ascii c3 =? 128)
            then trimLeftSpace s3 else s
        | _, _ => s
        end
  end.

(** The same runes read from the end of the string, on the reversed
    bytes: the last byte of the rune comes first. *)
Fixpoint trimLeftSpaceRev (s : string) : string :=
  match s with
  | EmptyString => EmptyString
  | String c1 s1 =>
      if asciiSpace c1 then trimLeftSpaceRev s1
      else
        match s1 with
        | String c2 s2 =>
            if (nat_of_ascii c2 =? 194)
               && ((nat_of_ascii c1 =? 133) || (nat_of_ascii c1 =? 160))
            then trimLeftSpaceRev s2
            else
              match s2 with
              | String c3 s3 =>
                  if ((nat_of_ascii c3 =? 225) && (nat_of_ascii c2 =? 154)
                      && (nat_of_ascii c1 =? 128))
                     || ((nat_of_ascii c3 =? 226)
                         && (((nat_of_ascii c2 =? 128) && spaceE280 c1)
                             || ((nat_of_ascii c2 =? 129)
                                 && (nat_of_ascii c1 =? 159))))
                     || ((nat_of_ascii c3 =? 227) && (nat_of_ascii c2 =? 128)
                         && (nat_of_ascii c1 =? 128))
                  then trimLeftSpaceRev s3 else s
              | EmptyString => s
              end
        | EmptyString => s
        end
  end.

(** [strings.TrimSpace]: the string without its leading and trailing
    white space, as [unicode.IsSpace] defines it. *)
Definition TrimSpace (s : string) : string :=
  String.rev (trimLeftSpaceRev (String.rev (trimLeftSpace s))).

(** [strings.Split s sep] for a separator of one byte: the pieces of [s]
    between the occurrences of [sep]; never the empty list. *)
Fixpoint Split (s : string) (sep : ascii) : list string :=
  match s with
  | EmptyString => [EmptyString]
  | String c s' =>
      if decide (c = sep) then EmptyString :: Split s' sep
      else
        match Split s' sep with
        | p :: ps => String c p :: ps
        | [] => [String c EmptyString]
        end
  end.

(** [strings.Join elems sep]. *)
Fixpoint Join (elems : list string) (sep : string) : string :=
  match elems with
  | [] => EmptyString
  | [x] => x
  | x :: rest => x +:+ sep +:+ Join rest sep
  end.

End strings.

(** ** The custom resources (package [v1alpha1]) *)

(** Modelled from the spec: the type declarations of package
    [kubernetes/v1alpha1] (MonitoringDashboard, its spec, items and charts)
    and of [metav1.ObjectMeta] are not part of the sources at hand; the
    records below hold the fields that [business/dashboards.go] reads, with
    the types it uses them at. [UnitScale] is a float64. *)
Module metav1.
Record ObjectMeta : Type := { Name : string }.
End metav1.

Module v1alpha1.

Record MonitoringDashboardChart : Type := {
  Name : string;
  DataType : string;
  Aggregator : string;
  UnitScale : spec_float;
  GroupLabels : list string;
  SortLabel : string;
  SortLabelParseAs : string;
}.

Record MonitoringDashboardItem : Type := {
  Include : string;
  Chart : MonitoringDashboardChart;
}.

Record MonitoringDashboardSpec : Type := {
  Title : string;
  Runtime : string;
  DiscoverOn : string;
  Items : list MonitoringDashboardItem;
}.

Record MonitoringDashboard : Type := {
  ObjectMeta : metav1.ObjectMeta;
  Spec : MonitoringDashboardSpec;
}.

(** [dashboard.Name], promoted from the embedded [ObjectMeta]. *)
Definition DashboardName (d : MonitoringDashboard) : string :=
  metav1.Name (ObjectMeta d).

(** The assignment [dashboard.Spec.Items = items]. *)
Definition setItems (d : MonitoringDashboard)
    (items : list MonitoringDashboardItem) : MonitoringDashboard :=
  {| ObjectMeta := ObjectMeta d;
     Spec := {| Title := Title (Spec d);
                Runtime := Runtime (Spec d);
                DiscoverOn := DiscoverOn (Spec d);
                Items := items |} |}.

End v1alpha1.

Import v1alpha1 (MonitoringDashboard, MonitoringDashboardItem,
                 MonitoringDashboardChart, MonitoringDashboardSpec).

(** ** The collaborators *)

(** Modelled from the spec: package [config] is not part of the sources at
    hand; [Config] holds the two settings the business code reads. *)
Module config.
Record Config : Type := {
  GlobalNamespace : string;
  NamespaceLabel : string;
}.
End config.

(** Modelled from the spec: package [kubernetes] is not part of the sources
    at hand. Its client is the template store of the interface section:
    [GetDashboard namespace name] returns a template or an error,
    [GetDashboards namespace] the templates of a namespace. One request sees
    one state of the cluster, so both are functions. *)
Module kubernetes.
Record ClientInterface : Type := {
  GetDashboard : string → string → result MonitoringDashboard;
  GetDashboards : string → result (list MonitoringDashboard);
}.
End kubernetes.

(** Modelled from the spec: package [prometheus] is not part of the sources
    at hand. [GetMetricsForLabels] returns Go's pair of a list of metric names
    and an optional error. *)
Module prometheus.
Record ClientInterface : Type := {
  GetMetricsForLabels : list string → list string * option error;
}.
End prometheus.

(** ** The service *)

(** [promClient] and [k8sClient] are created on first use by [prom] and
    [k8s]; each field holds what that creation yields: the handle that every
    later call reuses, or the error of the constructor. *)
Record DashboardsService : Type := {
  promClient : result prometheus.ClientInterface;
  k8sClient : result kubernetes.ClientInterface;
  config : config.Config;
}.

Definition defaultNamespaceLabel : string := "namespace".

Definition prom (in_ : DashboardsService) : result prometheus.ClientInterface :=
  match promClient in_ with
  | Ok client => Ok client
  | Err err => Err ("cannot initialize Prometheus Client: " +:+ err)
  end.

Definition k8s (in_ : DashboardsService) : result kubernetes.ClientInterface :=
  match k8sClient in_ with
  | Ok client => Ok client
  | Err err => Err ("cannot initialize Kubernetes Client: " +:+ err)
  end.

Definition k8sGetDashboard (in_ : DashboardsService) (namespace template : string)
    : result MonitoringDashboard :=
  match k8s in_ with
  | Err err => Err err
  | Ok client => kubernetes.GetDashboard client namespace template
  end.

Definition k8sGetDashboards (in_ : DashboardsService) (namespace : string)
    : result (list MonitoringDashboard) :=
  match k8s in_ with
  | Err err => Err err
  | Ok client => kubernetes.GetDashboards client namespace
  end.

(** ** The template resolver *)

Definition loadRawDashboardResource (in_ : DashboardsService)
    (namespace template : string) : result MonitoringDashboard :=
  match k8sGetDashboard in_ namespace template with
  | Ok dashboard => Ok dashboard
  | Err err =>
      if decide (config.GlobalNamespace (config in_) ≠ "") then
        match k8sGetDashboard in_ (config.GlobalNamespace (config in_)) template with
        | Err err' => Err err'
        | Ok dashboard => Ok dashboard
        end
      else Err err
  end.

(** ** Package [fmt] of Go: the verb [%v] on a [map[string]bool] *)
Module fmt.

Definition formatBool (b : bool) : string :=
  if b then "true" else "false".

(** The entries of the map in the order [fmt] prints them: by key,
    ascending in the byte order of Go's [<] on strings. *)
Definition sortedEntries (m : gmap string bool) : list (string * bool) :=
  merge_sort (λ x y, String.le x.1 y.1) (map_to_list m).

(** [fmt.Sprintf "%v" m]: [map[k1:v1 k2:v2]]. *)
Definition formatMap (m : gmap string bool) : string :=
  "map["
  +:+ strings.Join ((λ kv, kv.1 +:+ ":" +:+ formatBool kv.2) <$> sortedEntries m) " "
  +:+ "]".

End fmt.

(** The error of the circular dependency check. *)
Definition circularDependencyError (template : string) (loaded : gmap string bool)
    : error :=
  "cannot load dashboard " +:+ template
  +:+ " due to circular dependency detected. Already loaded dependencies: "
  +:+ fmt.formatMap loaded.

(** The inner loop of [resolveReferences]: what a reference [parts] takes of
    the items of the composed dashboard, appended to [resolved]. *)
Fixpoint spliceItems (parts : list string)
    (items2 : list MonitoringDashboardItem)
    (resolved : list MonitoringDashboardItem) : list MonitoringDashboardItem :=
  match items2 with
  | [] => resolved
  | item2 :: rest =>
      if decide (1 < length parts) then
        (* Reference a specific chart *)
        if decide (Some (v1alpha1.Name (v1alpha1.Chart item2)) = parts !! 1)
        then resolved ++ [item2]
        else spliceItems parts rest resolved
      else
        (* Reference the whole dashboard *)
        spliceItems parts rest (resolved ++ [item2])
  end.

Section resolveReferences.

(** The recursive call [in.loadAndResolveDashboardResource namespace _ _]
    of the loop; [None] when it runs out of fuel. *)
Variable loadAndResolve :
  string → gmap string bool → option (gmap string bool * result MonitoringDashboard).

(** The outer loop of [resolveReferences] over the items left, from the
    [loaded] map and the [resolved] slice built so far. *)
Fixpoint resolveItems (items : list MonitoringDashboardItem)
    (loaded : gmap string bool) (resolved : list MonitoringDashboardItem)
    : option (gmap string bool * result (list MonitoringDashboardItem)) :=
  match items with
  | [] => Some (loaded, Ok resolved)
  | item :: items' =>
      let reference := strings.TrimSpace (v1alpha1.Include item) in
      if decide (reference ≠ "") then
        let parts := strings.Split reference "$"%char in
        let dashboardRefName := hd "" parts in
        match loadAndResolve dashboardRefName loaded with
        | None => None
        | Some (loaded', Err err) => Some (loaded', Err err)
        | Some (loaded', Ok composedDashboard) =>
            resolveItems items' loaded'
              (spliceItems parts (v1alpha1.Items (v1alpha1.Spec composedDashboard)) resolved)
        end
      else resolveItems items' loaded (resolved ++ [item])
  end.

(** [resolveReferences]: the dashboard with its items replaced by the
    resolved ones, or the error; on an error the dashboard is left as it
    was and its caller drops it. *)
Definition resolveReferences (dashboard : MonitoringDashboard)
    (loaded : gmap string bool)
    : option (gmap string bool * result MonitoringDashboard) :=
  match resolveItems (v1alpha1.Items (v1alpha1.Spec dashboard)) loaded [] with
  | None => None
  | Some (loaded', Err err) => Some (loaded', Err err)
  | Some (loaded', Ok resolved) => Some (loaded', Ok (v1alpha1.setItems dashboard resolved))
  end.

End resolveReferences.

(** [loadAndResolveDashboardResource], with the [loaded] map it leaves
    behind; [None] when [fuel] nested calls do not suffice. *)
Fixpoint loadAndResolveDashboardResource (fuel : nat) (in_ : DashboardsService)
    (namespace template : string) (loaded : gmap string bool)
    : option (gmap string bool * result MonitoringDashboard) :=
  match fuel with
  | O => None
  | S fuel' =>
      (* Circular dependency check *)
      if decide (is_Some (loaded !! template)) then
        Some (loaded, Err (circularDependencyError template loaded))
      else
        let loaded := <[template := true]> loaded in
        match loadRawDashboardResource in_ namespace template with
        | Err err => Some (loaded, Err err)
        | Ok dashboard =>
            resolveReferences
              (loadAndResolveDashboardResource fuel' in_ namespace) dashboard loaded
        end
  end.

(** ** The Include graph of a namespace *)

Section IncludeGraph.

Context (in_ : DashboardsService) (namespace : string).

(** The template an item refers to, as [resolveReferences] reads it: the
    trimmed reference up to its first dollar sign; [None] for an inline
    item. *)
Definition includeTarget (item : MonitoringDashboardItem) : option string :=
  let reference := strings.TrimSpace (v1alpha1.Include item) in
  if decide (reference ≠ "") then Some (hd "" (strings.Split reference "$"%char))
  else None.

Definition includeTargets (items : list MonitoringDashboardItem) : list string :=
  omap includeTarget items.

(** [includesAt a i b]: the template that the two-tier lookup finds under
    the name [a] has [b] as the target of its [i]-th Include reference. *)
Definition includesAt (a : string) (i : nat) (b : string) : Prop :=
  ∃ d, loadRawDashboardResource in_ namespace a = Ok d
       ∧ includeTargets (v1alpha1.Items (v1alpha1.Spec d)) !! i = Some b.

(** The edges of the Include graph. *)
Definition includes (a b : string) : Prop := ∃ i, includesAt a i b.

(** Every Include reference that can be reached from [t] names a template
    that the lookup finds: the graph below [t] has no dangling edge. *)
Definition closedFrom (t : string) : Prop :=
  ∀ n, rtc includes t n →
       ∃ d, loadRawDashboardResource in_ namespace n = Ok d.

(** The names added to the [loaded] map between two states. *)
Definition fresh (L L' : gmap string bool) : gset string := dom L' ∖ dom L.

(** What the names expanded by a successful resolution look like: they are
    closed under Include edges, none lies on a cycle, and no template is
    the target of two Include references among them. *)
Record treeLike (Δ : gset string) : Prop := {
  tl_closed : ∀ a b, a ∈ Δ → includes a b → b ∈ Δ;
  tl_acyclic : ∀ a, a ∈ Δ → ¬ tc includes a a;
  tl_unique : ∀ a a' i i' b, a ∈ Δ → a' ∈ Δ →
                includesAt a i b → includesAt a' i' b → a = a' ∧ i = i';
}.

End IncludeGraph.

(** ** The output model (package [model]) *)

(** Modelled from the spec: package [model] is not part of the sources at
    hand. [Runtime] and [DashboardRef] are the runtime grouping of the
    discovery output (runtime name, then template name and title);
    [DashboardQuery] and [ConversionParams] hold the fields that
    [GetDashboard] reads and writes. [convertLabels] is the one step of the
    absent conversion that the grouping of a chart depends on: a sort label
    that was only added for the backend is stripped from the labels of the
    final series. *)
Module model.

Record DashboardRef : Type := {
  Template : string;
  Title : string;
}.

Record Runtime : Type := {
  Name : string;
  DashboardRefs : list DashboardRef;
}.

Record DashboardQuery : Type := {
  Namespace : string;
  LabelsFilters : gmap string string;
  ByLabels : list string;
  RawDataAggregator : string;
}.

Record ConversionParams : Type := {
  Scale : spec_float;
  SortLabel : string;
  SortLabelParseAs : string;
  RemoveSortLabel : bool;
}.

Definition convertLabels (conversionParams : ConversionParams)
    (labels : gmap string string) : gmap string string :=
  if RemoveSortLabel conversionParams
  then delete (SortLabel conversionParams) labels
  else labels.

End model.

(** ** The label builder *)

(** The body of [buildLabels], over the order in which the [range] visits
    the label filters. *)
Definition buildLabelsIn (in_ : DashboardsService) (namespace : string)
    (order : list (string * string)) : string :=
  let namespaceLabel := config.NamespaceLabel (config in_) in
  let namespaceLabel :=
    if decide (namespaceLabel = "") then defaultNamespaceLabel else namespaceLabel in
  let labels := "{" +:+ namespaceLabel +:+ "=" +:+ dquote +:+ namespace +:+ dquote in
  let labels :=
    foldl (λ labels kv, labels +:+ ("," +:+ kv.1 +:+ "=" +:+ dquote +:+ kv.2 +:+ dquote))
          labels order in
  labels +:+ "}".

(** [buildLabels]: the selectors the call may return, one for each order in
    which Go may visit the map. *)
Definition buildLabels (in_ : DashboardsService) (namespace : string)
    (labelsFilters : gmap string string) (labels : string) : Prop :=
  ∃ order, order ≡ₚ map_to_list labelsFilters
           ∧ labels = buildLabelsIn in_ namespace order.

(** ** The metrics aggregator: the queries of one chart *)

(** Modelled from the spec: the data kinds [v1alpha1.Raw] and
    [v1alpha1.Rate] are constants of the absent package; a chart that is
    neither is a histogram. *)
Definition Raw : string := "raw".
Definition Rate : string := "rate".

(** A call to the metrics backend, with the arguments [GetDashboard] builds
    (the time range excepted). *)
Inductive BackendQuery : Type :=
| FetchRange (metricName filters grouping aggregator : string)
| FetchRateRange (metricName filters grouping : string)
| FetchHistogramRange (metricName filters grouping : string).

Definition queryGrouping (q : BackendQuery) : string :=
  match q with
  | FetchRange _ _ grouping _ => grouping
  | FetchRateRange _ _ grouping => grouping
  | FetchHistogramRange _ _ grouping => grouping
  end.

(** Go's [1.0] as a float64. *)
Definition float_one : spec_float := S754_finite false 4503599627370496 (-52).

(** The worker that [GetDashboard] starts for a chart, up to its calls to
    the backend: [metrics] are the metric names of [chart.GetMetrics ()].
    It returns the queries it sends and the conversion parameters it hands
    to the fill operations. *)
Definition chartQueries (params : model.DashboardQuery) (filters : string)
    (chart : MonitoringDashboardChart) (metrics : list string)
    : list BackendQuery * model.ConversionParams :=
  let conversionParams :=
    {| model.Scale := float_one;
       model.SortLabel := v1alpha1.SortLabel chart;
       model.SortLabelParseAs := v1alpha1.SortLabelParseAs chart;
       model.RemoveSortLabel := false |} in
  let conversionParams :=
    if negb (SFeqb (v1alpha1.UnitScale chart) (S754_zero false)) then
      {| model.Scale := v1alpha1.UnitScale chart;
         model.SortLabel := model.SortLabel conversionParams;
         model.SortLabelParseAs := model.SortLabelParseAs conversionParams;
         model.RemoveSortLabel := model.RemoveSortLabel conversionParams |}
    else conversionParams in
  (* Group by labels is concat of what is defined in CR + what is passed as parameters *)
  let byLabels := v1alpha1.GroupLabels chart ++ model.ByLabels params in
  let '(byLabels, conversionParams) :=
    if decide (0 < String.length (v1alpha1.SortLabel chart)) then
      let present := existsb (λ lbl, bool_decide (lbl = v1alpha1.SortLabel chart)) byLabels in
      if negb present then
        (byLabels ++ [v1alpha1.SortLabel chart],
         {| model.Scale := model.Scale conversionParams;
            model.SortLabel := model.SortLabel conversionParams;
            model.SortLabelParseAs := model.SortLabelParseAs conversionParams;
            model.RemoveSortLabel := true |})
      else (byLabels, conversionParams)
    else (byLabels, conversionParams) in
  let grouping := strings.Join byLabels "," in
  ((λ metricName,
      if decide (v1alpha1.DataType chart = Raw) then
        let aggregator :=
          if decide (v1alpha1.Aggregator chart ≠ "") then v1alpha1.Aggregator chart
          else model.RawDataAggregator params in
        FetchRange metricName filters grouping aggregator
      else if decide (v1alpha1.DataType chart = Rate) then
        FetchRateRange metricName filters grouping
      else FetchHistogramRange metricName filters grouping) <$> metrics,
   conversionParams).

(** ** The discovery matcher *)

Definition loadRawDashboardResources (in_ : DashboardsService) (namespace : string)
    : result (gmap string MonitoringDashboard) :=
  let all : gmap string MonitoringDashboard := ∅ in
  let addAll (all : gmap string MonitoringDashboard) (dashboards : list MonitoringDashboard) :=
    foldl (λ all d, <[v1alpha1.DashboardName d := d]> all) all dashboards in
  (* From global namespace *)
  let fromGlobal :=
    if decide (config.GlobalNamespace (config in_) ≠ "") then
      match k8sGetDashboards in_ (config.GlobalNamespace (config in_)) with
      | Err err => Err err
      | Ok dashboards => Ok (addAll all dashboards)
      end
    else Ok all in
  match fromGlobal with
  | Err err => Err err
  | Ok all =>
      (* From specific namespace *)
      if decide (namespace ≠ config.GlobalNamespace (config in_)) then
        match k8sGetDashboards in_ namespace with
        | Err err => Err err
        | Ok dashboards => Ok (addAll all dashboards)
        end
      else Ok all
  end.

(** [fetchMetricNames], given the selector that [buildLabels] returned. When
    the backend reports an error, the names it returned beside the error are
    passed on as they are. *)
Definition fetchMetricNamesWith (in_ : DashboardsService) (labels : string)
    : list string :=
  match prom in_ with
  | Err _ => []
  | Ok promClient => (prometheus.GetMetricsForLabels promClient [labels]).1
  end.

Definition fetchMetricNames (in_ : DashboardsService) (namespace : string)
    (labelsFilters : gmap string string) (metrics : list string) : Prop :=
  ∃ labels, buildLabels in_ namespace labelsFilters labels
            ∧ metrics = fetchMetricNamesWith in_ labels.

(** The loop of [addDashboardToRuntimes]: the runtimes with [ref] appended
    to the first group named [runtime]; [None] when there is none. *)
Fixpoint appendToRuntime (runtime : string) (ref : model.DashboardRef)
    (runtimes : list model.Runtime) : option (list model.Runtime) :=
  match runtimes with
  | [] => None
  | rtObj :: rest =>
      if decide (model.Name rtObj = runtime) then
        Some ({| model.Name := model.Name rtObj;
                 model.DashboardRefs := model.DashboardRefs rtObj ++ [ref] |} :: rest)
      else (rtObj ::.) <$> appendToRuntime runtime ref rest
  end.

Definition dashboardRef (dashboard : MonitoringDashboard) : model.DashboardRef :=
  {| model.Template := v1alpha1.DashboardName dashboard;
     model.Title := v1alpha1.Title (v1alpha1.Spec dashboard) |}.

Definition addDashboardToRuntimes (dashboard : MonitoringDashboard)
    (runtimes : list model.Runtime) : list model.Runtime :=
  let runtime := v1alpha1.Runtime (v1alpha1.Spec dashboard) in
  let ref := dashboardRef dashboard in
  match appendToRuntime runtime ref runtimes with
  | Some runtimes' => runtimes'
  | None => runtimes ++ [{| model.Name := runtime; model.DashboardRefs := [ref] |}]
  end.

(** The first loop of [runDiscoveryMatcher], over the dashboards in the order
    the [range] visits them: [runtimesMap] maps a name to [Some] dashboard,
    or to [None] for the nil pointer of an included dashboard. *)
Definition matchDashboard (metrics : list string)
    (runtimesMap : gmap string (option MonitoringDashboard))
    (dashboard : MonitoringDashboard) : gmap string (option MonitoringDashboard) :=
  let matchReference := strings.TrimSpace (v1alpha1.DiscoverOn (v1alpha1.Spec dashboard)) in
  if decide (matchReference ≠ "") then
    if existsb (λ metric, bool_decide (matchReference = strings.TrimSpace metric)) metrics then
      let runtimesMap :=
        match runtimesMap !! v1alpha1.DashboardName dashboard with
        | Some _ => runtimesMap
        | None => <[v1alpha1.DashboardName dashboard := Some dashboard]> runtimesMap
        end in
      (* Mark included dashboards as already found *)
      foldl (λ runtimesMap item,
               if decide (v1alpha1.Include item ≠ "")
               then <[v1alpha1.Include item := None]> runtimesMap
               else runtimesMap)
            runtimesMap (v1alpha1.Items (v1alpha1.Spec dashboard))
    else runtimesMap
  else runtimesMap.

Definition matchDashboards (metrics : list string)
    (order : list MonitoringDashboard) : gmap string (option MonitoringDashboard) :=
  foldl (matchDashboard metrics) ∅ order.

(** The second loop, over the entries of [runtimesMap] in the order the
    [range] visits them. *)
Definition collectRuntimes (order : list (string * option MonitoringDashboard))
    : list model.Runtime :=
  foldl (λ runtimes entry,
           match entry.2 with
           | Some dashboard => addDashboardToRuntimes dashboard runtimes
           | None => runtimes
           end) [] order.

(** The comparison handed to [sort.Slice]: Go's [<] on the names. *)
Definition runtimeLess (a b : model.Runtime) : Prop :=
  String.ltb (model.Name a) (model.Name b) = true.

(** [sort.Slice] is not stable: it leaves some permutation of the slice in
    which no element is less than an earlier one. *)
Definition sortSlice (runtimes sorted : list model.Runtime) : Prop :=
  runtimes ≡ₚ sorted ∧ StronglySorted (λ a b, ¬ runtimeLess b a) sorted.

(** One such permutation, for the examples. *)
Definition sortSliceStable (runtimes : list model.Runtime) : list model.Runtime :=
  merge_sort (λ a b, String.le (model.Name a) (model.Name b)) runtimes.

(** [runDiscoveryMatcher]: the outputs the call may return, for the orders
    in which Go may visit [allDashboards] and [runtimesMap]. *)
Definition runDiscoveryMatcher (metrics : list string)
    (allDashboards : gmap string MonitoringDashboard)
    (runtimes : list model.Runtime) : Prop :=
  ∃ order1 order2,
    order1 ≡ₚ (map_to_list allDashboards).*2
    ∧ order2 ≡ₚ map_to_list (matchDashboards metrics order1)
    ∧ sortSlice (collectRuntimes order2) runtimes.

(** The output for the orders a [gmap] enumerates its entries in. *)
Definition runDiscoveryMatcherIn (metrics : list string)
    (allDashboards : gmap string MonitoringDashboard) : list model.Runtime :=
  sortSliceStable
    (collectRuntimes
       (map_to_list (matchDashboards metrics (map_to_list allDashboards).*2))).

(** [DiscoverDashboards]: its Go type has no error; a failure to load the
    templates is logged and the empty list returned. *)
Definition DiscoverDashboards (in_ : DashboardsService) (namespace : string)
    (labelsFilters : gmap string string) (runtimes : list model.Runtime) : Prop :=
  match loadRawDashboardResources in_ namespace with
  | Err _ => runtimes = []
  | Ok allDashboards =>
      ∃ metrics, fetchMetricNames in_ namespace labelsFilters metrics
                 ∧ runDiscoveryMatcher metrics allDashboards runtimes
  end.

(** ** Definitions for the statements *)

(** What a call that succeeds on [t] has done: [t] was new, and the names
    it added form a tree below [t]. *)
Definition succeedsAsTree (in_ : DashboardsService) (namespace : string)
    (rec : string → gmap string bool → option (gmap string bool * result MonitoringDashboard))
    : Prop :=
  ∀ t L L' d, rec t L = Some (L', Ok d) →
    L !! t = None ∧ t ∈ fresh L L' ∧ treeLike in_ namespace (fresh L L')
    ∧ (∀ a, a ∈ fresh L L' → ¬ includes in_ namespace a t).

(** The error of a run is the circular dependency error, built from the
    [loaded] map the run leaves, or the error of a lookup. *)
Definition circularOrLookup (in_ : DashboardsService) (namespace : string)
    (reached : string → Prop) (L' : gmap string bool) (e : error) : Prop :=
  (∃ D, is_Some (L' !! D) ∧ e = circularDependencyError D L')
  ∨ (∃ n, reached n ∧ loadRawDashboardResource in_ namespace n = Err e).

(** [mentions msg s]: the string [s] occurs in the message. *)
Definition mentions (msg s : string) : Prop :=
  ∃ pre post, msg = pre +:+ s +:+ post.

(** A computable check that the names [S] are closed under Include edges
    and can all be loaded. *)
Definition closedOn (in_ : DashboardsService) (namespace : string)
    (S : list string) : bool :=
  forallb (λ a,
             match loadRawDashboardResource in_ namespace a with
             | Ok d =>
                 forallb (λ b, bool_decide (b ∈ S))
                         (includeTargets (v1alpha1.Items (v1alpha1.Spec d)))
             | Err _ => false
             end) S.

(** What a reference takes of the items of the template it names, in the
    words of the specification: the first item whose chart has the name
    after the dollar sign, if the reference has one, else all the items. *)
Definition selectItems (parts : list string)
    (items2 : list MonitoringDashboardItem) : list MonitoringDashboardItem :=
  if decide (1 < length parts) then
    option_list
      (find (λ item2, bool_decide (Some (v1alpha1.Name (v1alpha1.Chart item2)) = parts !! 1))
            items2)
  else items2.

(** [expandsTo rec L items segs L']: position by position, [segs] holds what
    each of [items] expands to when the loop runs from the [loaded] map [L]
    to [L']: an inline item expands to itself, a reference to what it
    selects of the resolved template it names. *)
Inductive expandsTo
    (rec : string → gmap string bool → option (gmap string bool * result MonitoringDashboard))
    : gmap string bool → list MonitoringDashboardItem
      → list (list MonitoringDashboardItem) → gmap string bool → Prop :=
| expands_nil L : expandsTo rec L [] [] L
| expands_inline L item items segs L' :
    includeTarget item = None →
    expandsTo rec L items segs L' →
    expandsTo rec L (item :: items) ([item] :: segs) L'
| expands_include L item items segs L1 L' b composed :
    includeTarget item = Some b →
    rec b L = Some (L1, Ok composed) →
    expandsTo rec L1 items segs L' →
    expandsTo rec L (item :: items)
      (selectItems (strings.Split (strings.TrimSpace (v1alpha1.Include item)) "$"%char)
                   (v1alpha1.Items (v1alpha1.Spec composed)) :: segs) L'.

(** The items of the resolved template, for a resolution from the empty
    [loaded] map as [GetDashboard] starts it. *)
Definition resolvedItems (fuel : nat) (in_ : DashboardsService)
    (namespace template : string) : option (list MonitoringDashboardItem) :=
  match loadAndResolveDashboardResource fuel in_ namespace template ∅ with
  | Some (_, Ok dashboard) => Some (v1alpha1.Items (v1alpha1.Spec dashboard))
  | _ => None
  end.

(** [hasByte c s]: the byte [c] occurs in [s]. *)
Fixpoint hasByte (c : ascii) (s : string) : bool :=
  match s with
  | EmptyString => false
  | String c' s' => bool_decide (c' = c) || hasByte c s'
  end.

(** The equality constraint [,k="v"] of one label filter. *)
Definition labelConstraint (kv : string * string) : string :=
  "," +:+ kv.1 +:+ "=" +:+ dquote +:+ kv.2 +:+ dquote.

(** [refIn runtimes name ref]: the group named [name] holds [ref]. *)
Definition refIn (runtimes : list model.Runtime) (name : string)
    (ref : model.DashboardRef) : Prop :=
  ∃ rt, rt ∈ runtimes ∧ model.Name rt = name ∧ ref ∈ model.DashboardRefs rt.

(** The template is discovered on one of the reported metrics. *)
Definition discoveredOn (metrics : list string) (dashboard : MonitoringDashboard) : bool :=
  bool_decide (strings.TrimSpace (v1alpha1.DiscoverOn (v1alpha1.Spec dashboard)) ≠ "")
  && existsb (λ metric,
                bool_decide (strings.TrimSpace (v1alpha1.DiscoverOn (v1alpha1.Spec dashboard))
                             = strings.TrimSpace metric)) metrics.

(** The keys that the loop sets to nil for a dashboard: the [Include]
    fields of its items as they are written, the empty ones left out. *)
Definition rawIncludes (dashboard : MonitoringDashboard) : list string :=
  filter (λ k, k ≠ "") (v1alpha1.Include <$> v1alpha1.Items (v1alpha1.Spec dashboard)).

(** The key [k] is set to nil by a discovered dashboard of [order]. *)
Definition suppressed (metrics : list string) (order : list MonitoringDashboard)
    (k : string) : Prop :=
  ∃ dashboard, dashboard ∈ order ∧ discoveredOn metrics dashboard = true
               ∧ k ∈ rawIncludes dashboard.

(** The map holds every dashboard under its own name, as the maps that
    [loadRawDashboardResources] builds do. *)
Definition keyedByName (allDashboards : gmap string MonitoringDashboard) : Prop :=
  ∀ k d, allDashboards !! k = Some d → v1alpha1.DashboardName d = k.

(** The contract of the discovery in the words of the specification: an
    error when the templates cannot be loaded, else the runtime groupings of
    the matcher. *)
Definition discoverContract (in_ : DashboardsService) (namespace : string)
    (labelsFilters : gmap string string) (out : result (list model.Runtime)) : Prop :=
  match loadRawDashboardResources in_ namespace with
  | Err _ => ∃ err, out = Err err
  | Ok allDashboards =>
      ∃ metrics runtimes,
        fetchMetricNames in_ namespace labelsFilters metrics
        ∧ runDiscoveryMatcher metrics allDashboards runtimes
        ∧ out = Ok runtimes
  end.

(** The fetch of the metric names fails: the client cannot be created, or
    the backend answers every request with an error and, as a Go function
    does beside an error, no names. *)
Definition metricsFetchFails (in_ : DashboardsService) : Prop :=
  match prom in_ with
  | Err _ => True
  | Ok client =>
      ∀ labels, ∃ err, prometheus.GetMetricsForLabels client labels = ([], Some err)
  end.

(** ** The dashboards of explicit references *)

(** [buildRuntimesList]: every worker loads one of [templatesNames] and
    writes it into the slot of its index, so the slots are in the order of
    the names whatever the order in which the workers end; a load that fails
    is logged and leaves its slot nil, and the nil slots are passed over. *)
Definition buildRuntimesList (in_ : DashboardsService) (namespace : string)
    (templatesNames : list string) : list model.Runtime :=
  let dashboards : list (option MonitoringDashboard) :=
    (λ tpl, match loadRawDashboardResource in_ namespace tpl with
            | Ok dashboard => Some dashboard
            | Err _ => None
            end) <$> templatesNames in
  foldl (λ runtimes dashboard,
           match dashboard with
           | None => runtimes
           | Some dashboard => addDashboardToRuntimes dashboard runtimes
           end) [] dashboards.

Section SearchExplicitDashboards.

(** Modelled from the spec: the pods of package [model] and
    [extractUniqueDashboards], which reads the list of template names off
    the annotations of the pods, are not part of the sources at hand; both
    are parameters. *)
Context {Pod : Type} (extractUniqueDashboards : list Pod → list string).

Definition SearchExplicitDashboards (in_ : DashboardsService) (namespace : string)
    (pods : list Pod) : list model.Runtime :=
  let uniqueRefsList := extractUniqueDashboards pods in
  if decide (0 < length uniqueRefsList) then
    buildRuntimesList in_ namespace uniqueRefsList
  else [].

End SearchExplicitDashboards.

(** ** Further definitions for the statements *)

(** The Include references that can be reached from [t] form a tree: none
    dangles, none leads back to [t], and no template is the target of two
    of them. *)
Definition treeFrom (in_ : DashboardsService) (namespace : string) (t : string) : Prop :=
  closedFrom in_ namespace t
  ∧ (∀ a, rtc (includes in_ namespace) t a → ¬ includes in_ namespace a t)
  ∧ (∀ a a' i i' b,
       rtc (includes in_ namespace) t a → rtc (includes in_ namespace) t a' →
       includesAt in_ namespace a i b → includesAt in_ namespace a' i' b →
       a = a' ∧ i = i').

(** The names of a list in the order of their first occurrence. *)
Fixpoint firstOccurrences (names : list string) : list string :=
  match names with
  | [] => []
  | name :: names' => name :: filter (λ n, n ≠ name) (firstOccurrences names')
  end.

(** The runtime groupings of a list of dashboards in closed form: one group
    for each runtime, in the order in which the runtimes first occur, with
    the references of the dashboards of that runtime in the order of the
    list. *)
Definition groupByRuntime (dashboards : list MonitoringDashboard) : list model.Runtime :=
  (λ runtime,
     {| model.Name := runtime;
        model.DashboardRefs :=
          dashboardRef
            <$> filter (λ d, v1alpha1.Runtime (v1alpha1.Spec d) = runtime) dashboards |})
    <$> firstOccurrences ((λ d, v1alpha1.Runtime (v1alpha1.Spec d)) <$> dashboards).

(** The last dashboard of a list that has the name [k]. *)
Definition lastNamed (k : string) (dashboards : list MonitoringDashboard)
    : option MonitoringDashboard :=
  last (filter (λ d, v1alpha1.DashboardName d = k) dashboards).

(** The metric, the label selector and, for a raw query, the aggregator of
    a call to the metrics backend. *)
Definition queryMetricName (q : BackendQuery) : string :=
  match q with
  | FetchRange metricName _ _ _ => metricName
  | FetchRateRange metricName _ _ => metricName
  | FetchHistogramRange metricName _ _ => metricName
  end.

Definition queryFilters (q : BackendQuery) : string :=
  match q with
  | FetchRange _ filters _ _ => filters
  | FetchRateRange _ filters _ => filters
  | FetchHistogramRange _ filters _ => filters
  end.

Definition queryAggregator (q : BackendQuery) : option string :=
  match q with
  | FetchRange _ _ _ aggregator => Some aggregator
  | _ => None
  end.

(** The kind of a call: [FetchRange], [FetchRateRange] or
    [FetchHistogramRange]. *)
Inductive QueryKind : Type := RangeQuery | RateQuery | HistogramQuery.

Definition queryKind (q : BackendQuery) : QueryKind :=
  match q with
  | FetchRange _ _ _ _ => RangeQuery
  | FetchRateRange _ _ _ => RateQuery
  | FetchHistogramRange _ _ _ => HistogramQuery
  end.

(** * The chart utilities of the web client ([victoryChartsUtils.ts]) *)

(** The types [TimeSeries], [Datapoint], [Histogram], [ChartModel],
    [VCLine] and [LegendInfo] are declared in files that are not part of the
    sources at hand; they are given here by the fields that this file reads
    and writes. A datapoint is kept abstract, with the date and the number
    that [toVCLine] reads off it and the test [isNaN]. A colour is [None]
    for the [undefined] that indexing an empty array of colours yields. A
    histogram is the list of its statistics in the order of [Object.keys].
    The module variable [colorsIdx] is passed in and out of the functions
    that read and write it. *)
Module victoryChartsUtils.

Section Lines.

Context {Datapoint X Y LabelsInfo : Type}.
Context (dateOf : Datapoint → X) (numberOf : Datapoint → Y) (isNaN : Y → bool).

Record TimeSeries : Type := {
  name : string;
  values : list Datapoint;
}.

Record VCDataPoint : Type := {
  dp_name : string;
  dp_x : X;
  dp_y : Y;
  dp_unit : string;
  dp_color : option string;
}.

Record LegendItem : Type := {
  li_name : string;
  li_fill : option string;
}.

Record VCLine : Type := {
  datapoints : list VCDataPoint;
  legendItem : LegendItem;
  color : option string;
}.

Definition Histogram : Type := list (string * list TimeSeries).

Record ChartModel : Type := {
  chart_name : string;
  chart_unit : string;
  chart_metric : option (list TimeSeries);
  chart_histogram : option Histogram;
}.

Definition toVCLine (dps : list Datapoint) (unit title : string)
    (color : option string) : VCLine :=
  let datapoints :=
    filter (λ dp, isNaN (dp_y dp) = false)
           ((λ dp, {| dp_name := title; dp_x := dateOf dp; dp_y := numberOf dp;
                      dp_unit := unit; dp_color := color |}) <$> dps) in
  let legendItem := {| li_name := title; li_fill := color |} in
  {| datapoints := datapoints; legendItem := legendItem; color := color |}.

(** [title || line.name || '']: the title when it is given and not empty,
    else the name of the series. *)
Definition lineName (title : option string) (line : TimeSeries) : string :=
  match title with
  | Some title => if decide (title ≠ "") then title else name line
  | None => name line
  end.

Fixpoint toVCLines (ts : list TimeSeries) (unit : string) (colors : list string)
    (title : option string) (colorsIdx : nat) : list VCLine * nat :=
  match ts with
  | [] => ([], colorsIdx)
  | line :: ts' =>
      let name := lineName title line in
      let color := colors !! (colorsIdx mod length colors) in
      let colorsIdx := S colorsIdx in
      let '(lines, colorsIdx) := toVCLines ts' unit colors title colorsIdx in
      (toVCLine (values line) unit name color :: lines, colorsIdx)
  end.

Definition histogramToVCLines (histogram : Histogram) (unit : string)
    (colors : list string) (colorsIdx : nat) : list VCLine * nat :=
  (* Flat-map histo_stat * series *)
  foldl (λ '(allLines, colorsIdx) stat,
           let '(lines, colorsIdx) := toVCLines stat.2 unit colors None colorsIdx in
           (allLines ++ lines, colorsIdx))
        ([], colorsIdx) histogram.

Context (filterAndNameMetric : string → list TimeSeries → LabelsInfo → list TimeSeries).
Context (filterAndNameHistogram : Histogram → LabelsInfo → Histogram).

(** A supplier is called with the value of [colorsIdx] at the time of the
    call, and leaves a new one. *)
Definition metricsDataSupplier (chartName : string) (metrics : list TimeSeries)
    (labels : LabelsInfo) (unit : string) (colors : list string)
    : nat → list VCLine * nat :=
  λ colorsIdx,
    let colorsIdx := 0 in
    let filtered := filterAndNameMetric chartName metrics labels in
    toVCLines filtered unit colors None colorsIdx.

Definition histogramDataSupplier (histogram : Histogram) (labels : LabelsInfo)
    (unit : string) (colors : list string) : nat → list VCLine * nat :=
  λ colorsIdx,
    let colorsIdx := 0 in
    let filtered := filterAndNameHistogram histogram labels in
    histogramToVCLines filtered unit colors colorsIdx.

Definition getDataSupplier (chart : ChartModel) (labels : LabelsInfo)
    (colors : list string) : nat → list VCLine * nat :=
  match chart_metric chart with
  | Some metric => metricsDataSupplier (chart_name chart) metric labels (chart_unit chart) colors
  | None =>
      match chart_histogram chart with
      | Some histogram => histogramDataSupplier histogram labels (chart_unit chart) colors
      | None => λ colorsIdx, ([], colorsIdx)
      end
  end.

Record LegendInfo : Type := {
  height : Z;
  itemsPerRow : Z;
}.

(** [buildLegendInfo], for a chart width that is a whole number of pixels:
    on such numbers [Math.floor (a / b)] is the quotient rounded down and
    [Math.ceil (a / b)] the quotient rounded up. *)
Definition buildLegendInfo (series : list VCLine) (chartWidth : Z) : LegendInfo :=
  let boxSize := 110%Z in
  let longest :=
    String.length
      (foldl (λ a b, if decide (String.length b < String.length a) then a else b) ""
             ((λ it, li_name (legendItem it)) <$> series)) in
  let boxSize :=
    if decide (30 ≤ longest) then 400%Z
    else if decide (20 ≤ longest) then 300%Z
    else if decide (10 ≤ longest) then 200%Z
    else boxSize in
  let itemsPerRow := Z.max 1 (chartWidth `div` boxSize) in
  let nbRows := ((Z.of_nat (length series) + itemsPerRow - 1) `div` itemsPerRow)%Z in
  {| height := (15 + 30 * nbRows)%Z; itemsPerRow := itemsPerRow |}.

End Lines.

End victoryChartsUtils.

(** The lines take the colours in turn from the position [k] on. *)
Definition colouredFrom {X Y : Type} (colors : list string) (k : nat)
    (lines : list (@victoryChartsUtils.VCLine X Y)) : Prop :=
  ∀ i line, lines !! i = Some line →
            victoryChartsUtils.color line = colors !! ((k + i) mod length colors).

(** ** A cluster given by its list of templates, for the examples *)
Module Examples.

Definition chart (name : string) : MonitoringDashboardChart :=
  {| v1alpha1.Name := name; v1alpha1.DataType := "raw";
     v1alpha1.Aggregator := ""; v1alpha1.UnitScale := S754_zero false;
     v1alpha1.GroupLabels := []; v1alpha1.SortLabel := "";
     v1alpha1.SortLabelParseAs := "" |}.

Definition inline (name : string) : MonitoringDashboardItem :=
  {| v1alpha1.Include := ""; v1alpha1.Chart := chart name |}.

Definition include (reference : string) : MonitoringDashboardItem :=
  {| v1alpha1.Include := reference; v1alpha1.Chart := chart "" |}.

Definition dashboard (name runtime discoverOn : string)
    (items : list MonitoringDashboardItem) : MonitoringDashboard :=
  {| v1alpha1.ObjectMeta := {| metav1.Name := name |};
     v1alpha1.Spec := {| v1alpha1.Title := name +:+ " title";
                         v1alpha1.Runtime := runtime;
                         v1alpha1.DiscoverOn := discoverOn;
                         v1alpha1.Items := items |} |}.

(** A store: the templates of each namespace. *)
Definition store : Type := list (string * list MonitoringDashboard).

Definition templatesOf (st : store) (namespace : string) : list MonitoringDashboard :=
  match list_find (λ e, e.1 = namespace) st with
  | Some (_, e) => e.2
  | None => []
  end.

Definition client (st : store) : kubernetes.ClientInterface :=
  {| kubernetes.GetDashboard namespace name :=
       match list_find (λ d, v1alpha1.DashboardName d = name) (templatesOf st namespace) with
       | Some (_, d) => Ok d
       | None => Err ("monitoringdashboards " +:+ name +:+ " not found")
       end;
     kubernetes.GetDashboards namespace := Ok (templatesOf st namespace) |}.

Definition query : model.DashboardQuery :=
  {| model.Namespace := "ns1"; model.LabelsFilters := ∅;
     model.ByLabels := []; model.RawDataAggregator := "sum" |}.

Definition noMetrics : prometheus.ClientInterface :=
  {| prometheus.GetMetricsForLabels _ := ([], None) |}.

Definition service (st : store) (globalNamespace : string) : DashboardsService :=
  {| promClient := Ok noMetrics;
     k8sClient := Ok (client st);
     config := {| config.GlobalNamespace := globalNamespace;
                  config.NamespaceLabel := "" |} |}.

(** A cycle of three templates: A includes B, B includes C, C includes A. *)
Definition cycle3 : store :=
  [("ns", [dashboard "A" "rt" "" [inline "a1"; include "B"];
           dashboard "B" "rt" "" [include "C"; inline "b2"];
           dashboard "C" "rt" "" [include "A"]])].

(** A diamond without a cycle: A includes B and C, both include D. *)
Definition diamond : store :=
  [("ns", [dashboard "A" "rt" "" [include "B"; include "C"];
           dashboard "B" "rt" "" [include "D"];
           dashboard "C" "rt" "" [include "D"];
           dashboard "D" "rt" "" [inline "d1"]])].

(** A refers to a template that is not stored, and then to itself. *)
Definition danglingCycle : store :=
  [("ns", [dashboard "A" "rt" "" [include "Missing"; include "A"]])].

(** The diamond again, but D refers to a template that is not stored. *)
Definition danglingDiamond : store :=
  [("ns", [dashboard "A" "rt" "" [include "B"; include "C"];
           dashboard "B" "rt" "" [include "D"];
           dashboard "C" "rt" "" [include "D"];
           dashboard "D" "rt" "" [include "Missing"]])].

(** A includes the whole of B at the second of its three positions. *)
Definition whole3 : store :=
  [("ns", [dashboard "A" "rt" "" [inline "a1"; include "B"; inline "a3"];
           dashboard "B" "rt" "" [inline "b1"; inline "b2"]])].

(** A has three inline items and includes the whole of B after the first. *)
Definition whole4 : store :=
  [("ns", [dashboard "A" "rt" "" [inline "a1"; include "B"; inline "a2"; inline "a3"];
           dashboard "B" "rt" "" [inline "b1"; inline "b2"]])].

(** A includes the chart ChartX of B; B holds ChartX twice. *)
Definition scoped : store :=
  [("ns", [dashboard "A" "rt" "" [inline "a1"; include "B$ChartX"; inline "a3"]]);
   ("global", [dashboard "B" "rt" "" [inline "ChartX"; inline "ChartY";
                                      {| v1alpha1.Include := "";
                                         v1alpha1.Chart :=
                                           {| v1alpha1.Name := "ChartX"; v1alpha1.DataType := "rate";
                                              v1alpha1.Aggregator := ""; v1alpha1.UnitScale := S754_zero false;
                                              v1alpha1.GroupLabels := []; v1alpha1.SortLabel := "";
                                              v1alpha1.SortLabelParseAs := "" |} |}]])].

(** T is stored in the namespace and, in another version, in the global
    namespace; G is stored in the global namespace only. *)
Definition tiers : store :=
  [("ns", [dashboard "T" "specific" "" [inline "t1"]]);
   ("global", [dashboard "T" "shared" "" [inline "t0"];
               dashboard "G" "shared" "" [inline "g1"]])].

(** A chart sorted by the label version and grouped by the label app, and
    a query that asks for no further grouping. *)
Definition versionChart : MonitoringDashboardChart :=
  {| v1alpha1.Name := "Requests"; v1alpha1.DataType := "raw";
     v1alpha1.Aggregator := ""; v1alpha1.UnitScale := S754_zero false;
     v1alpha1.GroupLabels := ["app"]; v1alpha1.SortLabel := "version";
     v1alpha1.SortLabelParseAs := "" |}.

(** Templates of three runtimes, of which two report a reported metric. *)
Definition threeRuntimes : gmap string MonitoringDashboard :=
  list_to_map
    [("zulu", dashboard "zulu" "Zeta" "m1" [inline "z1"]);
     ("alpha", dashboard "alpha" "Alpha" " m2 " [inline "a1"]);
     ("beta", dashboard "beta" "Alpha" "m1" [inline "b1"]);
     ("quiet", dashboard "quiet" "Quiet" "m9" [inline "q1"])].

(** Parent includes the whole of Child; both are discovered on m1. *)
Definition parentChild : gmap string MonitoringDashboard :=
  list_to_map
    [("Parent", dashboard "Parent" "rt" "m1" [inline "p1"; include "Child"]);
     ("Child", dashboard "Child" "rt" "m1" [inline "ChartX"])].

(** Parent includes one chart of Child; both are discovered on m1. *)
Definition parentScopedChild : gmap string MonitoringDashboard :=
  list_to_map
    [("Parent", dashboard "Parent" "rt" "m1" [inline "p1"; include "Child$ChartX"]);
     ("Child", dashboard "Child" "rt" "m1" [inline "ChartX"])].

(** Parent includes the whole of Child, the reference written with a blank
    before the name; both are discovered on m1. *)
Definition parentSpacedChild : gmap string MonitoringDashboard :=
  list_to_map
    [("Parent", dashboard "Parent" "rt" "m1" [inline "p1"; include " Child"]);
     ("Child", dashboard "Child" "rt" "m1" [inline "ChartX"])].

(** A service whose cluster client cannot be created. *)
Definition noCluster : DashboardsService :=
  {| promClient := Ok noMetrics;
     k8sClient := Err "no kubeconfig";
     config := {| config.GlobalNamespace := ""; config.NamespaceLabel := "" |} |}.

(** A service whose metrics backend answers with an error. *)
Definition failingMetrics : prometheus.ClientInterface :=
  {| prometheus.GetMetricsForLabels _ := ([], Some "connection refused") |}.

Definition backendDown : DashboardsService :=
  {| promClient := Ok failingMetrics;
     k8sClient := Ok (client [("ns", [dashboard "Parent" "rt" "m1" [inline "p1"]])]);
     config := {| config.GlobalNamespace := ""; config.NamespaceLabel := "" |} |}.

End Examples.

(** The names that a lookup in an example cluster can find. *)
Definition storeNames (st : Examples.store) (namespace globalNamespace : string)
    : gset string :=
  list_to_set (v1alpha1.DashboardName
                 <$> (Examples.templatesOf st namespace
                        ++ Examples.templatesOf st globalNamespace)).

(** ** Further examples *)
Module MoreExamples.

(** A template whose second item has a blank reference. *)
Definition blankInclude : Examples.store :=
  [("ns", [Examples.dashboard "A" "rt" ""
             [Examples.inline "a1"; Examples.include "   "; Examples.inline "a3"]])].

(** B and C are stored in the namespace, B in another version and G in the
    global namespace. *)
Definition overridden : Examples.store :=
  [("ns", [Examples.dashboard "B" "local" "" [Examples.inline "b1"];
           Examples.dashboard "C" "local" "" [Examples.inline "c1"]]);
   ("global", [Examples.dashboard "B" "shared" "" [Examples.inline "b0"];
               Examples.dashboard "G" "shared" "" [Examples.inline "g1"]])].

(** The cluster of [Examples.tiers] for an account that may not list the
    templates of the namespace ns. *)
Definition restricted : DashboardsService :=
  {| promClient := Ok Examples.noMetrics;
     k8sClient :=
       Ok {| kubernetes.GetDashboard :=
               kubernetes.GetDashboard (Examples.client Examples.tiers);
             kubernetes.GetDashboards namespace :=
               if decide (namespace = "ns") then Err "forbidden"
               else kubernetes.GetDashboards (Examples.client Examples.tiers) namespace |};
     config := {| config.GlobalNamespace := "global"; config.NamespaceLabel := "" |} |}.

(** A cluster with four templates in the namespace ns, and a metrics
    backend that reports the metric names m1 and m2. *)
Definition monitoredTemplates : list MonitoringDashboard :=
  [Examples.dashboard "zulu" "Zeta" "m1" [Examples.inline "z1"];
   Examples.dashboard "alpha" "Alpha" " m2 " [Examples.inline "a1"];
   Examples.dashboard "beta" "Alpha" "m1" [Examples.inline "b1"];
   Examples.dashboard "quiet" "Quiet" "m9" [Examples.inline "q1"]].

Definition monitored : DashboardsService :=
  {| promClient := Ok {| prometheus.GetMetricsForLabels _ := (["m1"; "m2"], None) |};
     k8sClient := Ok (Examples.client [("ns", monitoredTemplates)]);
     config := {| config.GlobalNamespace := ""; config.NamespaceLabel := "" |} |}.

(** A histogram chart whose values are scaled by minus zero. *)
Definition latencyChart : MonitoringDashboardChart :=
  {| v1alpha1.Name := "Latency"; v1alpha1.DataType := "histogram";
     v1alpha1.Aggregator := "avg"; v1alpha1.UnitScale := S754_zero true;
     v1alpha1.GroupLabels := ["app"]; v1alpha1.SortLabel := "";
     v1alpha1.SortLabelParseAs := "" |}.

(** Three series of a chart of the web client, with two datapoints of
    which one is not a number, and five lines of a legend. *)
Definition requestSeries : list (@victoryChartsUtils.TimeSeries (nat * option nat)) :=
  [{| victoryChartsUtils.name := "v1"; victoryChartsUtils.values := [(0, Some 3); (1, None)] |};
   {| victoryChartsUtils.name := "v2"; victoryChartsUtils.values := [(0, Some 4)] |};
   {| victoryChartsUtils.name := "v3"; victoryChartsUtils.values := [] |}].

Definition legendLine (name : string) : @victoryChartsUtils.VCLine nat (option nat) :=
  {| victoryChartsUtils.datapoints := [];
     victoryChartsUtils.legendItem :=
       {| victoryChartsUtils.li_name := name; victoryChartsUtils.li_fill := Some "blue" |};
     victoryChartsUtils.color := Some "blue" |}.

Definition legendSeries : list (@victoryChartsUtils.VCLine nat (option nat)) :=
  legendLine <$> ["requests"; "errors"; "latency p50"; "latency p99"; "cpu"].

End MoreExamples.

(** A rank for the names of an example cluster, and the computable check
    that every Include reference of a stored template goes down in it. *)
Definition rankOf (ranks : list (string * nat)) (s : string) : nat :=
  match list_find (λ e, e.1 = s) ranks with
  | Some (_, e) => e.2
  | None => 0
  end.

Definition rankedOn (st : Examples.store) (namespace globalNamespace : string)
    (ranks : list (string * nat)) : bool :=
  forallb (λ d,
             forallb (λ b, rankOf ranks b <? rankOf ranks (v1alpha1.DashboardName d))
                     (includeTargets (v1alpha1.Items (v1alpha1.Spec d))))
          (Examples.templatesOf st namespace ++ Examples.templatesOf st globalNamespace).

(** * Properties *)

(** ** The string functions on examples *)

Example TrimSpace_ascii : strings.TrimSpace "  B$ChartX  " = "B$ChartX".
Proof. reflexivity. Qed.

Example TrimSpace_inner : strings.TrimSpace " Thread count " = "Thread count".
Proof. reflexivity. Qed.

(** A no-break space (C2 A0) before and an ideographic space (E3 80 80)
    after the name are white space too. *)
Example TrimSpace_unicode :
  strings.TrimSpace (String (ascii_of_nat 194) (String (ascii_of_nat 160)
                       ("B" +:+ String (ascii_of_nat 227) (String (ascii_of_nat 128)
                                  (String (ascii_of_nat 128) "")))))
  = "B".
Proof. reflexivity. Qed.

Example TrimSpace_blank : strings.TrimSpace "   " = "".
Proof. reflexivity. Qed.

Example Split_empty : strings.Split "" "$" = [""].
Proof. reflexivity. Qed.

Example Split_scoped_reference :
  strings.Split "microprofile-1.0$Thread count" "$" = ["microprofile-1.0"; "Thread count"].
Proof. reflexivity. Qed.

Example Split_two_separators : strings.Split "a$$b$" "$" = ["a"; ""; "b"; ""].
Proof. reflexivity. Qed.

Example Join_labels : strings.Join ["app"; "version"] "," = "app,version".
Proof. reflexivity. Qed.

(** ** The resolver: what a run leaves in [loaded] *)

Section ResolverFacts.

Context (in_ : DashboardsService) (namespace : string).

Abbreviation lr fuel := (loadAndResolveDashboardResource fuel in_ namespace).
Abbreviation edge := (includes in_ namespace).
Abbreviation edgeAt := (includesAt in_ namespace).
Abbreviation loadRaw := (loadRawDashboardResource in_ namespace).

Lemma includesAt_targets a d i b :
  loadRaw a = Ok d →
  edgeAt a i b ↔ includeTargets (v1alpha1.Items (v1alpha1.Spec d)) !! i = Some b.
Proof.
  intros Hd. split.
  - intros (d' & Hd' & Hi). congruence.
  - intros Hi. by exists d.
Qed.

Lemma includes_targets a d b :
  loadRaw a = Ok d →
  edge a b ↔ b ∈ includeTargets (v1alpha1.Items (v1alpha1.Spec d)).
Proof.
  intros Hd. unfold includes. rewrite list_elem_of_lookup.
  split; intros [i Hi]; exists i; by apply (includesAt_targets a d).
Qed.

Lemma includeTargets_cons_include item items b :
  includeTarget item = Some b →
  includeTargets (item :: items) = b :: includeTargets items.
Proof. intros H. unfold includeTargets. simpl. by rewrite H. Qed.

Lemma includeTargets_cons_inline item items :
  includeTarget item = None →
  includeTargets (item :: items) = includeTargets items.
Proof. intros H. unfold includeTargets. simpl. by rewrite H. Qed.

Lemma treeLike_closed_rtc Δ a b :
  treeLike in_ namespace Δ → a ∈ Δ → rtc edge a b → b ∈ Δ.
Proof.
  intros HΔ Ha Hab. induction Hab as [|x y z Hxy _ IH]; [done|].
  apply IH. by eapply tl_closed.
Qed.

(** One step of the outer loop, read off the definition. *)
Lemma resolveItems_cons rec item items L resolved :
  resolveItems rec (item :: items) L resolved =
    match includeTarget item with
    | None => resolveItems rec items L (resolved ++ [item])
    | Some b =>
        match rec b L with
        | None => None
        | Some (L', Err err) => Some (L', Err err)
        | Some (L', Ok composed) =>
            resolveItems rec items L'
              (spliceItems
                 (strings.Split (strings.TrimSpace (v1alpha1.Include item)) "$"%char)
                 (v1alpha1.Items (v1alpha1.Spec composed)) resolved)
        end
    end.
Proof. unfold includeTarget. simpl. by case_decide. Qed.

(** One call, read off the definition. *)
Lemma lr_S fuel t L :
  lr (S fuel) t L =
    if decide (is_Some (L !! t)) then
      Some (L, Err (circularDependencyError t L))
    else
      match loadRaw t with
      | Err err => Some (<[t := true]> L, Err err)
      | Ok dashboard =>
          match resolveItems (lr fuel) (v1alpha1.Items (v1alpha1.Spec dashboard))
                  (<[t := true]> L) [] with
          | None => None
          | Some (L', Err err) => Some (L', Err err)
          | Some (L', Ok resolved) => Some (L', Ok (v1alpha1.setItems dashboard resolved))
          end
      end.
Proof. reflexivity. Qed.

(** *** Names only accumulate *)

Lemma resolveItems_mono rec :
  (∀ t L L' r, rec t L = Some (L', r) → L ⊆ L') →
  ∀ items L resolved L' r,
    resolveItems rec items L resolved = Some (L', r) → L ⊆ L'.
Proof.
  intros Hrec. induction items as [|item items IH]; intros L resolved L' r.
  - simpl. by intros [= <- _].
  - rewrite resolveItems_cons. destruct (includeTarget item) as [b|]; [|by apply IH].
    destruct (rec b L) as [[L1 [c|e]]|] eqn:Hb; [| |done].
    + intros H. etrans; [by eapply Hrec | by eapply IH].
    + intros [= <- _]. by eapply Hrec.
Qed.

Lemma lr_mono fuel t L L' r : lr fuel t L = Some (L', r) → L ⊆ L'.
Proof.
  revert t L L' r. induction fuel as [|fuel IH]; intros t L L' r; [done|].
  rewrite lr_S. case_decide as Ht; [by intros [= <- _]|].
  assert (L ⊆ <[t := true]> L) as Hins.
  { apply insert_subseteq. destruct (L !! t) eqn:E; [|done]. by destruct Ht. }
  destruct (loadRaw t) as [d|e]; [|by intros [= <- _]].
  destruct (resolveItems _ _ _ _) as [[L1 [res|e]]|] eqn:Hres; [| |done].
  - intros [= <- _]. etrans; [done|]. by eapply (resolveItems_mono _ IH).
  - intros [= <- _]. etrans; [done|]. by eapply (resolveItems_mono _ IH).
Qed.

(** *** More fuel does not change a result *)

Lemma resolveItems_fuel rec rec' :
  (∀ t L r, rec t L = Some r → rec' t L = Some r) →
  ∀ items L resolved r,
    resolveItems rec items L resolved = Some r →
    resolveItems rec' items L resolved = Some r.
Proof.
  intros Hrec. induction items as [|item items IH]; intros L resolved r; [done|].
  rewrite !resolveItems_cons. destruct (includeTarget item) as [b|]; [|by apply IH].
  destruct (rec b L) as [[L1 [c|e]]|] eqn:Hb; [| |done].
  - rewrite (Hrec _ _ _ Hb). apply IH.
  - by rewrite (Hrec _ _ _ Hb).
Qed.

Lemma lr_fuel fuel fuel' t L r :
  fuel ≤ fuel' → lr fuel t L = Some r → lr fuel' t L = Some r.
Proof.
  revert fuel' t L r. induction fuel as [|fuel IH]; intros fuel' t L r Hle; [done|].
  destruct fuel' as [|fuel']; [lia|]. rewrite !lr_S. case_decide; [done|].
  destruct (loadRaw t) as [d|e]; [|done].
  destruct (resolveItems (lr fuel) _ _ _) as [[L1 res]|] eqn:Hres; [|done].
  rewrite (resolveItems_fuel (lr fuel) (lr fuel') (λ t L r, IH fuel' t L r ltac:(lia))
             _ _ _ _ Hres).
  done.
Qed.

End ResolverFacts.

(** ** The resolver: a successful run has expanded a tree *)

Section ResolverTree.

Context (in_ : DashboardsService) (namespace : string).

Abbreviation lr fuel := (loadAndResolveDashboardResource fuel in_ namespace).
Abbreviation edge := (includes in_ namespace).
Abbreviation edgeAt := (includesAt in_ namespace).
Abbreviation loadRaw := (loadRawDashboardResource in_ namespace).
Abbreviation tree := (treeLike in_ namespace).

Lemma tc_last {A} (R : relation A) x z :
  tc R x z → ∃ y, rtc R x y ∧ R y z.
Proof.
  induction 1 as [x z Hxz|x y z Hxy _ (y' & Hyy' & Hy'z)].
  - exists x. split; [constructor|done].
  - exists y'. split; [by econstructor|done].
Qed.

Lemma fresh_split (L L1 L' : gmap string bool) a :
  L ⊆ L1 → L1 ⊆ L' → a ∈ fresh L L' ↔ a ∈ fresh L L1 ∨ a ∈ fresh L1 L'.
Proof.
  intros H1%subseteq_dom H2%subseteq_dom. unfold fresh.
  destruct (decide (a ∈ dom L1)); set_solver.
Qed.

Lemma fresh_disjoint (L L1 L' : gmap string bool) a :
  a ∈ fresh L L1 → a ∈ fresh L1 L' → False.
Proof. unfold fresh. set_solver. Qed.

Lemma tree_empty : tree ∅.
Proof. split; set_solver. Qed.

Lemma resolveItems_tree rec :
  (∀ t L L' r, rec t L = Some (L', r) → L ⊆ L') →
  succeedsAsTree in_ namespace rec →
  ∀ items L resolved L' resolved',
    resolveItems rec items L resolved = Some (L', Ok resolved') →
    (∀ b, b ∈ includeTargets items → b ∈ fresh L L')
    ∧ NoDup (includeTargets items)
    ∧ tree (fresh L L')
    ∧ (∀ a i b, a ∈ fresh L L' → edgeAt a i b → b ∉ includeTargets items).
Proof.
  intros Hmono Hrec. induction items as [|item items IH]; intros L resolved L' resolved'.
  { simpl. intros [= <- _]. replace (fresh L L) with (∅ : gset string)
      by (unfold fresh; set_solver).
    split_and!; [set_solver|constructor|apply tree_empty|set_solver]. }
  rewrite resolveItems_cons. destruct (includeTarget item) as [b|] eqn:Hitem.
  2:{ rewrite (includeTargets_cons_inline _ _ Hitem). apply IH. }
  rewrite (includeTargets_cons_include _ _ _ Hitem).
  destruct (rec b L) as [[L1 [c|e]]|] eqn:Hb; [|done..].
  intros Hrest.
  pose proof (Hmono _ _ _ _ Hb) as HL1.
  pose proof (resolveItems_mono _ Hmono _ _ _ _ _ Hrest) as HL'.
  destruct (Hrec _ _ _ _ Hb) as (Hnew & Hb1 & Ht1 & Hroot1).
  destruct (IH _ _ _ _ Hrest) as (Htg & Hnd & Ht2 & Hout).
  pose proof (λ a, fresh_split L L1 L' a HL1 HL') as Hsplit.
  split_and!.
  - intros b' [->|Hb']%elem_of_cons; apply Hsplit; auto.
  - constructor; [|done]. intros Hin. eapply fresh_disjoint; eauto.
  - split.
    + intros a b' [Ha|Ha]%Hsplit Hab; apply Hsplit.
      * left. exact (tl_closed _ _ _ Ht1 _ _ Ha Hab).
      * right. exact (tl_closed _ _ _ Ht2 _ _ Ha Hab).
    + intros a [Ha|Ha]%Hsplit.
      * exact (tl_acyclic _ _ _ Ht1 _ Ha).
      * exact (tl_acyclic _ _ _ Ht2 _ Ha).
    + intros a a' i i' b' [Ha|Ha]%Hsplit [Ha'|Ha']%Hsplit Hi Hi'.
      * by eapply (tl_unique _ _ _ Ht1).
      * exfalso. eapply (fresh_disjoint L L1 L' b').
        -- eapply tl_closed; [exact Ht1|exact Ha|by exists i].
        -- eapply tl_closed; [exact Ht2|exact Ha'|by exists i'].
      * exfalso. eapply (fresh_disjoint L L1 L' b').
        -- eapply tl_closed; [exact Ht1|exact Ha'|by exists i'].
        -- eapply tl_closed; [exact Ht2|exact Ha|by exists i].
      * by eapply (tl_unique _ _ _ Ht2).
  - intros a i b' [Ha|Ha]%Hsplit Hi [->|Hb']%elem_of_cons.
    + eapply Hroot1; [exact Ha|by exists i].
    + eapply (fresh_disjoint L L1 L' b'); [|by apply Htg].
      eapply tl_closed; [exact Ht1|exact Ha|by exists i].
    + eapply (fresh_disjoint L L1 L' b); [done|].
      eapply tl_closed; [exact Ht2|exact Ha|by exists i].
    + by eapply Hout.
Qed.

Lemma lr_tree fuel : succeedsAsTree in_ namespace (lr fuel).
Proof.
  induction fuel as [|fuel IH]; intros t L L' d'; [done|].
  rewrite lr_S. case_decide as Ht; [done|].
  destruct (loadRaw t) as [d|e] eqn:Hd; [|done].
  destruct (resolveItems _ _ _ _) as [[L1 [res|e]]|] eqn:Hres; [|done..].
  intros [= <- _].
  assert (L !! t = None) as Hnew.
  { destruct (L !! t) eqn:E; [|done]. by destruct Ht. }
  assert (L ⊆ <[t := true]> L) as Hins by by apply insert_subseteq.
  pose proof (resolveItems_mono _ (lr_mono in_ namespace fuel) _ _ _ _ _ Hres) as HL1.
  destruct (resolveItems_tree _ (lr_mono in_ namespace fuel) IH _ _ _ _ _ Hres)
    as (Htg & Hnd & Htree & Hout).
  assert (∀ a, a ∈ fresh L L1 ↔ a = t ∨ a ∈ fresh (<[t := true]> L) L1) as Hsplit.
  { intros a. apply subseteq_dom in HL1. apply not_elem_of_dom in Hnew.
    revert HL1. unfold fresh. rewrite dom_insert_L. intros HL1.
    destruct (decide (a = t)) as [->|]; set_solver. }
  assert (t ∉ fresh (<[t := true]> L) L1) as Htnot.
  { unfold fresh. rewrite dom_insert_L. set_solver. }
  assert (∀ a, a ∈ fresh L L1 → ¬ edge a t) as Hroot.
  { intros a [->|Ha]%Hsplit Hat.
    - apply (includes_targets _ _ _ _ _ Hd) in Hat. apply Htnot. by apply Htg.
    - apply Htnot. by eapply tl_closed. }
  assert (∀ a b, a ∈ fresh L L1 → edge a b → b ∈ fresh L L1) as Hclosed.
  { intros a b [->|Ha]%Hsplit Hab; apply Hsplit; right.
    - apply Htg. by apply (includes_targets _ _ _ _ _ Hd).
    - by eapply tl_closed. }
  split_and!; [done|apply Hsplit; by left| |done].
  split; [done| |].
  - intros a [->|Ha]%Hsplit; [|by eapply tl_acyclic].
    intros Hc. apply tc_last in Hc as (a' & Hta' & Ha't).
    eapply Hroot; [|exact Ha't].
    assert (∀ a b, a ∈ fresh L L1 → rtc edge a b → b ∈ fresh L L1) as Hrtc.
    { intros a b Ha Hab. induction Hab as [|x y z Hxy _ IH']; [done|].
      apply IH'. by eapply Hclosed. }
    eapply Hrtc; [|exact Hta']. apply Hsplit. by left.
  - intros a a' i i' b [->|Ha]%Hsplit [->|Ha']%Hsplit Hi Hi'.
    + split; [done|].
      apply (includesAt_targets _ _ _ _ _ _ Hd) in Hi, Hi'.
      eapply NoDup_lookup; eauto.
    + exfalso. apply (includesAt_targets _ _ _ _ _ _ Hd) in Hi.
      eapply Hout; [exact Ha'|exact Hi'|]. by eapply list_elem_of_lookup_2.
    + exfalso. apply (includesAt_targets _ _ _ _ _ _ Hd) in Hi'.
      eapply Hout; [exact Ha|exact Hi|]. by eapply list_elem_of_lookup_2.
    + by eapply (tl_unique _ _ _ Htree).
Qed.

End ResolverTree.

(** ** The resolver: its errors, and its termination *)

Section ResolverRuns.

Context (in_ : DashboardsService) (namespace : string).

Abbreviation lr fuel := (loadAndResolveDashboardResource fuel in_ namespace).
Abbreviation edge := (includes in_ namespace).
Abbreviation loadRaw := (loadRawDashboardResource in_ namespace).

Lemma resolveItems_error rec :
  (∀ t L L' e, rec t L = Some (L', Err e) → circularOrLookup in_ namespace (rtc edge t) L' e) →
  ∀ items L resolved L' e,
    resolveItems rec items L resolved = Some (L', Err e) →
    circularOrLookup in_ namespace (λ n, ∃ b, b ∈ includeTargets items ∧ rtc edge b n) L' e.
Proof.
  intros Hrec. induction items as [|item items IH]; intros L resolved L' e; [done|].
  rewrite resolveItems_cons. destruct (includeTarget item) as [b|] eqn:Hitem.
  2:{ rewrite (includeTargets_cons_inline _ _ Hitem). apply IH. }
  rewrite (includeTargets_cons_include _ _ _ Hitem).
  destruct (rec b L) as [[L1 [c|e1]]|] eqn:Hb; [| |done].
  - intros [Hc|(n & (b' & Hb' & Hn) & He)]%IH; [by left|right].
    exists n. split; [|done]. exists b'. split; [by right|done].
  - intros [= <- <-]. destruct (Hrec _ _ _ _ Hb) as [Hc|(n & Hn & He)]; [by left|right].
    exists n. split; [|done]. exists b. split; [by left|done].
Qed.

Lemma lr_error fuel t L L' e :
  lr fuel t L = Some (L', Err e) → circularOrLookup in_ namespace (rtc edge t) L' e.
Proof.
  revert t L L' e. induction fuel as [|fuel IH]; intros t L L' e; [done|].
  rewrite lr_S. case_decide as Ht.
  { intros [= <- <-]. left. by exists t. }
  destruct (loadRaw t) as [d|e1] eqn:Hd.
  2:{ intros [= <- <-]. right. exists t. split; [constructor|done]. }
  destruct (resolveItems _ _ _ _) as [[L1 [res|e1]]|] eqn:Hres; [done| |done].
  intros [= <- <-].
  destruct (resolveItems_error _ IH _ _ _ _ _ Hres) as [Hc|(n & (b & Hb & Hn) & He)];
    [by left|right].
  exists n. split; [|done]. econstructor; [|exact Hn].
  by apply (includes_targets _ _ _ _ _ Hd).
Qed.

(** Enough fuel: one more than the number of names that a lookup can find
    and that are not loaded yet. *)
Lemma resolveItems_terminates (names : gset string) fuel rec :
  (∀ t L L' r, rec t L = Some (L', r) → L ⊆ L') →
  (∀ t L, size (names ∖ dom L) < fuel → is_Some (rec t L)) →
  ∀ items L resolved,
    size (names ∖ dom L) < fuel → is_Some (resolveItems rec items L resolved).
Proof.
  intros Hmono Hrec. induction items as [|item items IH]; intros L resolved Hsize; [by eexists|].
  rewrite resolveItems_cons. destruct (includeTarget item) as [b|]; [|by apply IH].
  destruct (Hrec b L Hsize) as [[L1 [c|e]] Hb]; rewrite Hb; [|by eexists].
  apply IH. apply Hmono, subseteq_dom in Hb.
  eapply Nat.le_lt_trans; [|exact Hsize]. apply subseteq_size. set_solver.
Qed.

Lemma lr_terminates (names : gset string) :
  (∀ n d, loadRaw n = Ok d → n ∈ names) →
  ∀ fuel t L, size (names ∖ dom L) < fuel → is_Some (lr fuel t L).
Proof.
  intros Hnames. induction fuel as [|fuel IH]; intros t L Hsize; [lia|].
  rewrite lr_S. case_decide as Ht; [by eexists|].
  destruct (loadRaw t) as [d|e] eqn:Hd; [|by eexists].
  assert (is_Some (resolveItems (lr fuel) (v1alpha1.Items (v1alpha1.Spec d))
                     (<[t := true]> L) [])) as [[L1 [res|e]] ->]; [|by eexists..].
  apply (resolveItems_terminates names fuel); [apply lr_mono|done|].
  assert (names ∖ dom (<[t := true]> L) ⊂ names ∖ dom L) as Hlt%subset_size; [|lia].
  rewrite dom_insert_L. apply Hnames in Hd.
  assert (t ∉ dom L) by (rewrite elem_of_dom; done).
  set_solver.
Qed.

End ResolverRuns.

(** ** What an error message mentions *)

Lemma append_assoc (s1 s2 s3 : string) : (s1 +:+ s2) +:+ s3 = s1 +:+ s2 +:+ s3.
Proof.
  induction s1 as [|c s1 IH]; [done|].
  change (String c (s1 +:+ s2 +:+ s3)) with (String c s1 +:+ s2 +:+ s3) in *.
  change (String c ((s1 +:+ s2) +:+ s3) = String c (s1 +:+ s2 +:+ s3)).
  by rewrite IH.
Qed.

Lemma append_nil_r (s : string) : s +:+ "" = s.
Proof.
  induction s as [|c s IH]; [done|].
  change (String c (s +:+ "") = String c s). by rewrite IH.
Qed.

Lemma mentions_prefix msg s pre : mentions msg s → mentions (pre +:+ msg) s.
Proof.
  intros (p & q & ->). exists (pre +:+ p), q. by rewrite append_assoc.
Qed.

Lemma mentions_suffix msg s post : mentions msg s → mentions (msg +:+ post) s.
Proof.
  intros (p & q & ->). exists p, (q +:+ post). by rewrite !append_assoc.
Qed.

Lemma mentions_here s post : mentions (s +:+ post) s.
Proof. by exists "", post. Qed.

Lemma Join_mentions elems sep x : x ∈ elems → mentions (strings.Join elems sep) x.
Proof.
  induction elems as [|y elems IH]; [by intros ?%elem_of_nil|].
  intros [->|Hx]%elem_of_cons.
  - destruct elems; [exists "", ""; by rewrite append_nil_r|apply mentions_here].
  - destruct elems as [|z elems]; [by apply elem_of_nil in Hx|].
    change (mentions (y +:+ sep +:+ strings.Join (z :: elems) sep) x).
    by apply mentions_prefix, mentions_prefix, IH.
Qed.

(** The circular dependency error names the template it refuses and every
    template of the [loaded] map. *)
Lemma circularDependencyError_mentions_template template loaded :
  mentions (circularDependencyError template loaded) template.
Proof. unfold circularDependencyError. apply mentions_prefix, mentions_here. Qed.

Lemma circularDependencyError_mentions_loaded template loaded n :
  is_Some (loaded !! n) → mentions (circularDependencyError template loaded) n.
Proof.
  intros [b Hb]. unfold circularDependencyError, fmt.formatMap.
  do 4 apply mentions_prefix. apply mentions_suffix.
  assert (mentions (n +:+ ":" +:+ fmt.formatBool b) n) as (p & q & Hpq)
    by apply mentions_here.
  assert (mentions
            (strings.Join ((λ kv, kv.1 +:+ ":" +:+ fmt.formatBool kv.2)
                             <$> fmt.sortedEntries loaded) " ")
            (n +:+ ":" +:+ fmt.formatBool b)) as (p' & q' & ->).
  { apply Join_mentions. apply list_elem_of_fmap. exists (n, b). split; [done|].
    unfold fmt.sortedEntries. rewrite merge_sort_Permutation.
    by apply elem_of_map_to_list. }
  rewrite Hpq. exists (p' +:+ p), (q +:+ q'). by rewrite !append_assoc.
Qed.

(** ** Checking a concrete cluster *)

Lemma closedOn_closedFrom in_ namespace S t :
  closedOn in_ namespace S = true → t ∈ S → closedFrom in_ namespace t.
Proof.
  intros Hall Ht n Hn.
  assert (∀ a, a ∈ S →
            ∃ d, loadRawDashboardResource in_ namespace a = Ok d
                 ∧ ∀ b, b ∈ includeTargets (v1alpha1.Items (v1alpha1.Spec d)) → b ∈ S)
    as Hstep.
  { intros a Ha. unfold closedOn in Hall. rewrite forallb_forall in Hall.
    specialize (Hall a). rewrite <- list_elem_of_In in Hall. specialize (Hall Ha).
    destruct (loadRawDashboardResource in_ namespace a) as [d|e]; [|done].
    exists d. split; [done|]. intros b Hb. rewrite forallb_forall in Hall.
    specialize (Hall b). rewrite <- list_elem_of_In in Hall.
    specialize (Hall Hb). by apply bool_decide_eq_true in Hall. }
  assert (n ∈ S) as Hin.
  { induction Hn as [|x y z Hxy _ IH]; [done|]. apply IH.
    destruct (Hstep x Ht) as (d & Hd & Hsucc). apply Hsucc.
    by apply (includes_targets _ _ _ _ _ Hd). }
  destruct (Hstep n Hin) as (d & Hd & _). by exists d.
Qed.

Lemma client_GetDashboard_name st namespace n d :
  kubernetes.GetDashboard (Examples.client st) namespace n = Ok d →
  d ∈ Examples.templatesOf st namespace ∧ v1alpha1.DashboardName d = n.
Proof.
  simpl. destruct (list_find _ _) as [[i d']|] eqn:Hfind; [|done].
  intros [= <-]. apply list_find_Some in Hfind as (Hi & Hname & _).
  split; [by eapply list_elem_of_lookup_2|done].
Qed.

Lemma loadRaw_service_elem st namespace globalNamespace n d :
  loadRawDashboardResource (Examples.service st globalNamespace) namespace n = Ok d →
  d ∈ Examples.templatesOf st namespace ++ Examples.templatesOf st globalNamespace
  ∧ v1alpha1.DashboardName d = n.
Proof.
  unfold loadRawDashboardResource, k8sGetDashboard, k8s. simpl.
  destruct (list_find _ (Examples.templatesOf st namespace)) as [[i d']|] eqn:H1.
  - intros [= <-]. apply list_find_Some in H1 as (Hi & Hname & _).
    split; [|done]. apply elem_of_app. left. by eapply list_elem_of_lookup_2.
  - case_decide; [|done].
    destruct (list_find _ (Examples.templatesOf st globalNamespace)) as [[i d']|] eqn:H2;
      [|done].
    intros [= <-]. apply list_find_Some in H2 as (Hi & Hname & _).
    split; [|done]. apply elem_of_app. right. by eapply list_elem_of_lookup_2.
Qed.

Lemma storeNames_finite st namespace globalNamespace n d :
  loadRawDashboardResource (Examples.service st globalNamespace) namespace n = Ok d →
  n ∈ storeNames st namespace globalNamespace.
Proof.
  intros [Hd Hn]%loadRaw_service_elem. unfold storeNames.
  rewrite elem_of_list_to_set, list_elem_of_fmap. by exists d.
Qed.

Lemma rankedOn_acyclic st namespace globalNamespace ranks n :
  rankedOn st namespace globalNamespace ranks = true →
  ¬ tc (includes (Examples.service st globalNamespace) namespace) n n.
Proof.
  intros Hranked.
  assert (∀ a b, includes (Examples.service st globalNamespace) namespace a b →
                 rankOf ranks b < rankOf ranks a) as Hedge.
  { intros a b (i & d & Hd & Hi).
    apply loadRaw_service_elem in Hd as [Hd <-].
    apply list_elem_of_lookup_2 in Hi.
    unfold rankedOn in Hranked. rewrite forallb_forall in Hranked.
    specialize (Hranked d). rewrite <- list_elem_of_In in Hranked.
    specialize (Hranked Hd). rewrite forallb_forall in Hranked.
    specialize (Hranked b). rewrite <- list_elem_of_In in Hranked.
    by apply Nat.ltb_lt, Hranked. }
  assert (∀ a b, tc (includes (Examples.service st globalNamespace) namespace) a b →
                 rankOf ranks b < rankOf ranks a) as Htc.
  { induction 1 as [a b Hab|a b c Hab _ IH]; [by apply Hedge|].
    apply Hedge in Hab. lia. }
  intros Hn%Htc. lia.
Qed.

(** The message of a lookup that does not find a template is not the
    message of the circular dependency check. *)
Lemma circularDependencyError_not_found template loaded name :
  circularDependencyError template loaded
  ≠ "monitoringdashboards " +:+ name +:+ " not found".
Proof. unfold circularDependencyError. discriminate. Qed.

(** ** C1: cycles are detected, and the resolution terminates *)



Example cycle3_closed : closedFrom (Examples.service Examples.cycle3 "") "ns" "A".
Proof. apply (closedOn_closedFrom _ _ ["A"; "B"; "C"]); [done|set_solver]. Qed.

Example cycle3_run :
  loadAndResolveDashboardResource 4 (Examples.service Examples.cycle3 "") "ns" "A" ∅
  = Some (<["C" := true]> (<["B" := true]> (<["A" := true]> ∅)),
          Err ("cannot load dashboard A due to circular dependency detected. "
               +:+ "Already loaded dependencies: map[A:true B:true C:true]")).
Proof. vm_compute. reflexivity. Qed.


(** ** C10: a template included twice is reported as a cycle *)



Example diamond_closed : closedFrom (Examples.service Examples.diamond "") "ns" "A".
Proof. apply (closedOn_closedFrom _ _ ["A"; "B"; "C"; "D"]); [done|set_solver]. Qed.

(** The diamond has no cycle: every Include edge goes down in the rank. *)
Example diamond_acyclic n :
  ¬ tc (includes (Examples.service Examples.diamond "") "ns") n n.
Proof.
  by apply (rankedOn_acyclic _ _ _ [("A", 3); ("B", 2); ("C", 2); ("D", 1)]).
Qed.


Example diamond_run :
  loadAndResolveDashboardResource 5 (Examples.service Examples.diamond "") "ns" "A" ∅
  = Some (<["D" := true]> (<["C" := true]> (<["B" := true]> (<["A" := true]> ∅))),
          Err ("cannot load dashboard D due to circular dependency detected. "
               +:+ "Already loaded dependencies: map[A:true B:true C:true D:true]")).
Proof. vm_compute. reflexivity. Qed.

(** ** C3, C4: the order of the resolved items *)

Lemma spliceItems_select parts items2 resolved :
  spliceItems parts items2 resolved = resolved ++ selectItems parts items2.
Proof.
  unfold selectItems. revert resolved.
  induction items2 as [|item2 rest IH]; intros resolved; simpl.
  - case_decide; by rewrite app_nil_r.
  - case_decide as Hparts.
    + case_decide as Hname.
      * by rewrite bool_decide_eq_true_2.
      * rewrite bool_decide_eq_false_2 by done. apply IH.
    + rewrite IH. by rewrite <- app_assoc.
Qed.

Lemma resolveItems_expands rec items : ∀ L resolved L' resolved',
  resolveItems rec items L resolved = Some (L', Ok resolved') →
  ∃ segs, expandsTo rec L items segs L' ∧ resolved' = resolved ++ concat segs.
Proof.
  induction items as [|item items IH]; intros L resolved L' resolved'.
  - simpl. intros [= <- <-]. exists []. split; [constructor|by rewrite app_nil_r].
  - rewrite resolveItems_cons. destruct (includeTarget item) as [b|] eqn:Hitem.
    + destruct (rec b L) as [[L1 [composed|e]]|] eqn:Hb; [|done..].
      intros (segs & Hsegs & ->)%IH. eexists. split; [by eapply expands_include|].
      rewrite spliceItems_select. simpl. by rewrite <- app_assoc.
    + intros (segs & Hsegs & ->)%IH. eexists. split; [by eapply expands_inline|].
      simpl. by rewrite <- app_assoc.
Qed.

(** A resolved template holds inline items only. *)
Lemma selectItems_subseteq parts items2 : selectItems parts items2 ⊆ items2.
Proof.
  unfold selectItems. case_decide; [|done].
  destruct (find _ items2) as [x|] eqn:Hfind; simpl; [|apply list_subseteq_nil].
  apply find_some in Hfind as [Hin _]. apply list_elem_of_In in Hin.
  intros y ->%list_elem_of_singleton. done.
Qed.

Lemma expandsTo_inline rec L items segs L' :
  (∀ t L L' d, rec t L = Some (L', Ok d) →
     Forall (λ item, includeTarget item = None) (v1alpha1.Items (v1alpha1.Spec d))) →
  expandsTo rec L items segs L' →
  Forall (λ item, includeTarget item = None) (concat segs).
Proof.
  intros Hrec. induction 1 as [|L item items segs L' Hitem _ IH
                              |L item items segs L1 L' b composed Hitem Hb _ IH]; simpl.
  - constructor.
  - by constructor.
  - apply Forall_app. split; [|done].
    apply Forall_forall. intros x Hx%selectItems_subseteq.
    by eapply (proj1 (Forall_forall _ _) (Hrec _ _ _ _ Hb)).
Qed.

Lemma lr_inline fuel in_ namespace t L L' d :
  loadAndResolveDashboardResource fuel in_ namespace t L = Some (L', Ok d) →
  Forall (λ item, includeTarget item = None) (v1alpha1.Items (v1alpha1.Spec d)).
Proof.
  revert t L L' d. induction fuel as [|fuel IH]; intros t L L' d'; [done|].
  rewrite lr_S. case_decide; [done|].
  destruct (loadRawDashboardResource in_ namespace t) as [d|e]; [|done].
  destruct (resolveItems _ _ _ _) as [[L1 [res|e]]|] eqn:Hres; [|done..].
  intros [= <- <-]. apply resolveItems_expands in Hres as (segs & Hsegs & ->).
  simpl. by eapply expandsTo_inline.
Qed.

(** ** C2: the two-tier lookup *)

(** C2. The lookup asks the namespace first, and its answer wins; if that
    fails and a global namespace is configured, the answer of the global
    namespace is returned, be it a template or the error of this last
    attempt; without a global namespace the first error is returned. *)
Theorem two_tier_lookup (in_ : DashboardsService) (namespace template : string) :
  (∀ d, k8sGetDashboard in_ namespace template = Ok d →
        loadRawDashboardResource in_ namespace template = Ok d)
  ∧ (∀ err, k8sGetDashboard in_ namespace template = Err err →
            config.GlobalNamespace (config in_) ≠ "" →
            loadRawDashboardResource in_ namespace template
            = k8sGetDashboard in_ (config.GlobalNamespace (config in_)) template)
  ∧ (∀ err, k8sGetDashboard in_ namespace template = Err err →
            config.GlobalNamespace (config in_) = "" →
            loadRawDashboardResource in_ namespace template = Err err).
Proof.
  unfold loadRawDashboardResource. split_and!.
  - by intros d ->.
  - intros err -> Hglobal. rewrite decide_True by done.
    by destruct (k8sGetDashboard in_ _ template).
  - intros err -> Hglobal. by rewrite decide_False by (by intros []).
Qed.

(** A template stored in both tiers is read from the namespace, one stored
    in the global namespace only is read from there, and for one stored in
    neither the error of the global namespace comes back. *)
Lemma two_tier_lookup_witness :
  loadRawDashboardResource (Examples.service Examples.tiers "global") "ns" "T"
  = Ok (Examples.dashboard "T" "specific" "" [Examples.inline "t1"])
  ∧ loadRawDashboardResource (Examples.service Examples.tiers "global") "ns" "G"
    = Ok (Examples.dashboard "G" "shared" "" [Examples.inline "g1"])
  ∧ loadRawDashboardResource (Examples.service Examples.tiers "global") "ns" "X"
    = k8sGetDashboard (Examples.service Examples.tiers "global") "global" "X".
Proof.
  split_and!.
  - apply (two_tier_lookup (Examples.service Examples.tiers "global") "ns" "T").
    reflexivity.
  - rewrite (proj1 (proj2 (two_tier_lookup (Examples.service Examples.tiers "global")
                             "ns" "G"))
               "monitoringdashboards G not found"); [reflexivity..|discriminate].
  - apply (proj1 (proj2 (two_tier_lookup (Examples.service Examples.tiers "global")
                           "ns" "X"))
             "monitoringdashboards X not found"); [reflexivity|discriminate].
Defined.

Example tiers_resolve_override :
  resolvedItems 1 (Examples.service Examples.tiers "global") "ns" "T"
  = Some [Examples.inline "t1"].
Proof. vm_compute. reflexivity. Qed.

Example tiers_resolve_fallback :
  resolvedItems 1 (Examples.service Examples.tiers "global") "ns" "G"
  = Some [Examples.inline "g1"].
Proof. vm_compute. reflexivity. Qed.

(** ** C3: expansion in place *)

(** C3 (amended). A successful resolution of a template returns the stored
    template with its items replaced, position by position and in source
    order, by their expansions: an inline item by itself, a reference by
    what it selects of the resolved template it names, which for a reference
    to a whole template is all the items of that template in their order;
    the result holds inline items only. *)
Theorem items_expand_in_place (fuel : nat) (in_ : DashboardsService)
    (namespace t : string) (L L' : gmap string bool) (d' : MonitoringDashboard) :
  loadAndResolveDashboardResource (S fuel) in_ namespace t L = Some (L', Ok d') →
  (∃ d segs,
     loadRawDashboardResource in_ namespace t = Ok d
     ∧ expandsTo (loadAndResolveDashboardResource fuel in_ namespace)
         (<[t := true]> L) (v1alpha1.Items (v1alpha1.Spec d)) segs L'
     ∧ d' = v1alpha1.setItems d (concat segs)
     ∧ Forall (λ item, includeTarget item = None) (concat segs))
  ∧ (∀ parts items2, length parts = 1 → selectItems parts items2 = items2).
Proof.
  intros Hrun. split.
  - pose proof (lr_inline _ _ _ _ _ _ _ Hrun) as Hinline.
    rewrite lr_S in Hrun. case_decide; [done|].
    destruct (loadRawDashboardResource in_ namespace t) as [d|e]; [|done].
    destruct (resolveItems _ _ _ _) as [[L1 [res|e]]|] eqn:Hres; [|done..].
    injection Hrun as <- <-. apply resolveItems_expands in Hres as (segs & Hsegs & ->).
    by exists d, segs.
  - intros parts items2 Hparts. unfold selectItems. rewrite Hparts.
    by rewrite decide_False by lia.
Qed.

(** A, whose second of three items includes B with its two inline charts,
    resolves to four items. *)
Lemma items_expand_in_place_witness :
  (∃ d segs,
     loadRawDashboardResource (Examples.service Examples.whole3 "") "ns" "A" = Ok d
     ∧ expandsTo (loadAndResolveDashboardResource 1 (Examples.service Examples.whole3 "") "ns")
         (<["A" := true]> ∅) (v1alpha1.Items (v1alpha1.Spec d)) segs
         (<["B" := true]> (<["A" := true]> ∅))
     ∧ Examples.dashboard "A" "rt" ""
         [Examples.inline "a1"; Examples.inline "b1"; Examples.inline "b2";
          Examples.inline "a3"]
       = v1alpha1.setItems d (concat segs)
     ∧ Forall (λ item, includeTarget item = None) (concat segs))
  ∧ (∀ parts items2, length parts = 1 → selectItems parts items2 = items2).
Proof.
  apply (items_expand_in_place 1 (Examples.service Examples.whole3 "") "ns" "A" ∅).
  vm_compute. reflexivity.
Defined.

(** The example of the specification as it is written does not hold: with
    the reference at the second of three positions the result has four items,
    not five; and when A holds three inline items beside the reference, the
    five items are not the four that it lists. *)
Lemma whole_include_counterexample :
  (resolvedItems 2 (Examples.service Examples.whole3 "") "ns" "A"
   = Some [Examples.inline "a1"; Examples.inline "b1"; Examples.inline "b2";
           Examples.inline "a3"]
   ∧ length <$> resolvedItems 2 (Examples.service Examples.whole3 "") "ns" "A" ≠ Some 5)
  ∧ (resolvedItems 2 (Examples.service Examples.whole4 "") "ns" "A"
     = Some [Examples.inline "a1"; Examples.inline "b1"; Examples.inline "b2";
             Examples.inline "a2"; Examples.inline "a3"]
     ∧ resolvedItems 2 (Examples.service Examples.whole4 "") "ns" "A"
       ≠ Some [Examples.inline "a1"; Examples.inline "b1"; Examples.inline "b2";
               Examples.inline "a3"]).
Proof.
  split; split; first [by vm_compute|vm_compute; discriminate].
Qed.

(** ** C4: a reference to one chart *)

Lemma Split_no_sep s sep : hasByte sep s = false → strings.Split s sep = [s].
Proof.
  induction s as [|c s IH]; [done|]. cbn [hasByte strings.Split].
  intros [Hc Hs]%orb_false_elim. apply bool_decide_eq_false in Hc.
  rewrite decide_False by done. by rewrite IH.
Qed.

Lemma Split_app_sep s1 s2 sep :
  hasByte sep s1 = false →
  strings.Split (s1 +:+ String sep s2) sep = s1 :: strings.Split s2 sep.
Proof.
  induction s1 as [|c s1 IH].
  - intros _. change ("" +:+ String sep s2) with (String sep s2).
    cbn [strings.Split]. by rewrite decide_True.
  - cbn [hasByte]. intros [Hc Hs]%orb_false_elim. apply bool_decide_eq_false in Hc.
    change (String c s1 +:+ String sep s2) with (String c (s1 +:+ String sep s2)).
    cbn [strings.Split]. rewrite decide_False by done. by rewrite IH.
Qed.

Lemma Split_scoped tpl chartName :
  hasByte "$" tpl = false → hasByte "$" chartName = false →
  strings.Split (tpl +:+ "$" +:+ chartName) "$" = [tpl; chartName].
Proof.
  intros Htpl Hchart. change ("$" +:+ chartName) with (String "$" chartName).
  by rewrite Split_app_sep, Split_no_sep.
Qed.



Example scoped_run :
  resolvedItems 2 (Examples.service Examples.scoped "global") "ns" "A"
  = Some [Examples.inline "a1"; Examples.inline "ChartX"; Examples.inline "a3"].
Proof. vm_compute. reflexivity. Qed.

(** ** C9: the label selector *)

Lemma foldl_append (acc : string) (l : list string) (tail : string) :
  foldl (λ acc s, acc +:+ s) acc l +:+ tail = acc +:+ foldr String.append tail l.
Proof.
  revert acc. induction l as [|s l IH]; intros acc; simpl; [done|].
  by rewrite IH, append_assoc.
Qed.

(** C9. Every selector that [buildLabels] returns is, between braces, the
    equality constraint of the namespace label (the configured name, or
    [namespace] when none is configured) on the target namespace, followed
    by the equality constraints of the label filters, one for each filter,
    in the order in which the map was visited. *)
Theorem buildLabels_selector (in_ : DashboardsService) (namespace : string)
    (labelsFilters : gmap string string) (labels : string) :
  buildLabels in_ namespace labelsFilters labels →
  ∃ order,
    order ≡ₚ map_to_list labelsFilters
    ∧ labels
      = "{"
        +:+ (if decide (config.NamespaceLabel (config in_) = "") then "namespace"
             else config.NamespaceLabel (config in_))
        +:+ "=" +:+ dquote +:+ namespace +:+ dquote
        +:+ foldr String.append "}" (labelConstraint <$> order).
Proof.
  intros (order & Hperm & ->). exists order. split; [done|].
  unfold buildLabelsIn, defaultNamespaceLabel.
  set (label := if decide (config.NamespaceLabel (config in_) = "") then _ else _).
  set (start := "{" +:+ label +:+ "=" +:+ dquote +:+ namespace +:+ dquote).
  replace (foldl _ start order)
    with (foldl (λ acc s, acc +:+ s) start (labelConstraint <$> order)).
  - rewrite foldl_append. unfold start. by rewrite !append_assoc.
  - clear Hperm. generalize start. induction order as [|kv order IH]; intros acc; [done|].
    simpl. apply IH.
Qed.

(** The selector of the namespace ns1 with the filter app = foo. *)
Lemma buildLabels_selector_witness :
  ∃ order,
    order ≡ₚ map_to_list ({["app" := "foo"]} : gmap string string)
    ∧ "{namespace=" +:+ dquote +:+ "ns1" +:+ dquote
      +:+ ",app=" +:+ dquote +:+ "foo" +:+ dquote +:+ "}"
      = "{"
        +:+ (if decide (config.NamespaceLabel (config (Examples.service [] "")) = "")
             then "namespace"
             else config.NamespaceLabel (config (Examples.service [] "")))
        +:+ "=" +:+ dquote +:+ "ns1" +:+ dquote
        +:+ foldr String.append "}" (labelConstraint <$> order).
Proof.
  apply (buildLabels_selector (Examples.service [] "") "ns1" {["app" := "foo"]}).
  exists [("app", "foo")]. split.
  - by rewrite map_to_list_singleton.
  - vm_compute. reflexivity.
Defined.

(** With one filter there is one order, and one selector. *)
Example buildLabels_ns1_app_foo labels :
  buildLabels (Examples.service [] "") "ns1" {["app" := "foo"]} labels ↔
  labels = "{namespace=" +:+ dquote +:+ "ns1" +:+ dquote
           +:+ ",app=" +:+ dquote +:+ "foo" +:+ dquote +:+ "}".
Proof.
  unfold buildLabels. rewrite map_to_list_singleton. split.
  - intros (order & ->%Permutation_singleton_r & ->). vm_compute. reflexivity.
  - intros ->. exists [("app", "foo")]. split; [done|]. vm_compute. reflexivity.
Qed.

(** ** C7: the grouping of a chart with a sort label *)

(** C7. For a chart that declares a sort label, every query of the chart is
    grouped by the group labels of the chart followed by the labels of the
    caller; when the sort label is not among them it is appended, and the
    conversion parameters then ask to remove it, so that the converted
    labels of a series do not hold it. *)
Theorem sort_label_grouping (params : model.DashboardQuery) (filters : string)
    (chart : MonitoringDashboardChart) (metrics : list string) :
  v1alpha1.SortLabel chart ≠ "" →
  let byLabels := v1alpha1.GroupLabels chart ++ model.ByLabels params in
  let queries := (chartQueries params filters chart metrics).1 in
  let conversionParams := (chartQueries params filters chart metrics).2 in
  length queries = length metrics
  ∧ (v1alpha1.SortLabel chart ∈ byLabels →
     Forall (λ q, queryGrouping q = strings.Join byLabels ",") queries
     ∧ model.RemoveSortLabel conversionParams = false)
  ∧ (v1alpha1.SortLabel chart ∉ byLabels →
     Forall (λ q, queryGrouping q
                  = strings.Join (byLabels ++ [v1alpha1.SortLabel chart]) ",") queries
     ∧ model.RemoveSortLabel conversionParams = true
     ∧ model.SortLabel conversionParams = v1alpha1.SortLabel chart
     ∧ ∀ labels, model.convertLabels conversionParams labels
                   !! v1alpha1.SortLabel chart = None).
Proof.
  intros Hsort byLabels. unfold chartQueries. fold byLabels.
  assert (0 < String.length (v1alpha1.SortLabel chart)) as Hlen.
  { destruct (v1alpha1.SortLabel chart); [done|simpl; lia]. }
  rewrite decide_True by done.
  assert (existsb (λ lbl, bool_decide (lbl = v1alpha1.SortLabel chart)) byLabels = true
          ↔ v1alpha1.SortLabel chart ∈ byLabels) as Hpresent.
  { rewrite existsb_exists. split.
    - intros (x & Hx%list_elem_of_In & ->%bool_decide_eq_true). done.
    - intros Hin. exists (v1alpha1.SortLabel chart).
      split; [by apply list_elem_of_In|by apply bool_decide_eq_true]. }
  destruct (existsb _ byLabels) eqn:Hex; simpl.
  - split_and!.
    + by rewrite length_fmap.
    + intros _. split.
      * apply Forall_fmap, Forall_true. intros m. simpl. by repeat case_decide.
      * by destruct (negb _).
    + intros Hnot. by destruct Hnot; apply Hpresent.
  - split_and!.
    + by rewrite length_fmap.
    + intros Hin%Hpresent. done.
    + intros _. split_and!.
      * apply Forall_fmap, Forall_true. intros m. simpl. by repeat case_decide.
      * done.
      * by destruct (negb _).
      * intros labels. unfold model.convertLabels. simpl.
        assert (model.SortLabel
                  (if negb (SFeqb (v1alpha1.UnitScale chart) (S754_zero false))
                   then _ else _) = v1alpha1.SortLabel chart) as -> by by destruct (negb _).
        apply lookup_delete_eq.
Qed.

(** The chart sorted by version and grouped by app is queried with the
    grouping [app,version], and its converted labels hold no version. *)
Lemma sort_label_grouping_witness :
  (chartQueries Examples.query "{}" Examples.versionChart ["request_count"]).1
  = [FetchRange "request_count" "{}" "app,version" "sum"]
  ∧ model.RemoveSortLabel
      (chartQueries Examples.query "{}" Examples.versionChart ["request_count"]).2 = true
  ∧ ∀ labels,
      model.convertLabels
        (chartQueries Examples.query "{}" Examples.versionChart ["request_count"]).2 labels
      !! "version" = None.
Proof.
  destruct (sort_label_grouping Examples.query "{}" Examples.versionChart
              ["request_count"]) as (_ & _ & Habsent); [discriminate|].
  destruct Habsent as (_ & Hremove & _ & Hconvert).
  - change ("version" ∉ ["app"]). by intros [=]%list_elem_of_singleton.
  - split_and!; [vm_compute; reflexivity|exact Hremove|exact Hconvert].
Defined.

(** ** The runtime groupings *)

Lemma appendToRuntime_None runtime ref runtimes :
  appendToRuntime runtime ref runtimes = None ↔
  ∀ rt, rt ∈ runtimes → model.Name rt ≠ runtime.
Proof.
  induction runtimes as [|rtObj rest IH]; simpl.
  - split; [by intros _ rt ?%elem_of_nil|done].
  - case_decide as Hname.
    + split; [done|]. intros Hall. destruct (Hall rtObj); [by left|done].
    + rewrite fmap_None, IH. split.
      * intros Hall rt [->|Hrt]%elem_of_cons; auto.
      * intros Hall rt Hrt. apply Hall. by right.
Qed.

Lemma appendToRuntime_Some runtime ref runtimes runtimes' :
  appendToRuntime runtime ref runtimes = Some runtimes' →
  ∃ pre rtObj post,
    runtimes = pre ++ rtObj :: post
    ∧ (∀ rt, rt ∈ pre → model.Name rt ≠ runtime)
    ∧ model.Name rtObj = runtime
    ∧ runtimes' = pre ++ {| model.Name := model.Name rtObj;
                            model.DashboardRefs := model.DashboardRefs rtObj ++ [ref] |}
                        :: post.
Proof.
  revert runtimes'. induction runtimes as [|rtObj rest IH]; intros runtimes'; [done|].
  simpl. case_decide as Hname.
  - intros [= <-]. exists [], rtObj, rest. split_and!; [done| |done..].
    by intros rt ?%elem_of_nil.
  - destruct (appendToRuntime runtime ref rest) as [rest'|]; [|done].
    intros [= <-]. destruct (IH _ eq_refl) as (pre & rt0 & post & -> & Hpre & Hrt0 & ->).
    exists (rtObj :: pre), rt0, post. split_and!; [done| |done..].
    intros rt [->|Hrt]%elem_of_cons; auto.
Qed.

(** The two cases of [addDashboardToRuntimes]. *)
Lemma addDashboardToRuntimes_cases dashboard runtimes :
  ((∀ rt, rt ∈ runtimes → model.Name rt ≠ v1alpha1.Runtime (v1alpha1.Spec dashboard))
   ∧ addDashboardToRuntimes dashboard runtimes
     = runtimes ++ [{| model.Name := v1alpha1.Runtime (v1alpha1.Spec dashboard);
                       model.DashboardRefs := [dashboardRef dashboard] |}])
  ∨ (∃ pre rtObj post,
       runtimes = pre ++ rtObj :: post
       ∧ (∀ rt, rt ∈ pre → model.Name rt ≠ v1alpha1.Runtime (v1alpha1.Spec dashboard))
       ∧ model.Name rtObj = v1alpha1.Runtime (v1alpha1.Spec dashboard)
       ∧ addDashboardToRuntimes dashboard runtimes
         = pre ++ {| model.Name := model.Name rtObj;
                     model.DashboardRefs :=
                       model.DashboardRefs rtObj ++ [dashboardRef dashboard] |}
               :: post).
Proof.
  unfold addDashboardToRuntimes.
  destruct (appendToRuntime _ _ runtimes) as [runtimes'|] eqn:Happ.
  - right. apply appendToRuntime_Some in Happ as (pre & rtObj & post & H1 & H2 & H3 & H4).
    by exists pre, rtObj, post.
  - left. split; [|done].
    exact (proj1 (appendToRuntime_None _ _ _) Happ).
Qed.

Lemma addDashboardToRuntimes_names dashboard runtimes :
  NoDup (model.Name <$> runtimes) →
  NoDup (model.Name <$> addDashboardToRuntimes dashboard runtimes).
Proof.
  intros Hnd.
  destruct (addDashboardToRuntimes_cases dashboard runtimes)
    as [[Hnone ->]|(pre & rtObj & post & -> & _ & _ & ->)].
  - rewrite fmap_app. simpl. apply NoDup_app. split_and!; [done| |apply NoDup_singleton].
    intros name (rt & Hname & Hrt)%list_elem_of_fmap Heq%list_elem_of_singleton.
    eapply Hnone; [exact Hrt|congruence].
  - by rewrite fmap_app in *.
Qed.

Lemma addDashboardToRuntimes_refIn dashboard runtimes name ref :
  refIn (addDashboardToRuntimes dashboard runtimes) name ref ↔
  refIn runtimes name ref
  ∨ (name = v1alpha1.Runtime (v1alpha1.Spec dashboard) ∧ ref = dashboardRef dashboard).
Proof.
  unfold refIn.
  destruct (addDashboardToRuntimes_cases dashboard runtimes)
    as [[Hnone ->]|(pre & rtObj & post & -> & _ & HrtObj & ->)].
  - split.
    + intros (rt & Hrt & <- & Href). apply elem_of_app in Hrt as [Hrt|Hrt].
      * left. by exists rt.
      * right. apply list_elem_of_singleton in Hrt as ->. simpl in *.
        by apply list_elem_of_singleton in Href.
    + intros [(rt & Hrt & <- & Href)|[-> ->]].
      * exists rt. split; [apply elem_of_app; by left|done].
      * eexists. split; [apply elem_of_app; right; by apply list_elem_of_singleton|].
        split; [done|]. by apply list_elem_of_singleton.
  - split.
    + intros (rt & Hrt & <- & Href).
      apply elem_of_app in Hrt as [Hrt|Hrt]; [|apply elem_of_cons in Hrt as [->|Hrt]].
      * left. exists rt. split; [apply elem_of_app; by left|done].
      * simpl in *. apply elem_of_app in Href as [Href|Href].
        -- left. exists rtObj. split; [|done]. apply elem_of_app. right. by left.
        -- right. by apply list_elem_of_singleton in Href.
      * left. exists rt. split; [|done]. apply elem_of_app. right. by right.
    + intros [(rt & Hrt & <- & Href)|[-> ->]].
      * apply elem_of_app in Hrt as [Hrt|Hrt]; [|apply elem_of_cons in Hrt as [->|Hrt]].
        -- exists rt. split; [apply elem_of_app; by left|done].
        -- eexists. split; [apply elem_of_app; right; by left|]. simpl.
           split; [done|]. apply elem_of_app. by left.
        -- exists rt. split; [|done]. apply elem_of_app. right. by right.
      * eexists. split; [apply elem_of_app; right; by left|]. simpl.
        split; [done|]. apply elem_of_app. right. by apply list_elem_of_singleton.
Qed.

(** The second loop: the names of the groups are distinct, and a group holds
    a reference exactly when the map holds a dashboard of that runtime. *)
Lemma collectRuntimes_snoc order entry :
  collectRuntimes (order ++ [entry])
  = match entry.2 with
    | Some dashboard => addDashboardToRuntimes dashboard (collectRuntimes order)
    | None => collectRuntimes order
    end.
Proof. unfold collectRuntimes. by rewrite foldl_app. Qed.

Lemma collectRuntimes_names order : NoDup (model.Name <$> collectRuntimes order).
Proof.
  induction order as [|entry order IH] using rev_ind; [constructor|].
  rewrite collectRuntimes_snoc. destruct (entry.2); [|done].
  by apply addDashboardToRuntimes_names.
Qed.

Lemma collectRuntimes_refIn order name ref :
  refIn (collectRuntimes order) name ref ↔
  ∃ k dashboard, (k, Some dashboard) ∈ order
                 ∧ v1alpha1.Runtime (v1alpha1.Spec dashboard) = name
                 ∧ dashboardRef dashboard = ref.
Proof.
  induction order as [|[k0 o] order IH] using rev_ind.
  - split; [by intros (rt & ?%elem_of_nil & _)|by intros (k & d & ?%elem_of_nil & _)].
  - rewrite collectRuntimes_snoc. simpl. destruct o as [d0|].
    + rewrite addDashboardToRuntimes_refIn, IH. split.
      * intros [(k & d & Hin & Hd)|[-> ->]].
        -- exists k, d. split; [apply elem_of_app; by left|done].
        -- exists k0, d0. split; [|done]. apply elem_of_app. right.
           by apply list_elem_of_singleton.
      * intros (k & d & Hin & <- & <-). apply elem_of_app in Hin as [Hin|Hin].
        -- left. by exists k, d.
        -- right. apply list_elem_of_singleton in Hin. by injection Hin as -> ->.
    + rewrite IH. split.
      * intros (k & d & Hin & Hd). exists k, d. split; [apply elem_of_app; by left|done].
      * intros (k & d & Hin & Hd). apply elem_of_app in Hin as [Hin|Hin].
        -- by exists k, d.
        -- by apply list_elem_of_singleton in Hin.
Qed.

(** ** Sorting by runtime name *)

Lemma ltb_of_not_ltb (a b : string) :
  String.ltb b a ≠ true → a ≠ b → String.ltb a b = true.
Proof.
  unfold String.ltb. intros Hba Hne.
  rewrite String.compare_antisym in Hba.
  destruct (String.compare a b) eqn:Hc; [|done|done].
  by apply String.compare_eq_iff in Hc.
Qed.

Lemma not_ltb_of_le (a b : string) : String.le a b → String.ltb b a ≠ true.
Proof.
  unfold String.le, String.leb, String.ltb. rewrite (String.compare_antisym a b).
  by destruct (String.compare b a).
Qed.

Lemma StronglySorted_weaken {A} (R1 R2 : relation A) l :
  (∀ a b, R1 a b → R2 a b) → StronglySorted R1 l → StronglySorted R2 l.
Proof.
  intros HR. induction 1 as [|a l Hl IH Hall]; constructor; [done|].
  eapply Forall_impl; [exact Hall|]. intros b. apply HR.
Qed.

Lemma sortSliceStable_sortSlice runtimes : sortSlice runtimes (sortSliceStable runtimes).
Proof.
  unfold sortSlice, sortSliceStable.
  set (R := λ a b : model.Runtime, String.le (model.Name a) (model.Name b)).
  assert (Transitive R) by (intros a b c; unfold R; apply transitivity).
  assert (Total R) by (intros a b; unfold R; apply total, _).
  split; [by rewrite merge_sort_Permutation|].
  eapply StronglySorted_weaken; [|by apply (StronglySorted_merge_sort R)].
  intros a b Hab. by apply not_ltb_of_le.
Qed.

(** Sorted groups with distinct names are in strictly ascending order. *)
Lemma sortSlice_strict runtimes sorted :
  NoDup (model.Name <$> runtimes) →
  sortSlice runtimes sorted →
  StronglySorted (λ a b, String.ltb (model.Name a) (model.Name b) = true) sorted.
Proof.
  intros Hnd [Hperm Hsorted]. rewrite Hperm in Hnd. clear Hperm.
  induction Hsorted as [|a rest Hrest IH Hall]; [constructor|].
  apply NoDup_cons in Hnd as [Ha Hnd]. constructor; [by apply IH|].
  apply Forall_forall. intros b Hb.
  apply ltb_of_not_ltb; [by apply (proj1 (Forall_forall _ _) Hall)|].
  intros Heq. apply Ha. rewrite Heq. by apply list_elem_of_fmap_2.
Qed.

Lemma sortSlice_refIn runtimes sorted name ref :
  sortSlice runtimes sorted → refIn sorted name ref ↔ refIn runtimes name ref.
Proof.
  intros [Hperm _]. unfold refIn. by setoid_rewrite Hperm.
Qed.

(** The matcher always has an output: the one for the orders of [gmap]. *)
Lemma runDiscoveryMatcherIn_runDiscoveryMatcher metrics allDashboards :
  runDiscoveryMatcher metrics allDashboards (runDiscoveryMatcherIn metrics allDashboards).
Proof.
  exists (map_to_list allDashboards).*2,
         (map_to_list (matchDashboards metrics (map_to_list allDashboards).*2)).
  split_and!; [done..|]. apply sortSliceStable_sortSlice.
Qed.

Lemma runDiscoveryMatcher_refIn metrics allDashboards runtimes :
  runDiscoveryMatcher metrics allDashboards runtimes →
  ∃ order1,
    order1 ≡ₚ (map_to_list allDashboards).*2
    ∧ ∀ name ref,
        refIn runtimes name ref ↔
        ∃ k dashboard,
          matchDashboards metrics order1 !! k = Some (Some dashboard)
          ∧ v1alpha1.Runtime (v1alpha1.Spec dashboard) = name
          ∧ dashboardRef dashboard = ref.
Proof.
  intros (order1 & order2 & Horder1 & Horder2 & Hsort).
  exists order1. split; [done|]. intros name ref.
  rewrite (sortSlice_refIn _ _ _ _ Hsort), collectRuntimes_refIn.
  by setoid_rewrite Horder2; setoid_rewrite elem_of_map_to_list.
Qed.

(** ** C8: the runtime groupings of the discovery *)

(** C8. Whatever the orders in which the maps are visited, the output of the
    matcher is in strictly ascending order of runtime name; a group holds a
    reference exactly when the matcher kept a dashboard with that runtime,
    template name and title; and [addDashboardToRuntimes] either appends a
    new group, when no group has the runtime name of the dashboard, or
    appends the reference to the first group of that name and leaves the
    other groups as they are. *)
Theorem discovery_groups_sorted (metrics : list string)
    (allDashboards : gmap string MonitoringDashboard) (runtimes : list model.Runtime) :
  runDiscoveryMatcher metrics allDashboards runtimes →
  StronglySorted (λ a b, String.ltb (model.Name a) (model.Name b) = true) runtimes
  ∧ (∃ order1,
       order1 ≡ₚ (map_to_list allDashboards).*2
       ∧ ∀ name ref,
           refIn runtimes name ref ↔
           ∃ k dashboard,
             matchDashboards metrics order1 !! k = Some (Some dashboard)
             ∧ v1alpha1.Runtime (v1alpha1.Spec dashboard) = name
             ∧ dashboardRef dashboard = ref)
  ∧ (∀ dashboard runtimes0,
       ((∀ rt, rt ∈ runtimes0 →
               model.Name rt ≠ v1alpha1.Runtime (v1alpha1.Spec dashboard))
        ∧ addDashboardToRuntimes dashboard runtimes0
          = runtimes0 ++ [{| model.Name := v1alpha1.Runtime (v1alpha1.Spec dashboard);
                             model.DashboardRefs := [dashboardRef dashboard] |}])
       ∨ (∃ pre rtObj post,
            runtimes0 = pre ++ rtObj :: post
            ∧ (∀ rt, rt ∈ pre →
                     model.Name rt ≠ v1alpha1.Runtime (v1alpha1.Spec dashboard))
            ∧ model.Name rtObj = v1alpha1.Runtime (v1alpha1.Spec dashboard)
            ∧ addDashboardToRuntimes dashboard runtimes0
              = pre ++ {| model.Name := model.Name rtObj;
                          model.DashboardRefs :=
                            model.DashboardRefs rtObj ++ [dashboardRef dashboard] |}
                    :: post)).
Proof.
  intros Hrun. split_and!.
  - destruct Hrun as (order1 & order2 & Horder1 & Horder2 & Hsort).
    eapply sortSlice_strict; [|exact Hsort]. apply collectRuntimes_names.
  - by apply runDiscoveryMatcher_refIn.
  - apply addDashboardToRuntimes_cases.
Qed.

(** The groups of three runtimes come out in the order of their names. *)
Lemma discovery_groups_sorted_witness :
  StronglySorted (λ a b, String.ltb (model.Name a) (model.Name b) = true)
    (runDiscoveryMatcherIn ["m1"; "m2"] Examples.threeRuntimes).
Proof.
  exact (proj1 (discovery_groups_sorted ["m1"; "m2"] Examples.threeRuntimes
                  (runDiscoveryMatcherIn ["m1"; "m2"] Examples.threeRuntimes)
                  (runDiscoveryMatcherIn_runDiscoveryMatcher _ _))).
Defined.

Example threeRuntimes_run :
  runDiscoveryMatcherIn ["m1"; "m2"] Examples.threeRuntimes
  = [{| model.Name := "Alpha";
        model.DashboardRefs := [{| model.Template := "alpha"; model.Title := "alpha title" |};
                                {| model.Template := "beta"; model.Title := "beta title" |}] |};
     {| model.Name := "Zeta";
        model.DashboardRefs := [{| model.Template := "zulu"; model.Title := "zulu title" |}] |}].
Proof. vm_compute. reflexivity. Qed.

(** ** What the first loop of the matcher records *)

Lemma markIncluded_lookup items (runtimesMap : gmap string (option MonitoringDashboard)) k :
  foldl (λ runtimesMap item,
           if decide (v1alpha1.Include item ≠ "")
           then <[v1alpha1.Include item := None]> runtimesMap
           else runtimesMap) runtimesMap items !! k
  = if decide (k ∈ filter (λ k, k ≠ "") (v1alpha1.Include <$> items)) then Some None
    else runtimesMap !! k.
Proof.
  revert runtimesMap. induction items as [|item items IH]; intros runtimesMap.
  { simpl. done. }
  rewrite fmap_cons, filter_cons. cbn [foldl]. rewrite IH.
  destruct (decide (v1alpha1.Include item ≠ "")) as [Hinc|Hinc]; [|done].
  destruct (decide (k ∈ filter (λ k, k ≠ "") (v1alpha1.Include <$> items))) as [Hk|Hk].
  - rewrite decide_True; [done|]. by right.
  - destruct (decide (k = v1alpha1.Include item)) as [->|Hne].
    + rewrite decide_True by by left. apply lookup_insert_eq.
    + rewrite decide_False.
      * by apply lookup_insert_ne.
      * intros [?|?]%elem_of_cons; done.
Qed.

Lemma matchDashboard_lookup metrics runtimesMap dashboard k :
  matchDashboard metrics runtimesMap dashboard !! k
  = if discoveredOn metrics dashboard then
      if decide (k ∈ rawIncludes dashboard) then Some None
      else if decide (k = v1alpha1.DashboardName dashboard) then
        match runtimesMap !! k with
        | Some v => Some v
        | None => Some (Some dashboard)
        end
      else runtimesMap !! k
    else runtimesMap !! k.
Proof.
  unfold matchDashboard, discoveredOn. case_bool_decide as Href; simpl.
  2:{ rewrite decide_False; [done|]. by intros ?. }
  rewrite decide_True by done.
  destruct (existsb _ metrics); [|done].
  rewrite markIncluded_lookup. fold (rawIncludes dashboard).
  case_decide; [done|]. case_decide as Hk.
  - subst k. destruct (runtimesMap !! _) eqn:E; [done|]. apply lookup_insert_eq.
  - destruct (runtimesMap !! v1alpha1.DashboardName dashboard); [done|].
    by apply lookup_insert_ne.
Qed.

Lemma matchDashboards_snoc metrics order dashboard :
  matchDashboards metrics (order ++ [dashboard])
  = matchDashboard metrics (matchDashboards metrics order) dashboard.
Proof. unfold matchDashboards. by rewrite foldl_app. Qed.

Lemma suppressed_snoc metrics order dashboard k :
  suppressed metrics (order ++ [dashboard]) k ↔
  suppressed metrics order k
  ∨ (discoveredOn metrics dashboard = true ∧ k ∈ rawIncludes dashboard).
Proof.
  unfold suppressed. split.
  - intros (d & Hd & Hdisc & Hk). apply elem_of_app in Hd as [Hd|Hd].
    + left. by exists d.
    + right. by apply list_elem_of_singleton in Hd as ->.
  - intros [(d & Hd & Hdisc & Hk)|[Hdisc Hk]].
    + exists d. split; [apply elem_of_app; by left|done].
    + exists dashboard. split; [|done]. apply elem_of_app. right.
      by apply list_elem_of_singleton.
Qed.

(** Whatever the order of the visit: a key is nil exactly when a discovered
    dashboard has it as an [Include] field; and, the names of the dashboards
    being distinct, a key holds a dashboard exactly when it is not nil and
    is the name of that discovered dashboard. *)
Lemma matchDashboards_lookup metrics order :
  NoDup (v1alpha1.DashboardName <$> order) →
  ∀ k,
    (matchDashboards metrics order !! k = Some None ↔ suppressed metrics order k)
    ∧ (∀ d, matchDashboards metrics order !! k = Some (Some d) ↔
            ¬ suppressed metrics order k
            ∧ d ∈ order ∧ v1alpha1.DashboardName d = k
            ∧ discoveredOn metrics d = true).
Proof.
  induction order as [|x order IH] using rev_ind; intros Hnd k.
  { unfold matchDashboards. simpl. rewrite lookup_empty. split.
    - split; [done|]. by intros (d & ?%elem_of_nil & _).
    - intros d. split; [done|]. by intros (_ & ?%elem_of_nil & _). }
  rewrite fmap_app in Hnd. apply NoDup_app in Hnd as (Hnd & Hx & _).
  destruct (IH Hnd k) as [IHnil IHsome].
  rewrite matchDashboards_snoc, matchDashboard_lookup.
  assert (∀ d, d ∈ order ++ [x] ↔ d ∈ order ∨ d = x) as Hin.
  { intros d. rewrite elem_of_app, list_elem_of_singleton. done. }
  destruct (discoveredOn metrics x) eqn:Hdisc.
  2:{ split.
      - rewrite IHnil, suppressed_snoc. split; [by left|].
        intros [Hs|[Ht _]]; [done|congruence].
      - intros d. rewrite IHsome, suppressed_snoc, Hin. split.
        + intros (Hns & Hd & Hdname & Hddisc). split_and!; [|by left|done..].
          intros [Hs|[Ht _]]; [done|congruence].
        + intros (Hns & [Hd| ->] & Hdname & Hddisc); [|congruence].
          split_and!; [|done..]. intros Hs. apply Hns. by left. }
  case_decide as Hk.
  { split.
    - rewrite suppressed_snoc. split; [|done]. intros _. by right.
    - intros d. rewrite suppressed_snoc. split; [done|].
      intros (Hns & _). destruct Hns. by right. }
  case_decide as Hname.
  - assert (∀ d, d ∈ order → v1alpha1.DashboardName d ≠ k) as Hfresh.
    { intros d Hd Heq. apply (Hx k); [|subst k; by left].
      rewrite <- Heq. by apply list_elem_of_fmap_2. }
    destruct (matchDashboards metrics order !! k) as [[d0|]|] eqn:HM.
    + destruct (proj1 (IHsome d0) eq_refl) as (_ & Hd0 & Hname0 & _).
      by destruct (Hfresh d0).
    + pose proof (proj1 IHnil eq_refl) as Hs. split.
      * rewrite suppressed_snoc. split; [by left|done].
      * intros d. rewrite suppressed_snoc. split; [done|].
        intros (Hns & _). destruct Hns. by left.
    + assert (¬ suppressed metrics order k) as Hns by (by intros ?%IHnil).
      split.
      * rewrite suppressed_snoc. split; [done|]. intros [Hs|[_ Hs]]; done.
      * intros d. rewrite suppressed_snoc, Hin. split.
        -- intros [= <-]. split_and!; [|by right|done..].
           intros [Hs|[_ Hs]]; done.
        -- intros (_ & [Hd| ->] & Hdname & _); [by destruct (Hfresh d)|done].
  - split.
    + rewrite IHnil, suppressed_snoc. split; [by left|].
      intros [Hs|[_ Hs]]; done.
    + intros d. rewrite IHsome, suppressed_snoc, Hin. split.
      * intros (Hns & Hd & Hdname & Hddisc). split_and!; [|by left|done..].
        intros [Hs|[_ Hs]]; done.
      * intros (Hns & [Hd| ->] & Hdname & Hddisc); [|congruence].
        split_and!; [|done..]. intros Hs. apply Hns. by left.
Qed.

(** ** The discovery on maps keyed by template name *)

Lemma keyedByName_NoDup allDashboards order1 :
  keyedByName allDashboards →
  order1 ≡ₚ (map_to_list allDashboards).*2 →
  NoDup (v1alpha1.DashboardName <$> order1).
Proof.
  intros Hkeyed ->.
  replace (v1alpha1.DashboardName <$> (map_to_list allDashboards).*2)
    with (map_to_list allDashboards).*1; [apply NoDup_fst_map_to_list|].
  rewrite <- list_fmap_compose. apply list_fmap_ext.
  intros i [k d] Hkd%list_elem_of_lookup_2%elem_of_map_to_list. simpl.
  symmetry. by apply Hkeyed.
Qed.

Lemma loadRawDashboardResources_keyed in_ namespace allDashboards :
  loadRawDashboardResources in_ namespace = Ok allDashboards →
  keyedByName allDashboards.
Proof.
  assert (∀ ds (all : gmap string MonitoringDashboard),
            keyedByName all →
            keyedByName (foldl (λ all d, <[v1alpha1.DashboardName d := d]> all) all ds))
    as Hadd.
  { induction ds as [|d ds IH]; intros all Hall; [done|]. simpl. apply IH.
    intros k d' [[<- <-]|[_ Hk]]%lookup_insert_Some; [done|by apply Hall]. }
  assert (keyedByName ∅) as Hempty by (intros k d; by rewrite lookup_empty).
  unfold loadRawDashboardResources.
  destruct (decide (config.GlobalNamespace (config in_) ≠ "")).
  - destruct (k8sGetDashboards in_ (config.GlobalNamespace (config in_))) as [ds|e];
      [|done].
    destruct (decide (namespace ≠ config.GlobalNamespace (config in_))).
    + destruct (k8sGetDashboards in_ namespace) as [ds'|e]; [|done].
      intros [= <-]. by apply Hadd, Hadd.
    + intros [= <-]. by apply Hadd.
  - destruct (decide (namespace ≠ config.GlobalNamespace (config in_))).
    + destruct (k8sGetDashboards in_ namespace) as [ds'|e]; [|done].
      intros [= <-]. by apply Hadd.
    + by intros [= <-].
Qed.

(** On such a map the references of the output do not depend on the orders
    of the visits: a group holds the reference of a dashboard exactly when
    the dashboard is discovered and no discovered dashboard of the map has
    its name as an [Include] field. *)
Lemma runDiscoveryMatcher_keyed metrics allDashboards runtimes :
  keyedByName allDashboards →
  runDiscoveryMatcher metrics allDashboards runtimes →
  ∀ name ref,
    refIn runtimes name ref ↔
    ∃ d, d ∈ (map_to_list allDashboards).*2
         ∧ discoveredOn metrics d = true
         ∧ ¬ suppressed metrics (map_to_list allDashboards).*2 (v1alpha1.DashboardName d)
         ∧ v1alpha1.Runtime (v1alpha1.Spec d) = name
         ∧ dashboardRef d = ref.
Proof.
  intros Hkeyed (order1 & Horder1 & Hrefs)%runDiscoveryMatcher_refIn name ref.
  rewrite Hrefs.
  pose proof (matchDashboards_lookup metrics order1
                (keyedByName_NoDup _ _ Hkeyed Horder1)) as Hlookup.
  assert (∀ k, suppressed metrics order1 k
               ↔ suppressed metrics (map_to_list allDashboards).*2 k) as Hsup.
  { intros k. unfold suppressed. by setoid_rewrite Horder1. }
  split.
  - intros (k & d & (Hns & Hd & <- & Hdisc)%Hlookup & Hname & Href).
    exists d. rewrite <- Hsup, <- Horder1. done.
  - intros (d & Hd & Hdisc & Hns & Hname & Href).
    exists (v1alpha1.DashboardName d), d. split; [|done].
    apply Hlookup. rewrite Hsup, Horder1. done.
Qed.

(** ** C5: included dashboards in the discovery *)

(** What the loop does for the references it understands: when a discovered
    dashboard has an item whose [Include] field is the very name of a
    template, that template is not reported, whatever the orders of the
    visits and even if it is discovered itself. *)
Lemma included_by_name_suppressed metrics allDashboards runtimes parent item child :
  keyedByName allDashboards →
  runDiscoveryMatcher metrics allDashboards runtimes →
  parent ∈ (map_to_list allDashboards).*2 →
  discoveredOn metrics parent = true →
  item ∈ v1alpha1.Items (v1alpha1.Spec parent) →
  v1alpha1.Include item = v1alpha1.DashboardName child →
  v1alpha1.DashboardName child ≠ "" →
  child ∈ (map_to_list allDashboards).*2 →
  ∀ name ref,
    refIn runtimes name ref →
    ∃ d, d ∈ (map_to_list allDashboards).*2
         ∧ v1alpha1.DashboardName d ≠ v1alpha1.DashboardName child
         ∧ dashboardRef d = ref.
Proof.
  intros Hkeyed Hrun Hparent Hdisc Hitem Hinc Hne Hchild name ref Href.
  apply (runDiscoveryMatcher_keyed _ _ _ Hkeyed Hrun) in Href
    as (d & Hd & _ & Hns & _ & Hdref).
  exists d. split_and!; [done| |done].
  intros Heq. apply Hns. exists parent. split_and!; [done..|].
  unfold rawIncludes. apply list_elem_of_filter. split; [by rewrite Heq|].
  rewrite Heq, <- Hinc. by apply list_elem_of_fmap_2.
Qed.

(** The example of the specification: Parent includes Child by its name, both are
    discovered, and only Parent is reported. *)
Example parent_child_run runtimes :
  runDiscoveryMatcher ["m1"] Examples.parentChild runtimes →
  runtimes = [{| model.Name := "rt";
                 model.DashboardRefs :=
                   [{| model.Template := "Parent"; model.Title := "Parent title" |}] |}].
Proof.
  intros (order1 & order2 & Horder1 & Horder2 & [Hperm _]).
  assert (matchDashboards ["m1"] order1
          = <["Parent" := Some (Examples.dashboard "Parent" "rt" "m1"
                                  [Examples.inline "p1"; Examples.include "Child"])]>
              (<["Child" := None]> ∅)) as Hmap.
  { vm_compute in Horder1.
    apply Permutation_sym, Permutation_length_2_inv in Horder1 as [->| ->];
      vm_compute; reflexivity. }
  rewrite Hmap in Horder2. vm_compute in Horder2.
  apply Permutation_sym, Permutation_length_2_inv in Horder2 as [->| ->];
    vm_compute in Hperm; by apply Permutation_singleton_l in Hperm.
Qed.

(** C5. The loop uses the [Include] field as it is written as the key to
    suppress, while the resolver trims it and cuts it at the dollar sign:
    when Parent includes one chart of Child, the key [Child$ChartX] is
    suppressed and Child, which is discovered as well, is reported as a
    dashboard of its own, whatever the orders of the visits. *)
Theorem scoped_include_child_reported :
  runDiscoveryMatcherIn ["m1"] Examples.parentScopedChild
  = [{| model.Name := "rt";
        model.DashboardRefs :=
          [{| model.Template := "Child"; model.Title := "Child title" |};
           {| model.Template := "Parent"; model.Title := "Parent title" |}] |}]
  ∧ includeTarget (Examples.include "Child$ChartX") = Some "Child"
  ∧ ∀ runtimes,
      runDiscoveryMatcher ["m1"] Examples.parentScopedChild runtimes →
      refIn runtimes "rt" {| model.Template := "Child"; model.Title := "Child title" |}.
Proof.
  split_and!; [vm_compute; reflexivity..|].
  intros runtimes Hrun.
  assert (keyedByName Examples.parentScopedChild) as Hkeyed.
  { intros k d Hkd. apply elem_of_map_to_list in Hkd. vm_compute in Hkd.
    repeat (apply elem_of_cons in Hkd as [[= -> ->]|Hkd]); try done.
    by apply elem_of_nil in Hkd. }
  apply (runDiscoveryMatcher_keyed _ _ _ Hkeyed Hrun).
  exists (Examples.dashboard "Child" "rt" "m1" [Examples.inline "ChartX"]).
  split_and!; [|done| |done..].
  - vm_compute. set_solver.
  - intros (d & Hd & _ & Hk). vm_compute in Hd.
    repeat (apply elem_of_cons in Hd as [->|Hd]); [..|by apply elem_of_nil in Hd];
      vm_compute in Hk.
    + by apply elem_of_nil in Hk.
    + by apply list_elem_of_singleton in Hk.
Qed.

(** The same happens for a reference to the whole of Child that is written
    with a blank before the name: the resolver trims it, the matcher does
    not. *)
Example spaced_include_child_reported :
  includeTarget (Examples.include " Child") = Some "Child"
  ∧ runDiscoveryMatcherIn ["m1"] Examples.parentSpacedChild
    = [{| model.Name := "rt";
          model.DashboardRefs :=
            [{| model.Template := "Child"; model.Title := "Child title" |};
             {| model.Template := "Parent"; model.Title := "Parent title" |}] |}].
Proof. split; vm_compute; reflexivity. Qed.

(** ** C6: the failures of the discovery *)

Lemma buildLabels_total in_ namespace labelsFilters :
  ∃ labels, buildLabels in_ namespace labelsFilters labels.
Proof. eexists. by exists (map_to_list labelsFilters). Qed.

Lemma matchDashboards_no_metrics order : matchDashboards [] order = ∅.
Proof.
  unfold matchDashboards. generalize (∅ : gmap string (option MonitoringDashboard)).
  induction order as [|d order IH]; intros m; [done|]. simpl. rewrite IH.
  unfold matchDashboard. by case_decide.
Qed.

Lemma runDiscoveryMatcher_no_metrics allDashboards runtimes :
  runDiscoveryMatcher [] allDashboards runtimes ↔ runtimes = [].
Proof.
  split.
  - intros (order1 & order2 & _ & Horder2 & [Hperm _]).
    rewrite matchDashboards_no_metrics, map_to_list_empty in Horder2.
    apply Permutation_nil_r in Horder2 as ->. by apply Permutation_nil_l in Hperm.
  - intros ->. exists (map_to_list allDashboards).*2, []. split_and!; [done| |].
    + by rewrite matchDashboards_no_metrics, map_to_list_empty.
    + split; [done|constructor].
Qed.

Lemma fetchMetricNames_fails in_ namespace labelsFilters metrics :
  metricsFetchFails in_ →
  fetchMetricNames in_ namespace labelsFilters metrics ↔ metrics = [].
Proof.
  unfold metricsFetchFails, fetchMetricNames, fetchMetricNamesWith.
  destruct (buildLabels_total in_ namespace labelsFilters) as [labels0 Hlabels0].
  destruct (prom in_) as [client|e]; intros Hfail.
  - split.
    + intros (labels & _ & ->). destruct (Hfail [labels]) as [err ->]. done.
    + intros ->. exists labels0. split; [done|].
      destruct (Hfail [labels0]) as [err ->]. done.
  - split; [by intros (labels & _ & ->)|]. intros ->. by exists labels0.
Qed.

(** C6 (amended). When the templates cannot be loaded the discovery stops
    and returns the empty list: its result has no error to report the
    failure with. When the metric names cannot be fetched the discovery goes
    on with the empty list of metrics, on which the matcher finds nothing,
    so that it returns the empty list as well. *)
Theorem discovery_failure_policy (in_ : DashboardsService) (namespace : string)
    (labelsFilters : gmap string string) :
  (∀ err, loadRawDashboardResources in_ namespace = Err err →
          ∀ runtimes,
            DiscoverDashboards in_ namespace labelsFilters runtimes ↔ runtimes = [])
  ∧ (∀ allDashboards,
       loadRawDashboardResources in_ namespace = Ok allDashboards →
       metricsFetchFails in_ →
       (∀ metrics, fetchMetricNames in_ namespace labelsFilters metrics ↔ metrics = [])
       ∧ (∀ runtimes, runDiscoveryMatcher [] allDashboards runtimes ↔ runtimes = [])
       ∧ (∀ runtimes,
            DiscoverDashboards in_ namespace labelsFilters runtimes ↔ runtimes = [])).
Proof.
  unfold DiscoverDashboards. split.
  - by intros err ->.
  - intros allDashboards -> Hfail.
    pose proof (fetchMetricNames_fails in_ namespace labelsFilters) as Hfetch.
    split_and!.
    + intros metrics. by apply Hfetch.
    + apply runDiscoveryMatcher_no_metrics.
    + intros runtimes. split.
      * intros (metrics & Hm & Hrun). apply Hfetch in Hm; [|done]. subst metrics.
        by apply runDiscoveryMatcher_no_metrics in Hrun.
      * intros ->. exists []. split; [by apply Hfetch|].
        by apply runDiscoveryMatcher_no_metrics.
Qed.

(** Without a cluster client, and with a metrics backend that answers with
    an error, the discovery returns the empty list. *)
Lemma discovery_failure_policy_witness :
  (∀ runtimes, DiscoverDashboards Examples.noCluster "ns" ∅ runtimes ↔ runtimes = [])
  ∧ (∀ runtimes, DiscoverDashboards Examples.backendDown "ns" ∅ runtimes ↔ runtimes = []).
Proof.
  split.
  - apply (proj1 (discovery_failure_policy Examples.noCluster "ns" ∅)
             "cannot initialize Kubernetes Client: no kubeconfig").
    reflexivity.
  - eapply (proj2 (discovery_failure_policy Examples.backendDown "ns" ∅)).
    + reflexivity.
    + intros labels. by eexists.
Defined.

(** The contract as it is written does not hold: when the cluster client
    cannot be created the templates cannot be loaded, and the discovery returns the
    empty list, which is not the error that the contract asks for. *)
Lemma discovery_load_failure_counterexample :
  loadRawDashboardResources Examples.noCluster "ns"
  = Err "cannot initialize Kubernetes Client: no kubeconfig"
  ∧ DiscoverDashboards Examples.noCluster "ns" ∅ []
  ∧ ∀ runtimes,
      DiscoverDashboards Examples.noCluster "ns" ∅ runtimes →
      ¬ discoverContract Examples.noCluster "ns" ∅ (Ok runtimes).
Proof.
  split_and!; [done..|].
  intros runtimes _ Hcontract. unfold discoverContract in Hcontract.
  change (loadRawDashboardResources Examples.noCluster "ns")
    with (Err "cannot initialize Kubernetes Client: no kubeconfig"
            : result (gmap string MonitoringDashboard)) in Hcontract.
  by destruct Hcontract as [err [=]].
Qed.

(** * Further properties of the resolver *)

Section ResolverSuccess.

Context (in_ : DashboardsService) (namespace : string).

Abbreviation lr fuel := (loadAndResolveDashboardResource fuel in_ namespace).
Abbreviation edge := (includes in_ namespace).
Abbreviation edgeAt := (includesAt in_ namespace).
Abbreviation loadRaw := (loadRawDashboardResource in_ namespace).

(** A call that returns has its template in the map it leaves. *)
Lemma lr_records fuel t L L' r : lr fuel t L = Some (L', r) → is_Some (L' !! t).
Proof.
  destruct fuel as [|fuel]; [done|]. rewrite lr_S.
  case_decide as Ht; [by intros [= <- _]|].
  intros Hrun.
  assert (<[t := true]> L ⊆ L') as Hsub.
  { destruct (loadRaw t) as [d|e]; [|by injection Hrun as <- _].
    destruct (resolveItems _ _ _ _) as [[L1 [res|e]]|] eqn:Hres; [| |done].
    - injection Hrun as <- _.
      by eapply (resolveItems_mono _ (lr_mono in_ namespace fuel)).
    - injection Hrun as <- _.
      by eapply (resolveItems_mono _ (lr_mono in_ namespace fuel)). }
  exists true. eapply lookup_weaken; [|exact Hsub]. apply lookup_insert_eq.
Qed.

(** The names that a successful call adds can be reached from its template,
    and each of them was loaded. *)
Lemma resolveItems_fresh rec :
  (∀ t L L' r, rec t L = Some (L', r) → L ⊆ L') →
  (∀ t L L' d, rec t L = Some (L', Ok d) →
     ∀ a, a ∈ fresh L L' → rtc edge t a ∧ ∃ da, loadRaw a = Ok da) →
  ∀ items L resolved L' resolved',
    resolveItems rec items L resolved = Some (L', Ok resolved') →
    ∀ a, a ∈ fresh L L' →
         (∃ b, b ∈ includeTargets items ∧ rtc edge b a) ∧ ∃ da, loadRaw a = Ok da.
Proof.
  intros Hmono Hrec. induction items as [|item items IH]; intros L resolved L' resolved'.
  { simpl. intros [= <- _] a. unfold fresh. set_solver. }
  rewrite resolveItems_cons. destruct (includeTarget item) as [b|] eqn:Hitem.
  2:{ rewrite (includeTargets_cons_inline _ _ Hitem). apply IH. }
  rewrite (includeTargets_cons_include _ _ _ Hitem).
  destruct (rec b L) as [[L1 [c|e]]|] eqn:Hb; [|done..].
  intros Hrest a Ha.
  pose proof (Hmono _ _ _ _ Hb) as HL1.
  pose proof (resolveItems_mono _ Hmono _ _ _ _ _ Hrest) as HL'.
  apply (fresh_split L L1 L' a HL1 HL') in Ha as [Ha|Ha].
  - destruct (Hrec _ _ _ _ Hb a Ha) as [Hreach Hload]. split; [|done].
    exists b. split; [by left|done].
  - destruct (IH _ _ _ _ Hrest a Ha) as [(b' & Hb' & Hreach) Hload]. split; [|done].
    exists b'. split; [by right|done].
Qed.

Lemma lr_fresh fuel t L L' d :
  lr fuel t L = Some (L', Ok d) →
  ∀ a, a ∈ fresh L L' → rtc edge t a ∧ ∃ da, loadRaw a = Ok da.
Proof.
  revert t L L' d. induction fuel as [|fuel IH]; intros t L L' d'; [done|].
  rewrite lr_S. case_decide as Ht; [done|].
  destruct (loadRaw t) as [d|e] eqn:Hd; [|done].
  destruct (resolveItems _ _ _ _) as [[L1 [res|e]]|] eqn:Hres; [|done..].
  intros [= <- _] a Ha.
  assert (L !! t = None) as Hnew.
  { destruct (L !! t) eqn:E; [|done]. by destruct Ht. }
  pose proof (resolveItems_mono _ (lr_mono in_ namespace fuel) _ _ _ _ _ Hres) as HL1.
  destruct (decide (a = t)) as [->|Hne].
  { split; [constructor|by exists d]. }
  assert (a ∈ fresh (<[t := true]> L) L1) as Ha'.
  { revert Ha. unfold fresh. rewrite dom_insert_L. set_solver. }
  destruct (resolveItems_fresh _ (lr_mono in_ namespace fuel) IH _ _ _ _ _ Hres a Ha')
    as [(b & Hb & Hreach) Hload].
  split; [|done]. econstructor; [|exact Hreach].
  by apply (includes_targets _ _ _ _ _ Hd).
Qed.

(** *** The graph below a template of a tree *)

Lemma treeFrom_not_back t k b :
  treeFrom in_ namespace t → edgeAt t k b → ¬ rtc edge b t.
Proof.
  intros (_ & Hroot & _) Hk Hbt.
  apply rtc_inv_r in Hbt as [->|(a & Hba & Hat)].
  - apply (Hroot t); [constructor|by exists k].
  - apply (Hroot a); [|done]. econstructor; [by exists k|done].
Qed.

Lemma treeFrom_child t k b :
  treeFrom in_ namespace t → edgeAt t k b → treeFrom in_ namespace b.
Proof.
  intros Htree Hk. pose proof (treeFrom_not_back _ _ _ Htree Hk) as Hback.
  destruct Htree as (Hclosed & Hroot & Huniq).
  assert (∀ n, rtc edge b n → rtc edge t n) as Hsub.
  { intros n Hn. econstructor; [by exists k|done]. }
  split_and!.
  - intros n Hn. by apply Hclosed, Hsub.
  - intros a Ha [i Hi].
    destruct (Huniq a t i k b) as [-> _]; [by apply Hsub|constructor|done..|].
    by apply Hback.
  - intros a a' i i' b' Ha Ha'. apply Huniq; by apply Hsub.
Qed.

Lemma treeFrom_disjoint t j k b b' n :
  treeFrom in_ namespace t → edgeAt t j b → edgeAt t k b' → j ≠ k →
  rtc edge b n → rtc edge b' n → False.
Proof.
  intros Htree Hj Hk Hjk Hbn.
  pose proof (treeFrom_not_back _ _ _ Htree Hj) as Hback.
  pose proof (treeFrom_not_back _ _ _ Htree Hk) as Hback'.
  assert (∀ m, rtc edge b m → rtc edge t m) as Hsub.
  { intros m Hm. econstructor; [by exists j|done]. }
  assert (∀ m, rtc edge b' m → rtc edge t m) as Hsub'.
  { intros m Hm. econstructor; [by exists k|done]. }
  destruct Htree as (Hclosed & Hroot & Huniq).
  revert n Hbn. apply (rtc_ind_r (λ n, rtc edge b' n → False)).
  - intros [->|(a & Hb'a & [i Hab])]%rtc_inv_r.
    + by destruct (Huniq t t j k b) as [_ ?]; [constructor..|done|done|].
    + destruct (Huniq a t i j b) as [-> _]; [by apply Hsub'|constructor|done..|].
      by apply Hback'.
  - intros y z Hby [i Hyz] IH.
    intros [<-|(a & Hb'a & [i' Haz])]%rtc_inv_r.
    + destruct (Huniq y t i k b') as [-> _]; [by apply Hsub|constructor|done..|].
      by apply Hback.
    + destruct (Huniq y a i i' z) as [-> _]; [by apply Hsub|by apply Hsub'|done..|].
      by apply IH.
Qed.

(** *** A tree is resolved *)

Lemma resolveItems_succeeds (names : gset string) fuel t d (L1 : gmap string bool) :
  treeFrom in_ namespace t →
  loadRaw t = Ok d →
  is_Some (L1 !! t) →
  (∀ n, rtc edge t n → n ≠ t → L1 !! n = None) →
  (∀ b (L : gmap string bool),
     treeFrom in_ namespace b → (∀ n, rtc edge b n → L !! n = None) →
     size (names ∖ dom L) < fuel →
     ∃ L' d', lr fuel b L = Some (L', Ok d')
              ∧ ∀ n, is_Some (L' !! n) ↔ is_Some (L !! n) ∨ rtc edge b n) →
  ∀ items pre (L : gmap string bool) resolved,
    includeTargets (v1alpha1.Items (v1alpha1.Spec d)) = pre ++ includeTargets items →
    (∀ n, is_Some (L !! n) ↔ is_Some (L1 !! n) ∨ ∃ b, b ∈ pre ∧ rtc edge b n) →
    size (names ∖ dom L) < fuel →
    ∃ L' res,
      resolveItems (lr fuel) items L resolved = Some (L', Ok res)
      ∧ ∀ n, is_Some (L' !! n) ↔
             is_Some (L1 !! n)
             ∨ ∃ b, b ∈ includeTargets (v1alpha1.Items (v1alpha1.Spec d)) ∧ rtc edge b n.
Proof.
  intros Htree Hd Ht1 HL1 Hrec.
  induction items as [|item items IH]; intros pre L resolved Hpre Hinv Hsize.
  { exists L, resolved. split; [done|]. intros n. rewrite Hinv, Hpre.
    unfold includeTargets. simpl. by rewrite app_nil_r. }
  rewrite resolveItems_cons. destruct (includeTarget item) as [b|] eqn:Hitem.
  2:{ rewrite (includeTargets_cons_inline _ _ Hitem) in Hpre. by apply (IH pre). }
  rewrite (includeTargets_cons_include _ _ _ Hitem) in Hpre.
  assert (edgeAt t (length pre) b) as Hk.
  { apply (includesAt_targets _ _ _ _ _ _ Hd). rewrite Hpre. apply list_lookup_middle. done. }
  assert (∀ n, rtc edge b n → L !! n = None) as Hnew.
  { intros n Hbn. apply eq_None_not_Some. intros [Hn|(b' & Hb' & Hb'n)]%Hinv.
    - destruct (decide (n = t)) as [->|Hne].
      + by apply (treeFrom_not_back _ _ _ Htree Hk).
      + assert (L1 !! n = None) as Hnone.
        { apply HL1; [|done]. econstructor; [by exists (length pre)|done]. }
        rewrite Hnone in Hn. by destruct Hn.
    - apply list_elem_of_lookup in Hb' as [j Hj].
      apply (treeFrom_disjoint t j (length pre) b' b n Htree); [|done| |done..].
      + apply (includesAt_targets _ _ _ _ _ _ Hd). rewrite Hpre.
        rewrite lookup_app_l; [done|]. by eapply lookup_lt_Some.
      + apply lookup_lt_Some in Hj. lia. }
  destruct (Hrec b L (treeFrom_child _ _ _ Htree Hk) Hnew Hsize) as (L2 & d2 & -> & HL2).
  apply (IH (pre ++ [b])).
  - by rewrite <- app_assoc.
  - intros n. rewrite HL2, Hinv. split.
    + intros [[Hn|(b' & Hb' & Hb'n)]|Hbn]; [by left| |].
      * right. exists b'. split; [apply elem_of_app; by left|done].
      * right. exists b. split; [|done]. apply elem_of_app. right.
        by apply list_elem_of_singleton.
    + intros [Hn|(b' & Hb' & Hb'n)]; [by left; left|].
      apply elem_of_app in Hb' as [Hb'|Hb'].
      * left. right. by exists b'.
      * right. by apply list_elem_of_singleton in Hb' as ->.
  - eapply Nat.le_lt_trans; [|exact Hsize]. apply subseteq_size.
    assert (dom L ⊆ dom L2) as Hdom.
    { intros n Hn%elem_of_dom. apply elem_of_dom, HL2. by left. }
    set_solver.
Qed.

Lemma lr_succeeds (names : gset string) :
  (∀ n d, loadRaw n = Ok d → n ∈ names) →
  ∀ fuel t (L : gmap string bool),
    treeFrom in_ namespace t →
    (∀ n, rtc edge t n → L !! n = None) →
    size (names ∖ dom L) < fuel →
    ∃ L' d', lr fuel t L = Some (L', Ok d')
             ∧ ∀ n, is_Some (L' !! n) ↔ is_Some (L !! n) ∨ rtc edge t n.
Proof.
  intros Hnames. induction fuel as [|fuel IH]; intros t L Htree Hnew Hsize; [lia|].
  assert (L !! t = None) as Ht by (apply Hnew; constructor).
  rewrite lr_S. rewrite decide_False by (rewrite Ht; by intros []).
  destruct (proj1 Htree t) as [d Hd]; [constructor|]. rewrite Hd.
  destruct (resolveItems_succeeds names fuel t d (<[t := true]> L) Htree Hd)
    with (items := v1alpha1.Items (v1alpha1.Spec d)) (pre := @nil string)
         (L := <[t := true]> L) (resolved := @nil MonitoringDashboardItem)
    as (L' & res & -> & HL').
  - rewrite lookup_insert_eq. by eexists.
  - intros n Hn Hne. rewrite lookup_insert_ne by done. by apply Hnew.
  - exact IH.
  - done.
  - intros n. split; [by left|]. intros [?|(b & ?%elem_of_nil & _)]; done.
  - assert (names ∖ dom (<[t := true]> L) ⊂ names ∖ dom L) as Hlt%subset_size; [|lia].
    rewrite dom_insert_L. apply Hnames in Hd.
    assert (t ∉ dom L) by (by apply not_elem_of_dom).
    set_solver.
  - eexists _, _. split; [done|]. intros n. rewrite HL'. split.
    + intros [Hn|(b & Hb & Hbn)].
      * destruct (decide (n = t)) as [->|Hne]; [right; constructor|left].
        by rewrite lookup_insert_ne in Hn.
      * right. econstructor; [|exact Hbn]. by apply (includes_targets _ _ _ _ _ Hd).
    + intros [Hn|Hn].
      * left. destruct (decide (n = t)) as [->|Hne]; [by rewrite Ht in Hn; destruct Hn|].
        by rewrite lookup_insert_ne.
      * apply rtc_inv in Hn as [<-|(b & Hb & Hbn)].
        -- left. rewrite lookup_insert_eq. by eexists.
        -- right. exists b. split; [|done]. by apply (includes_targets _ _ _ _ _ Hd).
Qed.

End ResolverSuccess.

(** X1. The resolution always returns: in a cluster with finitely many
    templates, whatever the template and the [loaded] map, a fuel above the
    number of templates that are not loaded yet gives a result, and more fuel
    gives the same result. *)
Theorem resolution_terminates (in_ : DashboardsService) (namespace : string)
    (names : gset string) (fuel : nat) (t : string) (L : gmap string bool) :
  (∀ n d, loadRawDashboardResource in_ namespace n = Ok d → n ∈ names) →
  size (names ∖ dom L) < fuel →
  ∃ L' r,
    L ⊆ L'
    ∧ ∀ fuel', fuel ≤ fuel' →
        loadAndResolveDashboardResource fuel' in_ namespace t L = Some (L', r).
Proof.
  intros Hfin Hfuel.
  destruct (lr_terminates in_ namespace names Hfin fuel t L Hfuel) as [[L' r] Hrun].
  exists L', r. split; [by eapply lr_mono|].
  intros fuel' Hle. by eapply lr_fuel.
Qed.

Lemma resolution_terminates_witness :
  ∃ L' r,
    (∅ : gmap string bool) ⊆ L'
    ∧ ∀ fuel', 5 ≤ fuel' →
        loadAndResolveDashboardResource fuel' (Examples.service Examples.diamond "") "ns" "A" ∅
        = Some (L', r).
Proof.
  apply (resolution_terminates _ _ (storeNames Examples.diamond "ns" "")).
  - apply storeNames_finite.
  - vm_compute. lia.
Defined.

(** X2. A resolution fails in two ways only: with the circular dependency
    error for a template that is in the [loaded] map the run leaves, or with
    the error of the lookup of a template that can be reached from the
    requested one through Include references. *)
Theorem resolution_error_kinds (in_ : DashboardsService) (namespace : string)
    (fuel : nat) (t : string) (L L' : gmap string bool) (e : error) :
  loadAndResolveDashboardResource fuel in_ namespace t L = Some (L', Err e) →
  (∃ D, is_Some (L' !! D) ∧ e = circularDependencyError D L')
  ∨ (∃ n, rtc (includes in_ namespace) t n
          ∧ loadRawDashboardResource in_ namespace n = Err e).
Proof. apply lr_error. Qed.

Lemma resolution_error_kinds_witness :
  (∃ D, is_Some ((<["Missing" := true]> (<["A" := true]> ∅) : gmap string bool) !! D)
        ∧ "monitoringdashboards Missing not found"
          = circularDependencyError D (<["Missing" := true]> (<["A" := true]> ∅)))
  ∨ (∃ n, rtc (includes (Examples.service Examples.danglingCycle "") "ns") "A" n
          ∧ loadRawDashboardResource (Examples.service Examples.danglingCycle "") "ns" n
            = Err "monitoringdashboards Missing not found").
Proof.
  apply (resolution_error_kinds (Examples.service Examples.danglingCycle "") "ns" 3 "A" ∅).
  vm_compute. reflexivity.
Defined.

(** X3. From the empty [loaded] map, as [GetDashboard] starts it, the
    resolution of a template succeeds exactly when the Include references
    that can be reached from it form a tree: every reference names a
    template that the lookup finds, none leads back to the requested
    template, and no template is referred to twice. *)
Theorem resolution_succeeds_iff_tree (in_ : DashboardsService) (namespace : string)
    (names : gset string) (fuel : nat) (t : string) :
  (∀ n d, loadRawDashboardResource in_ namespace n = Ok d → n ∈ names) →
  size names < fuel →
  (∃ L' d, loadAndResolveDashboardResource fuel in_ namespace t ∅ = Some (L', Ok d))
  ↔ treeFrom in_ namespace t.
Proof.
  intros Hfin Hfuel. split.
  - intros (L' & d & Hrun).
    destruct (lr_tree in_ namespace fuel _ _ _ _ Hrun) as (_ & Ht & Htree & Hroot).
    assert (∀ a, rtc (includes in_ namespace) t a → a ∈ fresh ∅ L') as Hin.
    { intros a Ha. by eapply treeLike_closed_rtc. }
    split_and!.
    + intros n Hn. by apply (lr_fresh in_ namespace _ _ _ _ _ Hrun n), Hin.
    + intros a Ha. by apply Hroot, Hin.
    + intros a a' i i' b Ha Ha'. apply (tl_unique _ _ _ Htree); by apply Hin.
  - intros Htree.
    destruct (lr_succeeds in_ namespace names Hfin fuel t ∅ Htree) as (L' & d & Hrun & _).
    + intros n _. apply lookup_empty.
    + by rewrite dom_empty_L, difference_empty_L.
    + by exists L', d.
Qed.

Lemma resolution_succeeds_iff_tree_witness :
  treeFrom (Examples.service Examples.whole3 "") "ns" "A"
  ∧ ¬ treeFrom (Examples.service Examples.diamond "") "ns" "A".
Proof.
  split.
  - apply (resolution_succeeds_iff_tree _ _ (storeNames Examples.whole3 "ns" "") 3).
    + apply storeNames_finite.
    + vm_compute. lia.
    + eexists _, _. vm_compute. reflexivity.
  - intros Htree.
    apply (resolution_succeeds_iff_tree _ _ (storeNames Examples.diamond "ns" "") 5) in Htree
      as (L' & d & Hrun).
    + vm_compute in Hrun. discriminate.
    + apply storeNames_finite.
    + vm_compute. lia.
Defined.

(** X4. After a successful resolution the [loaded] map holds, beside what it
    held before, exactly the templates that can be reached from the resolved
    one, and each of them is a template that the lookup finds. *)
Theorem resolved_loaded_reachable (in_ : DashboardsService) (namespace : string)
    (fuel : nat) (t : string) (L L' : gmap string bool) (d : MonitoringDashboard) :
  loadAndResolveDashboardResource fuel in_ namespace t L = Some (L', Ok d) →
  L !! t = None
  ∧ (∀ n, is_Some (L' !! n) ↔ is_Some (L !! n) ∨ rtc (includes in_ namespace) t n)
  ∧ (∀ n, rtc (includes in_ namespace) t n →
          L !! n = None ∧ ∃ dn, loadRawDashboardResource in_ namespace n = Ok dn).
Proof.
  intros Hrun.
  destruct (lr_tree in_ namespace fuel _ _ _ _ Hrun) as (Hnew & Ht & Htree & _).
  pose proof (lr_mono in_ namespace _ _ _ _ _ Hrun) as Hmono.
  assert (∀ a, rtc (includes in_ namespace) t a → a ∈ fresh L L') as Hin.
  { intros a Ha. by eapply treeLike_closed_rtc. }
  split_and!; [done| |].
  - intros n. rewrite <- !elem_of_dom. split.
    + intros Hn. destruct (decide (n ∈ dom L)); [by left|right].
      apply (lr_fresh in_ namespace _ _ _ _ _ Hrun n). unfold fresh. set_solver.
    + intros [Hn|Hn%Hin].
      * by apply (subseteq_dom _ _ Hmono).
      * unfold fresh in Hn. set_solver.
  - intros n Hn%Hin. split.
    + apply not_elem_of_dom. unfold fresh in Hn. set_solver.
    + by apply (lr_fresh in_ namespace _ _ _ _ _ Hrun n).
Qed.

Lemma resolved_loaded_reachable_witness :
  (∅ : gmap string bool) !! "A" = None
  ∧ (∀ n, is_Some ((<["B" := true]> (<["A" := true]> ∅) : gmap string bool) !! n) ↔
          is_Some ((∅ : gmap string bool) !! n)
          ∨ rtc (includes (Examples.service Examples.whole3 "") "ns") "A" n)
  ∧ (∀ n, rtc (includes (Examples.service Examples.whole3 "") "ns") "A" n →
          (∅ : gmap string bool) !! n = None
          ∧ ∃ dn, loadRawDashboardResource (Examples.service Examples.whole3 "") "ns" n
                  = Ok dn).
Proof.
  apply (resolved_loaded_reachable (Examples.service Examples.whole3 "") "ns" 2 "A" ∅
           (<["B" := true]> (<["A" := true]> ∅))
           (Examples.dashboard "A" "rt" ""
              [Examples.inline "a1"; Examples.inline "b1"; Examples.inline "b2";
               Examples.inline "a3"])).
  vm_compute. reflexivity.
Defined.

(** X5. A [loaded] map cannot be used again: whatever a resolution of a
    template returned, a second resolution of the same template from the map
    that the first one left fails with the circular dependency error and
    leaves the map as it is. *)
Theorem loaded_reuse_fails (in_ : DashboardsService) (namespace : string)
    (fuel fuel' : nat) (t : string) (L L' : gmap string bool)
    (r : result MonitoringDashboard) :
  loadAndResolveDashboardResource fuel in_ namespace t L = Some (L', r) →
  loadAndResolveDashboardResource (S fuel') in_ namespace t L'
  = Some (L', Err (circularDependencyError t L')).
Proof.
  intros Hrun%lr_records. rewrite lr_S. by rewrite decide_True.
Qed.

Lemma loaded_reuse_fails_witness :
  loadAndResolveDashboardResource 1 (Examples.service Examples.tiers "global") "ns" "T"
    (<["T" := true]> ∅)
  = Some (<["T" := true]> ∅, Err (circularDependencyError "T" (<["T" := true]> ∅))).
Proof.
  apply (loaded_reuse_fails (Examples.service Examples.tiers "global") "ns" 1 0 "T" ∅ _
           (Ok (Examples.dashboard "T" "specific" "" [Examples.inline "t1"]))).
  vm_compute. reflexivity.
Defined.

(** X6. A template without references is returned as it is stored: when
    every [Include] field is empty or blank, the resolution of a template
    that is not loaded yet succeeds with one unit of fuel, returns the stored
    template, its blank fields untouched, and adds its name only to the
    [loaded] map. *)
Theorem include_free_template_unchanged (in_ : DashboardsService) (namespace : string)
    (fuel : nat) (t : string) (L : gmap string bool) (d : MonitoringDashboard) :
  loadRawDashboardResource in_ namespace t = Ok d →
  Forall (λ item, strings.TrimSpace (v1alpha1.Include item) = "")
         (v1alpha1.Items (v1alpha1.Spec d)) →
  L !! t = None →
  loadAndResolveDashboardResource (S fuel) in_ namespace t L
  = Some (<[t := true]> L, Ok d).
Proof.
  intros Hd Hitems Ht. rewrite lr_S.
  rewrite decide_False by (rewrite Ht; by intros []). rewrite Hd.
  assert (∀ items L0 resolved,
            Forall (λ item, strings.TrimSpace (v1alpha1.Include item) = "") items →
            resolveItems (loadAndResolveDashboardResource fuel in_ namespace) items L0 resolved
            = Some (L0, Ok (resolved ++ items))) as Hloop.
  { induction items as [|item items IH]; intros L0 resolved Hall.
    - simpl. by rewrite app_nil_r.
    - apply Forall_cons in Hall as [Hitem Hall].
      rewrite resolveItems_cons. unfold includeTarget. rewrite Hitem.
      rewrite decide_False by (by intros ?). rewrite IH by done.
      by rewrite <- app_assoc. }
  rewrite Hloop by done. simpl. by destruct d as [meta []].
Qed.

Lemma include_free_template_unchanged_witness :
  loadAndResolveDashboardResource 1 (Examples.service MoreExamples.blankInclude "") "ns" "A" ∅
  = Some (<["A" := true]> ∅,
          Ok (Examples.dashboard "A" "rt" ""
                [Examples.inline "a1"; Examples.include "   "; Examples.inline "a3"])).
Proof.
  apply (include_free_template_unchanged (Examples.service MoreExamples.blankInclude "")
           "ns" 0 "A" ∅).
  - reflexivity.
  - repeat constructor.
  - reflexivity.
Defined.

(** ** The cluster client *)

(** X7. Without a cluster client nothing is found, and only the resolver
    says so: when the client cannot be created, a lookup and the resolution
    of a template that is not loaded yet return the error of the creation
    behind the words of [k8s], while the list of explicit dashboards and the
    discovery return the empty list, whatever the names, the namespace and
    the filters. *)
Theorem cluster_client_failure (in_ : DashboardsService) (e : error) :
  k8sClient in_ = Err e →
  let err := "cannot initialize Kubernetes Client: " +:+ e in
  (∀ namespace template,
     loadRawDashboardResource in_ namespace template = Err err)
  ∧ (∀ fuel namespace template (L : gmap string bool),
       L !! template = None →
       loadAndResolveDashboardResource (S fuel) in_ namespace template L
       = Some (<[template := true]> L, Err err))
  ∧ (∀ namespace templatesNames, buildRuntimesList in_ namespace templatesNames = [])
  ∧ (∀ namespace labelsFilters runtimes,
       DiscoverDashboards in_ namespace labelsFilters runtimes ↔ runtimes = []).
Proof.
  intros He err.
  assert (k8s in_ = Err err) as Hk8s by (unfold k8s; by rewrite He).
  assert (∀ namespace template, loadRawDashboardResource in_ namespace template = Err err)
    as Hload.
  { intros namespace template. unfold loadRawDashboardResource, k8sGetDashboard.
    rewrite Hk8s. by case_decide. }
  split_and!; [done| | |].
  - intros fuel namespace template L HL. rewrite lr_S.
    rewrite decide_False by (rewrite HL; by intros []). by rewrite Hload.
  - intros namespace templatesNames. unfold buildRuntimesList.
    induction templatesNames as [|tpl names IH]; [done|].
    rewrite fmap_cons, Hload. exact IH.
  - intros namespace labelsFilters runtimes.
    unfold DiscoverDashboards, loadRawDashboardResources, k8sGetDashboards.
    rewrite Hk8s. repeat case_decide; try done.
    destruct (buildLabels_total in_ namespace labelsFilters) as [labels Hlabels].
    split.
    + intros (metrics & _ & order1 & order2 & Horder1 & Horder2 & [Hperm _]).
      rewrite map_to_list_empty in Horder1. apply Permutation_nil_r in Horder1 as ->.
      unfold matchDashboards in Horder2. simpl in Horder2.
      rewrite map_to_list_empty in Horder2. apply Permutation_nil_r in Horder2 as ->.
      by apply Permutation_nil_l in Hperm.
    + intros ->. exists (fetchMetricNamesWith in_ labels).
      split; [by exists labels|]. exists [], [].
      split_and!; [by rewrite map_to_list_empty|done|]. split; [done|constructor].
Qed.

Lemma cluster_client_failure_witness :
  loadRawDashboardResource Examples.noCluster "ns" "A"
  = Err "cannot initialize Kubernetes Client: no kubeconfig"
  ∧ DiscoverDashboards Examples.noCluster "ns" ∅ [].
Proof.
  destruct (cluster_client_failure Examples.noCluster "no kubeconfig" eq_refl)
    as (Hload & _ & _ & Hdiscover).
  split; [apply Hload|by apply Hdiscover].
Defined.

(** ** The templates of a namespace *)

Lemma lastNamed_snoc k ds d :
  lastNamed k (ds ++ [d])
  = if decide (v1alpha1.DashboardName d = k) then Some d else lastNamed k ds.
Proof.
  unfold lastNamed. rewrite filter_app, filter_cons, filter_nil.
  case_decide; [by rewrite last_snoc|by rewrite app_nil_r].
Qed.

Lemma lastNamed_app k ds1 ds2 :
  lastNamed k (ds1 ++ ds2)
  = match lastNamed k ds2 with Some d => Some d | None => lastNamed k ds1 end.
Proof.
  induction ds2 as [|d ds2 IH] using rev_ind.
  - by rewrite app_nil_r.
  - rewrite app_assoc, !lastNamed_snoc. case_decide; [done|]. exact IH.
Qed.

(** The loop [all[d.Name] = d] over a list of dashboards. *)
Lemma addAll_lookup ds (all : gmap string MonitoringDashboard) k :
  foldl (λ all d, <[v1alpha1.DashboardName d := d]> all) all ds !! k
  = match lastNamed k ds with Some d => Some d | None => all !! k end.
Proof.
  induction ds as [|d ds IH] using rev_ind; [done|].
  rewrite foldl_app, lastNamed_snoc. simpl. case_decide as Hk.
  - subst k. by rewrite lookup_insert_eq.
  - by rewrite lookup_insert_ne.
Qed.

(** X8. The map of all templates of a namespace: a name is bound to the
    last template of that name in the list of the namespace; when the
    namespace has none, to the last one of that name in the list of the
    global namespace; and is not bound when neither list has one. So a
    template of the namespace overrides the global one of the same name, and
    every template is stored under its own name. *)
Theorem raw_resources_namespace_overrides (in_ : DashboardsService) (namespace : string)
    (globalDashboards dashboards : list MonitoringDashboard) :
  config.GlobalNamespace (config in_) ≠ "" →
  namespace ≠ config.GlobalNamespace (config in_) →
  k8sGetDashboards in_ (config.GlobalNamespace (config in_)) = Ok globalDashboards →
  k8sGetDashboards in_ namespace = Ok dashboards →
  ∃ all,
    loadRawDashboardResources in_ namespace = Ok all
    ∧ keyedByName all
    ∧ ∀ k, all !! k = match lastNamed k dashboards with
                      | Some d => Some d
                      | None => lastNamed k globalDashboards
                      end.
Proof.
  intros Hglobal Hns Hg Hd.
  assert (∃ all, loadRawDashboardResources in_ namespace = Ok all
                 ∧ ∀ k, all !! k = match lastNamed k dashboards with
                                   | Some d => Some d
                                   | None => lastNamed k globalDashboards
                                   end) as (all & Hall & Hlookup).
  { unfold loadRawDashboardResources.
    rewrite decide_True by done. rewrite Hg. rewrite decide_True by done. rewrite Hd.
    eexists. split; [done|]. intros k. rewrite !addAll_lookup, lookup_empty.
    by destruct (lastNamed k dashboards), (lastNamed k globalDashboards). }
  exists all. split_and!; [done| |done].
  by eapply loadRawDashboardResources_keyed.
Qed.

Lemma raw_resources_namespace_overrides_witness :
  ∃ all,
    loadRawDashboardResources (Examples.service MoreExamples.overridden "global") "ns" = Ok all
    ∧ keyedByName all
    ∧ ∀ k, all !! k
           = match lastNamed k (Examples.templatesOf MoreExamples.overridden "ns") with
             | Some d => Some d
             | None => lastNamed k (Examples.templatesOf MoreExamples.overridden "global")
             end.
Proof.
  apply (raw_resources_namespace_overrides
           (Examples.service MoreExamples.overridden "global") "ns"); done.
Defined.

(** In the example the version of B of the namespace wins, and G is taken
    from the global namespace. *)
Example overridden_resources :
  loadRawDashboardResources (Examples.service MoreExamples.overridden "global") "ns"
  = Ok (list_to_map
          [("B", Examples.dashboard "B" "local" "" [Examples.inline "b1"]);
           ("C", Examples.dashboard "C" "local" "" [Examples.inline "c1"]);
           ("G", Examples.dashboard "G" "shared" "" [Examples.inline "g1"])]).
Proof. vm_compute. reflexivity. Qed.

(** X9. The listing of the templates stops at the first listing that fails,
    while the lookup of one template goes on to the global namespace after
    any failure in the namespace: when the namespace cannot be listed but
    the global namespace holds the template, the lookup of the template
    succeeds and the map of all templates is not built. *)
Theorem listing_fails_where_lookup_falls_back (in_ : DashboardsService)
    (namespace template : string) (client : kubernetes.ClientInterface)
    (e e' : error) (d : MonitoringDashboard) :
  k8sClient in_ = Ok client →
  config.GlobalNamespace (config in_) ≠ "" →
  namespace ≠ config.GlobalNamespace (config in_) →
  kubernetes.GetDashboards client namespace = Err e →
  kubernetes.GetDashboard client namespace template = Err e' →
  kubernetes.GetDashboard client (config.GlobalNamespace (config in_)) template = Ok d →
  loadRawDashboardResource in_ namespace template = Ok d
  ∧ (∃ err, loadRawDashboardResources in_ namespace = Err err)
  ∧ ∀ labelsFilters runtimes,
      DiscoverDashboards in_ namespace labelsFilters runtimes ↔ runtimes = [].
Proof.
  intros Hclient Hglobal Hns Hlist Hget Hgetg.
  assert (k8s in_ = Ok client) as Hk8s by (unfold k8s; by rewrite Hclient).
  assert (∃ err, loadRawDashboardResources in_ namespace = Err err) as [err Herr].
  { unfold loadRawDashboardResources, k8sGetDashboards. rewrite Hk8s.
    rewrite decide_True by done.
    destruct (kubernetes.GetDashboards client (config.GlobalNamespace (config in_)));
      [|by eexists].
    rewrite decide_True by done. rewrite Hlist. by eexists. }
  split_and!.
  - unfold loadRawDashboardResource, k8sGetDashboard. rewrite Hk8s, Hget.
    rewrite decide_True by done. by rewrite Hgetg.
  - by exists err.
  - intros labelsFilters runtimes. unfold DiscoverDashboards. by rewrite Herr.
Qed.

Lemma listing_fails_where_lookup_falls_back_witness :
  loadRawDashboardResource MoreExamples.restricted "ns" "G"
  = Ok (Examples.dashboard "G" "shared" "" [Examples.inline "g1"])
  ∧ (∃ err, loadRawDashboardResources MoreExamples.restricted "ns" = Err err)
  ∧ ∀ labelsFilters runtimes,
      DiscoverDashboards MoreExamples.restricted "ns" labelsFilters runtimes ↔ runtimes = [].
Proof.
  eapply (listing_fails_where_lookup_falls_back MoreExamples.restricted "ns" "G");
    [reflexivity|done|done|reflexivity|reflexivity|reflexivity].
Defined.

(** ** The runtime groupings in closed form *)

Lemma filter_none {A} (P : A → Prop) `{!∀ x, Decision (P x)} (l : list A) :
  (∀ x, x ∈ l → ¬ P x) → filter P l = [].
Proof.
  induction l as [|x l IH]; intros Hl; [done|].
  rewrite filter_cons, decide_False by (apply Hl; by left).
  apply IH. intros y Hy. apply Hl. by right.
Qed.

Lemma firstOccurrences_elem_of names n : n ∈ firstOccurrences names ↔ n ∈ names.
Proof.
  induction names as [|name names IH]; [done|]. simpl.
  rewrite !elem_of_cons, list_elem_of_filter, IH.
  destruct (decide (n = name)); split; intros; destruct_or?; destruct_and?; auto.
Qed.

Lemma firstOccurrences_NoDup names : NoDup (firstOccurrences names).
Proof.
  induction names as [|name names IH]; [constructor|]. simpl.
  apply NoDup_cons. split; [|by apply NoDup_filter].
  by intros [? _]%list_elem_of_filter.
Qed.

Lemma firstOccurrences_snoc names n :
  firstOccurrences (names ++ [n])
  = if decide (n ∈ names) then firstOccurrences names else firstOccurrences names ++ [n].
Proof.
  induction names as [|name names IH]; [done|].
  cbn [app firstOccurrences]. rewrite IH.
  destruct (decide (n ∈ names)) as [Hin|Hnin].
  - rewrite decide_True by (by right). done.
  - rewrite filter_app, filter_cons, filter_nil.
    destruct (decide (n = name)) as [->|Hne].
    + rewrite decide_False by (by intros ?). rewrite decide_True by (by left).
      by rewrite app_nil_r.
    + rewrite decide_True by done.
      rewrite decide_False by (by intros [?|?]%elem_of_cons). done.
Qed.

(** The groups of the dashboards [ds] for the runtime names [names]. *)
Lemma appendToRuntime_groups ds d names :
  NoDup names →
  let group (ds : list MonitoringDashboard) (runtime : string) :=
    {| model.Name := runtime;
       model.DashboardRefs :=
         dashboardRef <$> filter (λ d, v1alpha1.Runtime (v1alpha1.Spec d) = runtime) ds |} in
  appendToRuntime (v1alpha1.Runtime (v1alpha1.Spec d)) (dashboardRef d) (group ds <$> names)
  = if decide (v1alpha1.Runtime (v1alpha1.Spec d) ∈ names)
    then Some (group (ds ++ [d]) <$> names) else None.
Proof.
  intros Hnd group.
  assert (∀ names : list string, v1alpha1.Runtime (v1alpha1.Spec d) ∉ names →
                   group (ds ++ [d]) <$> names = group ds <$> names) as Hsame.
  { intros names' Hnin. apply list_fmap_ext. intros i runtime Hi. unfold group. f_equal.
    rewrite filter_app, filter_cons, filter_nil.
    rewrite decide_False; [by rewrite app_nil_r|].
    intros Heq. apply Hnin. rewrite Heq. by eapply list_elem_of_lookup_2. }
  induction names as [|name names IH]; [done|].
  apply NoDup_cons in Hnd as [Hname Hnd].
  rewrite !fmap_cons. cbn [appendToRuntime]. unfold group at 1. cbn [model.Name].
  destruct (decide (name = v1alpha1.Runtime (v1alpha1.Spec d))) as [->|Hne].
  - rewrite decide_True by (by left). rewrite (Hsame names) by done.
    do 2 f_equal. unfold group. cbn [model.Name model.DashboardRefs]. f_equal.
    rewrite filter_app, filter_cons, filter_nil. rewrite decide_True by done.
    by rewrite fmap_app.
  - rewrite IH by done. destruct (decide (_ ∈ names)) as [Hin|Hnin].
    + rewrite decide_True by (by right). simpl. do 2 f_equal.
      unfold group. f_equal. rewrite filter_app, filter_cons, filter_nil.
      rewrite decide_False by done. by rewrite app_nil_r.
    + rewrite decide_False by (intros [?|?]%elem_of_cons; congruence). done.
Qed.

Lemma groupByRuntime_snoc ds d :
  groupByRuntime (ds ++ [d]) = addDashboardToRuntimes d (groupByRuntime ds).
Proof.
  unfold addDashboardToRuntimes, groupByRuntime.
  rewrite appendToRuntime_groups by apply firstOccurrences_NoDup.
  rewrite (fmap_app _ ds [d]), list_fmap_singleton, firstOccurrences_snoc.
  destruct (decide (_ ∈ firstOccurrences _)) as [Hin|Hnin].
  - rewrite firstOccurrences_elem_of in Hin. rewrite decide_True by exact Hin. done.
  - rewrite firstOccurrences_elem_of in Hnin. rewrite decide_False by exact Hnin.
    rewrite fmap_app, list_fmap_singleton. f_equal.
    + apply list_fmap_ext. intros i runtime Hi. f_equal.
      rewrite filter_app, filter_cons, filter_nil.
      rewrite decide_False; [by rewrite app_nil_r|].
      intros Heq. apply Hnin. rewrite Heq.
      apply firstOccurrences_elem_of. by eapply list_elem_of_lookup_2.
    + do 2 f_equal. rewrite filter_app, filter_cons, filter_nil.
      rewrite decide_True by done.
      rewrite (filter_none _ ds); [done|]. intros d' Hd' Heq.
      apply Hnin. rewrite <- Heq.
      by apply (list_elem_of_fmap_2 (λ d, v1alpha1.Runtime (v1alpha1.Spec d))).
Qed.

(** The loop over the slots of [buildRuntimesList] and over the entries of
    [runtimesMap]: the nil ones are passed over. *)
Lemma foldl_addDashboardToRuntimes (slots : list (option MonitoringDashboard)) :
  foldl (λ runtimes dashboard,
           match dashboard with
           | None => runtimes
           | Some dashboard => addDashboardToRuntimes dashboard runtimes
           end) [] slots
  = groupByRuntime (omap id slots).
Proof.
  induction slots as [|slot slots IH] using rev_ind; [done|].
  rewrite foldl_app, omap_app. cbn [foldl]. rewrite IH. destruct slot as [d|].
  - cbn [omap list_omap id]. by rewrite groupByRuntime_snoc.
  - cbn [omap list_omap]. by rewrite app_nil_r.
Qed.

Lemma groupByRuntime_names ds :
  model.Name <$> groupByRuntime ds
  = firstOccurrences ((λ d, v1alpha1.Runtime (v1alpha1.Spec d)) <$> ds).
Proof.
  unfold groupByRuntime. rewrite <- list_fmap_compose.
  rewrite <- (list_fmap_id (firstOccurrences _)) at 2. by apply list_fmap_ext.
Qed.

Lemma groupByRuntime_elem_of ds rt :
  rt ∈ groupByRuntime ds ↔
  (∃ d, d ∈ ds ∧ v1alpha1.Runtime (v1alpha1.Spec d) = model.Name rt)
  ∧ rt = {| model.Name := model.Name rt;
            model.DashboardRefs :=
              dashboardRef
                <$> filter (λ d, v1alpha1.Runtime (v1alpha1.Spec d) = model.Name rt) ds |}.
Proof.
  unfold groupByRuntime. rewrite list_elem_of_fmap. split.
  - intros (runtime & -> & Hin). cbn [model.Name]. split; [|done].
    apply firstOccurrences_elem_of, list_elem_of_fmap in Hin as (d & -> & Hd).
    by exists d.
  - intros [(d & Hd & Hname) Hrt]. exists (model.Name rt). split; [done|].
    apply firstOccurrences_elem_of. rewrite <- Hname.
    by apply (list_elem_of_fmap_2 (λ d, v1alpha1.Runtime (v1alpha1.Spec d))).
Qed.

Lemma addDashboardToRuntimes_refs dashboard runtimes :
  concat (model.DashboardRefs <$> addDashboardToRuntimes dashboard runtimes)
  ≡ₚ concat (model.DashboardRefs <$> runtimes) ++ [dashboardRef dashboard].
Proof.
  destruct (addDashboardToRuntimes_cases dashboard runtimes)
    as [[_ ->]|(pre & rtObj & post & -> & _ & _ & ->)].
  - rewrite fmap_app, concat_app. simpl. done.
  - rewrite !fmap_app, !fmap_cons, !concat_app. cbn [concat model.DashboardRefs].
    rewrite <- !app_assoc. do 2 apply Permutation_app_head.
    apply Permutation_app_comm.
Qed.

(** The groups of a list of dashboards have distinct names, none is empty,
    and together they hold one reference for each dashboard of the list. *)
Lemma groupByRuntime_wellformed ds :
  NoDup (model.Name <$> groupByRuntime ds)
  ∧ Forall (λ rt, model.DashboardRefs rt ≠ []) (groupByRuntime ds)
  ∧ concat (model.DashboardRefs <$> groupByRuntime ds) ≡ₚ dashboardRef <$> ds.
Proof.
  split_and!.
  - rewrite groupByRuntime_names. apply firstOccurrences_NoDup.
  - apply Forall_forall. intros rt [(d & Hd & Hname) ->]%groupByRuntime_elem_of.
    cbn [model.DashboardRefs]. intros Hnil%fmap_nil_inv.
    exact (filter_nil_not_elem_of _ _ d Hnil Hname Hd).
  - induction ds as [|d ds IH] using rev_ind; [done|].
    by rewrite groupByRuntime_snoc, addDashboardToRuntimes_refs, IH, fmap_app.
Qed.

Lemma omap_id_fmap {A B} (f : A → option B) (l : list A) :
  omap id (f <$> l) = omap f l.
Proof.
  induction l as [|a l IH]; [done|]. csimpl. rewrite IH. by destruct (f a).
Qed.

(** The templates of [templatesNames] that the lookup finds, in the order of
    the names. *)
Lemma buildRuntimesList_groupByRuntime in_ namespace templatesNames :
  buildRuntimesList in_ namespace templatesNames
  = groupByRuntime
      (omap (λ tpl, match loadRawDashboardResource in_ namespace tpl with
                    | Ok dashboard => Some dashboard
                    | Err _ => None
                    end) templatesNames).
Proof.
  unfold buildRuntimesList. by rewrite foldl_addDashboardToRuntimes, omap_id_fmap.
Qed.

(** ** The dashboards of explicit references *)

(** X10. The runtimes of the explicit references in closed form: the
    templates are looked up in the order of their names, whatever the order
    in which the workers end; the names the lookup does not find are passed
    over; and the templates found are grouped by runtime, the groups in the
    order in which the runtimes first occur, the references of a group in
    the order of the names. A name that occurs twice is referred to twice.
    The test for an empty list of names changes nothing. *)
Theorem explicit_dashboards_grouped {Pod : Type}
    (extractUniqueDashboards : list Pod → list string)
    (in_ : DashboardsService) (namespace : string) (pods : list Pod) :
  let found :=
    omap (λ tpl, match loadRawDashboardResource in_ namespace tpl with
                 | Ok dashboard => Some dashboard
                 | Err _ => None
                 end) (extractUniqueDashboards pods) in
  SearchExplicitDashboards extractUniqueDashboards in_ namespace pods
  = buildRuntimesList in_ namespace (extractUniqueDashboards pods)
  ∧ SearchExplicitDashboards extractUniqueDashboards in_ namespace pods
    = groupByRuntime found.
Proof.
  intros found.
  assert (SearchExplicitDashboards extractUniqueDashboards in_ namespace pods
          = buildRuntimesList in_ namespace (extractUniqueDashboards pods)) as Heq.
  { unfold SearchExplicitDashboards. case_decide as Hlen; [done|].
    destruct (extractUniqueDashboards pods); [done|]. simpl in Hlen. lia. }
  split; [done|]. rewrite Heq. apply buildRuntimesList_groupByRuntime.
Qed.

(** In the cluster of [Examples.tiers]: two references to T, one to a
    template that is not stored and one to G give the group of T, with two
    references, before the group of G. *)
Example explicit_dashboards_tiers :
  buildRuntimesList (Examples.service Examples.tiers "global") "ns" ["T"; "Missing"; "G"; "T"]
  = [{| model.Name := "specific";
        model.DashboardRefs := [{| model.Template := "T"; model.Title := "T title" |};
                                {| model.Template := "T"; model.Title := "T title" |}] |};
     {| model.Name := "shared";
        model.DashboardRefs := [{| model.Template := "G"; model.Title := "G title" |}] |}].
Proof. vm_compute. reflexivity. Qed.

(** X11. The groups of the explicit references are well formed: no two
    groups have the same runtime name, no group is empty, and the references
    of all groups together are those of the templates found, one for each
    occurrence of a name; in particular no template of a name that is found
    is lost and none is invented. *)
Theorem explicit_dashboards_wellformed (in_ : DashboardsService) (namespace : string)
    (templatesNames : list string) :
  let runtimes := buildRuntimesList in_ namespace templatesNames in
  NoDup (model.Name <$> runtimes)
  ∧ Forall (λ rt, model.DashboardRefs rt ≠ []) runtimes
  ∧ concat (model.DashboardRefs <$> runtimes)
    ≡ₚ dashboardRef
         <$> omap (λ tpl, match loadRawDashboardResource in_ namespace tpl with
                          | Ok dashboard => Some dashboard
                          | Err _ => None
                          end) templatesNames.
Proof.
  intros runtimes. unfold runtimes. rewrite buildRuntimesList_groupByRuntime.
  apply groupByRuntime_wellformed.
Qed.

(** ** The discovery in closed form *)

Lemma collectRuntimes_groupByRuntime order :
  collectRuntimes order = groupByRuntime (omap snd order).
Proof.
  unfold collectRuntimes.
  rewrite <- (omap_id_fmap snd), <- foldl_addDashboardToRuntimes.
  by rewrite foldl_fmap.
Qed.

Lemma concat_fmap_Permutation {A B} (f : A → list B) (l l' : list A) :
  l ≡ₚ l' → concat (f <$> l) ≡ₚ concat (f <$> l').
Proof.
  induction 1 as [|x l l' _ IH|x y l|l l' l'' _ IH1 _ IH2]; csimpl.
  - done.
  - by apply Permutation_app_head.
  - rewrite !app_assoc. apply Permutation_app_tail, Permutation_app_comm.
  - by etransitivity.
Qed.

(** X12. The output of the matcher in closed form: it is a permutation,
    sorted by runtime name, of the groups of the dashboards that the first
    loop kept, taken in the order in which the second loop visits them; no
    group is empty, and the groups together hold one reference for each
    dashboard kept. *)
Theorem discovery_groups_closed_form (metrics : list string)
    (allDashboards : gmap string MonitoringDashboard) (runtimes : list model.Runtime) :
  runDiscoveryMatcher metrics allDashboards runtimes →
  ∃ order1 order2,
    order1 ≡ₚ (map_to_list allDashboards).*2
    ∧ order2 ≡ₚ map_to_list (matchDashboards metrics order1)
    ∧ sortSlice (groupByRuntime (omap snd order2)) runtimes
    ∧ Forall (λ rt, model.DashboardRefs rt ≠ []) runtimes
    ∧ concat (model.DashboardRefs <$> runtimes) ≡ₚ dashboardRef <$> omap snd order2.
Proof.
  intros (order1 & order2 & Horder1 & Horder2 & Hsort).
  rewrite collectRuntimes_groupByRuntime in Hsort.
  exists order1, order2. split_and!; [done..| |].
  - destruct Hsort as [Hperm _]. rewrite <- Hperm.
    apply groupByRuntime_wellformed.
  - destruct Hsort as [Hperm _].
    rewrite <- (concat_fmap_Permutation _ _ _ Hperm).
    apply groupByRuntime_wellformed.
Qed.

Lemma discovery_groups_closed_form_witness :
  ∃ order1 order2,
    order1 ≡ₚ (map_to_list Examples.threeRuntimes).*2
    ∧ order2 ≡ₚ map_to_list (matchDashboards ["m1"; "m2"] order1)
    ∧ sortSlice (groupByRuntime (omap snd order2))
        (runDiscoveryMatcherIn ["m1"; "m2"] Examples.threeRuntimes)
    ∧ Forall (λ rt, model.DashboardRefs rt ≠ [])
        (runDiscoveryMatcherIn ["m1"; "m2"] Examples.threeRuntimes)
    ∧ concat (model.DashboardRefs
                <$> runDiscoveryMatcherIn ["m1"; "m2"] Examples.threeRuntimes)
      ≡ₚ dashboardRef <$> omap snd order2.
Proof.
  apply (discovery_groups_closed_form ["m1"; "m2"] Examples.threeRuntimes).
  apply runDiscoveryMatcherIn_runDiscoveryMatcher.
Defined.

(** On a map keyed by template name the first loop leaves the same
    [runtimesMap] for every order of the visit. *)
Lemma matchDashboards_Permutation metrics order order' :
  NoDup (v1alpha1.DashboardName <$> order) →
  order ≡ₚ order' →
  matchDashboards metrics order = matchDashboards metrics order'.
Proof.
  intros Hnd Hperm.
  assert (NoDup (v1alpha1.DashboardName <$> order')) as Hnd' by (by rewrite <- Hperm).
  apply map_eq. intros k.
  destruct (matchDashboards_lookup metrics order Hnd k) as [Hnil Hsome].
  destruct (matchDashboards_lookup metrics order' Hnd' k) as [Hnil' Hsome'].
  assert (suppressed metrics order k ↔ suppressed metrics order' k) as Hsup.
  { unfold suppressed. by setoid_rewrite Hperm. }
  apply option_eq. intros [d|].
  - rewrite Hsome, Hsome', Hsup. by setoid_rewrite Hperm.
  - by rewrite Hnil, Hnil', Hsup.
Qed.

Lemma ltb_asym (a b : string) : String.ltb a b = true → String.ltb b a = true → a = b.
Proof.
  unfold String.ltb. rewrite (String.compare_antisym a b).
  by destruct (String.compare b a).
Qed.

(** X13. On a map keyed by template name, as the maps of
    [loadRawDashboardResources] are, the output of the matcher does not
    depend on the orders in which Go visits the maps nor on the permutation
    that the sort chooses, but for the order of the references within a
    group: two outputs have the same runtime names at the same positions,
    and the groups at a position hold the same references, up to their
    order. *)
Theorem discovery_order_independent (metrics : list string)
    (allDashboards : gmap string MonitoringDashboard)
    (runtimes runtimes' : list model.Runtime) :
  keyedByName allDashboards →
  runDiscoveryMatcher metrics allDashboards runtimes →
  runDiscoveryMatcher metrics allDashboards runtimes' →
  Forall2 (λ rt rt', model.Name rt = model.Name rt'
                     ∧ model.DashboardRefs rt ≡ₚ model.DashboardRefs rt')
          runtimes runtimes'.
Proof.
  intros Hkeyed Hrun Hrun'.
  pose proof Hrun as (order1 & order2 & Horder1 & Horder2 & Hsort).
  pose proof Hrun' as (order1' & order2' & Horder1' & Horder2' & Hsort').
  assert (matchDashboards metrics order1 = matchDashboards metrics order1') as Hmap.
  { apply matchDashboards_Permutation; [by eapply keyedByName_NoDup|].
    by rewrite Horder1, Horder1'. }
  assert (omap snd order2 ≡ₚ omap snd order2') as Hkept.
  { by rewrite Horder2, Horder2', Hmap. }
  pose proof (sortSlice_strict _ _ (collectRuntimes_names order2) Hsort) as Hstrict.
  pose proof (sortSlice_strict _ _ (collectRuntimes_names order2') Hsort') as Hstrict'.
  rewrite collectRuntimes_groupByRuntime in Hsort, Hsort'.
  destruct Hsort as [Hperm _], Hsort' as [Hperm' _].
  assert (model.Name <$> runtimes = model.Name <$> runtimes') as Hnames.
  { apply (StronglySorted_unique_strong (λ a b, String.ltb a b = true)).
    - intros a b _ _. apply ltb_asym.
    - by apply (StronglySorted_fmap model.Name
                  (λ a b, String.ltb (model.Name a) (model.Name b) = true)).
    - by apply (StronglySorted_fmap model.Name
                  (λ a b, String.ltb (model.Name a) (model.Name b) = true)).
    - rewrite <- Hperm, <- Hperm', !groupByRuntime_names.
      apply NoDup_Permutation; [apply firstOccurrences_NoDup..|].
      intros n. rewrite !firstOccurrences_elem_of. by rewrite Hkept. }
  apply Forall2_same_length_lookup. split.
  { by rewrite <- (length_fmap model.Name runtimes), Hnames, length_fmap. }
  intros i rt rt' Hrt Hrt'.
  assert (model.Name rt = model.Name rt') as Hname.
  { apply (f_equal (.!! i)) in Hnames. rewrite !list_lookup_fmap, Hrt, Hrt' in Hnames.
    by injection Hnames. }
  split; [done|].
  apply list_elem_of_lookup_2 in Hrt, Hrt'.
  rewrite <- Hperm in Hrt. rewrite <- Hperm' in Hrt'.
  apply groupByRuntime_elem_of in Hrt as [_ ->], Hrt' as [_ ->].
  cbn [model.DashboardRefs model.Name] in *. by rewrite Hname, Hkept.
Qed.

Lemma keyedByName_threeRuntimes : keyedByName Examples.threeRuntimes.
Proof.
  intros k d Hkd. apply elem_of_map_to_list in Hkd. vm_compute in Hkd.
  repeat (apply elem_of_cons in Hkd as [[= -> ->]|Hkd]); try done.
  by apply elem_of_nil in Hkd.
Qed.

Lemma discovery_order_independent_witness :
  Forall2 (λ rt rt', model.Name rt = model.Name rt'
                     ∧ model.DashboardRefs rt ≡ₚ model.DashboardRefs rt')
          (runDiscoveryMatcherIn ["m1"; "m2"] Examples.threeRuntimes)
          (runDiscoveryMatcherIn ["m1"; "m2"] Examples.threeRuntimes).
Proof.
  apply (discovery_order_independent ["m1"; "m2"] Examples.threeRuntimes).
  - exact keyedByName_threeRuntimes.
  - apply runDiscoveryMatcherIn_runDiscoveryMatcher.
  - apply runDiscoveryMatcherIn_runDiscoveryMatcher.
Defined.

(** X14. What the discovery reports, from the cluster to the groups: when
    the templates can be listed, a group holds a reference exactly when the
    template of that name, namespace version before global version, has the
    runtime of the group and the title of the reference, is discovered on
    one of the metric names fetched, and no discovered template has its name
    as an [Include] field; whatever the orders of the visits. A template
    whose [DiscoverOn] is blank is never reported. *)
Theorem discovered_references (in_ : DashboardsService) (namespace : string)
    (labelsFilters : gmap string string)
    (allDashboards : gmap string MonitoringDashboard) (runtimes : list model.Runtime) :
  loadRawDashboardResources in_ namespace = Ok allDashboards →
  DiscoverDashboards in_ namespace labelsFilters runtimes →
  ∃ metrics,
    fetchMetricNames in_ namespace labelsFilters metrics
    ∧ (∀ name ref,
         refIn runtimes name ref ↔
         ∃ d, allDashboards !! model.Template ref = Some d
              ∧ discoveredOn metrics d = true
              ∧ ¬ suppressed metrics (map_to_list allDashboards).*2 (model.Template ref)
              ∧ v1alpha1.Runtime (v1alpha1.Spec d) = name
              ∧ v1alpha1.Title (v1alpha1.Spec d) = model.Title ref)
    ∧ (∀ name ref d,
         refIn runtimes name ref →
         allDashboards !! model.Template ref = Some d →
         strings.TrimSpace (v1alpha1.DiscoverOn (v1alpha1.Spec d)) ≠ "").
Proof.
  intros Hload Hrun. unfold DiscoverDashboards in Hrun. rewrite Hload in Hrun.
  destruct Hrun as (metrics & Hmetrics & Hrun).
  pose proof (loadRawDashboardResources_keyed _ _ _ Hload) as Hkeyed.
  pose proof (runDiscoveryMatcher_keyed _ _ _ Hkeyed Hrun) as Hrefs.
  assert (∀ name ref,
            refIn runtimes name ref ↔
            ∃ d, allDashboards !! model.Template ref = Some d
                 ∧ discoveredOn metrics d = true
                 ∧ ¬ suppressed metrics (map_to_list allDashboards).*2 (model.Template ref)
                 ∧ v1alpha1.Runtime (v1alpha1.Spec d) = name
                 ∧ v1alpha1.Title (v1alpha1.Spec d) = model.Title ref) as Hiff.
  { intros name ref. rewrite Hrefs. split.
    - intros (d & Hd & Hdisc & Hns & Hname & <-).
      apply list_elem_of_fmap in Hd as ([k d'] & -> & Hkd%elem_of_map_to_list).
      simpl in *. pose proof (Hkeyed _ _ Hkd) as Hk. exists d'.
      split_and!; [by rewrite Hk|done..].
    - intros (d & Hd & Hdisc & Hns & Hname & Htitle).
      pose proof (Hkeyed _ _ Hd) as Hk. exists d. split_and!; [|done| |done|].
      + apply list_elem_of_fmap. exists (model.Template ref, d).
        split; [done|]. by apply elem_of_map_to_list.
      + by rewrite Hk.
      + unfold dashboardRef. rewrite Hk, Htitle. by destruct ref. }
  exists metrics. split_and!; [done..|].
  intros name ref d (d' & Hd' & Hdisc & _)%Hiff Hd.
  assert (d' = d) as -> by congruence.
  unfold discoveredOn in Hdisc. apply andb_true_iff in Hdisc as [Hne _].
  by apply bool_decide_eq_true in Hne.
Qed.

Lemma existsb_trimmed (matchReference : string) (metrics : list string) :
  existsb (λ metric, bool_decide (matchReference = strings.TrimSpace metric)) metrics = true
  ↔ matchReference ∈ strings.TrimSpace <$> metrics.
Proof.
  rewrite existsb_exists, list_elem_of_fmap. split.
  - intros (m & Hm%list_elem_of_In & Heq%bool_decide_eq_true). by exists m.
  - intros (m & Heq & Hm). exists m. split; [by apply list_elem_of_In|].
    by apply bool_decide_eq_true.
Qed.

Lemma matchDashboards_metrics_set metrics metrics' order :
  (∀ m, m ∈ strings.TrimSpace <$> metrics ↔ m ∈ strings.TrimSpace <$> metrics') →
  matchDashboards metrics order = matchDashboards metrics' order.
Proof.
  intros Hset. unfold matchDashboards.
  generalize (∅ : gmap string (option MonitoringDashboard)).
  induction order as [|d order IH]; intros runtimesMap; [done|].
  cbn [foldl]. rewrite IH. f_equal. unfold matchDashboard.
  case_decide; [|done].
  set (r := strings.TrimSpace (v1alpha1.DiscoverOn (v1alpha1.Spec d))).
  pose proof (existsb_trimmed r metrics) as H1.
  pose proof (existsb_trimmed r metrics') as H2.
  destruct (existsb _ metrics), (existsb _ metrics'); try done.
  - enough (false = true) by done. apply H2, Hset, H1. done.
  - enough (false = true) by done. apply H1, Hset, H2. done.
Qed.

(** X15. The matcher reads the metric names as a set of trimmed names: two
    lists of metric names that hold the same names once the white space
    around each is removed, in any order and any number of times, give the
    same outputs. *)
Theorem discovery_metrics_as_set (metrics metrics' : list string)
    (allDashboards : gmap string MonitoringDashboard) (runtimes : list model.Runtime) :
  (∀ m, m ∈ strings.TrimSpace <$> metrics ↔ m ∈ strings.TrimSpace <$> metrics') →
  runDiscoveryMatcher metrics allDashboards runtimes
  ↔ runDiscoveryMatcher metrics' allDashboards runtimes.
Proof.
  intros Hset. unfold runDiscoveryMatcher.
  by setoid_rewrite (matchDashboards_metrics_set metrics metrics' _ Hset).
Qed.

Lemma discovery_metrics_as_set_witness :
  runDiscoveryMatcher ["m1"; "m2"] Examples.threeRuntimes
    (runDiscoveryMatcherIn [" m2"; "m1 "; "m2"] Examples.threeRuntimes).
Proof.
  apply (discovery_metrics_as_set [" m2"; "m1 "; "m2"] ["m1"; "m2"]).
  - intros m. vm_compute. set_solver.
  - apply runDiscoveryMatcherIn_runDiscoveryMatcher.
Defined.

Lemma discovered_references_witness :
  ∃ metrics,
    fetchMetricNames MoreExamples.monitored "ns" ∅ metrics
    ∧ (∀ name ref,
         refIn (runDiscoveryMatcherIn ["m1"; "m2"] Examples.threeRuntimes) name ref ↔
         ∃ d, Examples.threeRuntimes !! model.Template ref = Some d
              ∧ discoveredOn metrics d = true
              ∧ ¬ suppressed metrics (map_to_list Examples.threeRuntimes).*2
                    (model.Template ref)
              ∧ v1alpha1.Runtime (v1alpha1.Spec d) = name
              ∧ v1alpha1.Title (v1alpha1.Spec d) = model.Title ref)
    ∧ (∀ name ref d,
         refIn (runDiscoveryMatcherIn ["m1"; "m2"] Examples.threeRuntimes) name ref →
         Examples.threeRuntimes !! model.Template ref = Some d →
         strings.TrimSpace (v1alpha1.DiscoverOn (v1alpha1.Spec d)) ≠ "").
Proof.
  assert (loadRawDashboardResources MoreExamples.monitored "ns" = Ok Examples.threeRuntimes)
    as Hload by (vm_compute; reflexivity).
  apply (discovered_references MoreExamples.monitored "ns" ∅ _ _ Hload).
  unfold DiscoverDashboards. rewrite Hload. exists ["m1"; "m2"]. split.
  - exists (buildLabelsIn MoreExamples.monitored "ns" []). split; [|done].
    exists []. split; [by rewrite map_to_list_empty|done].
  - apply runDiscoveryMatcherIn_runDiscoveryMatcher.
Defined.

(** ** The queries of a chart *)

(** X16. The scale handed to the conversion is never a zero: it is the unit
    scale of the chart unless that compares equal to zero, as plus and minus
    zero do, and then it is one. A unit scale that is not a number differs
    from zero and is passed on as it is. *)
Theorem conversion_scale_never_zero (params : model.DashboardQuery) (filters : string)
    (chart : MonitoringDashboardChart) (metrics : list string) :
  let conversionParams := (chartQueries params filters chart metrics).2 in
  SFeqb (model.Scale conversionParams) (S754_zero false) = false
  ∧ (∀ s, model.Scale conversionParams ≠ S754_zero s)
  ∧ model.Scale conversionParams
    = (if SFeqb (v1alpha1.UnitScale chart) (S754_zero false)
       then float_one else v1alpha1.UnitScale chart)
  ∧ (v1alpha1.UnitScale chart = S754_nan → model.Scale conversionParams = S754_nan).
Proof.
  intros conversionParams.
  assert (model.Scale conversionParams
          = (if SFeqb (v1alpha1.UnitScale chart) (S754_zero false)
             then float_one else v1alpha1.UnitScale chart)) as Hscale.
  { unfold conversionParams, chartQueries.
    destruct (SFeqb (v1alpha1.UnitScale chart) (S754_zero false));
      cbn [negb]; case_decide; try destruct (negb _); reflexivity. }
  split_and!; [| |done|].
  - rewrite Hscale. destruct (SFeqb (v1alpha1.UnitScale chart) _) eqn:Hz; done.
  - intros s. rewrite Hscale.
    destruct (SFeqb (v1alpha1.UnitScale chart) _) eqn:Hz; [done|].
    intros Heq. rewrite Heq in Hz. by destruct s.
  - intros Hnan. rewrite Hscale, Hnan. done.
Qed.

(** A chart scaled by minus zero is converted with the scale one. *)
Example latency_chart_scale :
  model.Scale (chartQueries Examples.query "{}" MoreExamples.latencyChart ["m"]).2
  = float_one.
Proof. reflexivity. Qed.

(** X17. The queries of a chart: one for each metric, in the order of the
    metrics, all with the label selector of the dashboard and the same
    grouping; and all of one kind, chosen by the data type of the chart: a
    range query for the raw type, a rate query for the rate type, and a
    histogram query for every other data type, the empty and the unknown
    ones as well. A range query carries the aggregator of the chart, or that
    of the caller when the chart has none. Without a sort label the grouping
    is that of the chart followed by that of the caller, and nothing is
    removed at the conversion. *)
Theorem chart_queries_by_data_type (params : model.DashboardQuery) (filters : string)
    (chart : MonitoringDashboardChart) (metrics : list string) :
  let queries := (chartQueries params filters chart metrics).1 in
  let conversionParams := (chartQueries params filters chart metrics).2 in
  queryMetricName <$> queries = metrics
  ∧ Forall (λ q, queryFilters q = filters) queries
  ∧ (∃ grouping, Forall (λ q, queryGrouping q = grouping) queries)
  ∧ Forall (λ q, queryKind q
                 = if decide (v1alpha1.DataType chart = Raw) then RangeQuery
                   else if decide (v1alpha1.DataType chart = Rate) then RateQuery
                   else HistogramQuery) queries
  ∧ Forall (λ q, ∀ aggregator,
                 queryAggregator q = Some aggregator →
                 aggregator = if decide (v1alpha1.Aggregator chart = "")
                              then model.RawDataAggregator params
                              else v1alpha1.Aggregator chart) queries
  ∧ (v1alpha1.SortLabel chart = "" →
     Forall (λ q, queryGrouping q
                  = strings.Join (v1alpha1.GroupLabels chart ++ model.ByLabels params) ",")
            queries
     ∧ model.RemoveSortLabel conversionParams = false).
Proof.
  intros queries conversionParams. unfold queries, conversionParams, chartQueries.
  set (pair := if decide (0 < String.length (v1alpha1.SortLabel chart)) then _ else _).
  assert (v1alpha1.SortLabel chart = "" →
          pair.1 = v1alpha1.GroupLabels chart ++ model.ByLabels params
          ∧ model.RemoveSortLabel pair.2 = false) as Hplain.
  { intros Hsort. unfold pair. rewrite Hsort. cbn [String.length].
    rewrite decide_False by lia. cbn [fst snd]. split; [done|].
    by destruct (negb (SFeqb _ _)). }
  destruct pair as [byLabels cp]. cbn [fst snd] in *. split_and!.
  - rewrite <- list_fmap_compose. rewrite <- (list_fmap_id metrics) at 2.
    apply list_fmap_ext. intros i m _. simpl. by repeat case_decide.
  - apply Forall_fmap, Forall_true. intros m. simpl. by repeat case_decide.
  - exists (strings.Join byLabels ","). apply Forall_fmap, Forall_true.
    intros m. simpl. by repeat case_decide.
  - apply Forall_fmap, Forall_true. intros m. simpl. by repeat case_decide.
  - apply Forall_fmap, Forall_true. intros m aggregator. simpl.
    repeat case_decide; by intros [= <-].
  - intros Hsort. destruct (Hplain Hsort) as [-> Hflag]. split; [|done].
    apply Forall_fmap, Forall_true. intros m. simpl. by repeat case_decide.
Qed.

(** The chart of the example has a data type that is neither raw nor rate:
    its metric is fetched as a histogram, even though the chart names an
    aggregator. *)
Example latency_chart_queries :
  (chartQueries Examples.query "{}" MoreExamples.latencyChart ["m"]).1
  = [FetchHistogramRange "m" "{}" "app"].
Proof. reflexivity. Qed.

(** ** What a resolved template is made of *)

Section ResolverItems.

Context (in_ : DashboardsService) (namespace : string).

Lemma spliceItems_Forall (Q : MonitoringDashboardItem → Prop) parts items2 resolved :
  Forall Q resolved → Forall Q items2 → Forall Q (spliceItems parts items2 resolved).
Proof.
  revert resolved. induction items2 as [|item2 rest IH]; intros resolved Hres Hitems; [done|].
  apply Forall_cons in Hitems as [Hitem2 Hrest]. simpl. repeat case_decide.
  - apply Forall_app. split; [done|]. by apply Forall_singleton.
  - by apply IH.
  - apply IH; [|done]. apply Forall_app. split; [done|]. by apply Forall_singleton.
Qed.

Lemma resolveItems_Forall (Q : MonitoringDashboardItem → Prop) rec :
  ∀ items L resolved L' resolved',
    resolveItems rec items L resolved = Some (L', Ok resolved') →
    Forall Q resolved →
    (∀ item, item ∈ items → includeTarget item = None → Q item) →
    (∀ b L0 L1 composed,
       b ∈ includeTargets items → rec b L0 = Some (L1, Ok composed) →
       Forall Q (v1alpha1.Items (v1alpha1.Spec composed))) →
    Forall Q resolved'.
Proof.
  induction items as [|item items IH]; intros L resolved L' resolved'.
  { simpl. by intros [= _ <-]. }
  rewrite resolveItems_cons. destruct (includeTarget item) as [b|] eqn:Hitem.
  - rewrite (includeTargets_cons_include _ _ _ Hitem).
    destruct (rec b L) as [[L1 [composed|e]]|] eqn:Hb; [|done..].
    intros Hrest Hres Hinline Hincluded. apply (IH _ _ _ _ Hrest).
    + apply spliceItems_Forall; [done|]. eapply Hincluded; [by left|done].
    + intros item' Hin. apply Hinline. by right.
    + intros b' L0 L2 composed' Hb'. apply Hincluded. by right.
  - rewrite (includeTargets_cons_inline _ _ Hitem).
    intros Hrest Hres Hinline Hincluded. apply (IH _ _ _ _ Hrest).
    + apply Forall_app. split; [done|]. apply Forall_singleton.
      apply Hinline; [by left|done].
    + intros item' Hin. apply Hinline. by right.
    + done.
Qed.

(** X18. A resolved template is the stored template with other items: its
    name, title, runtime and discovery metric are those of the template
    requested, never those of a template it includes; and each of its items
    is an inline item, taken as it is from the stored template or from a
    stored template that can be reached from it. The resolution invents and
    changes no item. *)
Theorem resolution_keeps_template (fuel : nat) (t : string) (L L' : gmap string bool)
    (d : MonitoringDashboard) :
  loadAndResolveDashboardResource fuel in_ namespace t L = Some (L', Ok d) →
  ∃ raw,
    loadRawDashboardResource in_ namespace t = Ok raw
    ∧ v1alpha1.ObjectMeta d = v1alpha1.ObjectMeta raw
    ∧ v1alpha1.Title (v1alpha1.Spec d) = v1alpha1.Title (v1alpha1.Spec raw)
    ∧ v1alpha1.Runtime (v1alpha1.Spec d) = v1alpha1.Runtime (v1alpha1.Spec raw)
    ∧ v1alpha1.DiscoverOn (v1alpha1.Spec d) = v1alpha1.DiscoverOn (v1alpha1.Spec raw)
    ∧ Forall (λ item,
                includeTarget item = None
                ∧ ∃ n dn, rtc (includes in_ namespace) t n
                          ∧ loadRawDashboardResource in_ namespace n = Ok dn
                          ∧ item ∈ v1alpha1.Items (v1alpha1.Spec dn))
             (v1alpha1.Items (v1alpha1.Spec d)).
Proof.
  revert t L L' d. induction fuel as [|fuel IH]; intros t L L' d'; [done|].
  rewrite lr_S. case_decide as Ht; [done|].
  destruct (loadRawDashboardResource in_ namespace t) as [raw|e] eqn:Hraw; [|done].
  destruct (resolveItems _ _ _ _) as [[L1 [res|e]]|] eqn:Hres; [|done..].
  intros [= <- <-]. exists raw. split_and!; [done..|].
  replace (v1alpha1.Items (v1alpha1.Spec (v1alpha1.setItems raw res))) with res
    by (by destruct raw as [meta []]).
  apply (resolveItems_Forall _ _ _ _ _ _ _ Hres); [done| |].
  - intros item Hin Hinline. split; [done|]. by exists t, raw.
  - intros b L0 L2 composed Hb Hcomposed.
    destruct (IH _ _ _ _ Hcomposed) as (_ & _ & _ & _ & _ & _ & Hitems).
    eapply Forall_impl; [exact Hitems|].
    intros item (Hinline & n & dn & Hreach & Hdn & Hin). split; [done|].
    exists n, dn. split_and!; [|done..].
    econstructor; [|exact Hreach]. by apply (includes_targets _ _ _ _ _ Hraw).
Qed.

End ResolverItems.

Lemma resolution_keeps_template_witness :
  ∃ raw,
    loadRawDashboardResource (Examples.service Examples.scoped "global") "ns" "A" = Ok raw
    ∧ v1alpha1.ObjectMeta (Examples.dashboard "A" "rt" ""
                             [Examples.inline "a1"; Examples.inline "ChartX";
                              Examples.inline "a3"])
      = v1alpha1.ObjectMeta raw
    ∧ "A title" = v1alpha1.Title (v1alpha1.Spec raw)
    ∧ "rt" = v1alpha1.Runtime (v1alpha1.Spec raw)
    ∧ "" = v1alpha1.DiscoverOn (v1alpha1.Spec raw)
    ∧ Forall (λ item,
                includeTarget item = None
                ∧ ∃ n dn, rtc (includes (Examples.service Examples.scoped "global") "ns") "A" n
                          ∧ loadRawDashboardResource
                              (Examples.service Examples.scoped "global") "ns" n = Ok dn
                          ∧ item ∈ v1alpha1.Items (v1alpha1.Spec dn))
             [Examples.inline "a1"; Examples.inline "ChartX"; Examples.inline "a3"].
Proof.
  apply (resolution_keeps_template (Examples.service Examples.scoped "global") "ns" 2 "A" ∅
           (<["B" := true]> (<["A" := true]> ∅))
           (Examples.dashboard "A" "rt" ""
              [Examples.inline "a1"; Examples.inline "ChartX"; Examples.inline "a3"])).
  vm_compute. reflexivity.
Defined.

(** * The chart utilities of the web client *)

Section LinesFacts.

Import victoryChartsUtils.

Context {Datapoint X Y LabelsInfo : Type}.
Context (dateOf : Datapoint → X) (numberOf : Datapoint → Y) (isNaN : Y → bool).
Context (filterAndNameMetric : string → list (@TimeSeries Datapoint) → LabelsInfo
                               → list (@TimeSeries Datapoint)).
Context (filterAndNameHistogram : @Histogram Datapoint → LabelsInfo → @Histogram Datapoint).

Lemma toVCLines_counter ts unit colors title k :
  (toVCLines dateOf numberOf isNaN ts unit colors title k).2 = k + length ts
  ∧ length (toVCLines dateOf numberOf isNaN ts unit colors title k).1 = length ts
  ∧ colouredFrom colors k (toVCLines dateOf numberOf isNaN ts unit colors title k).1.
Proof.
  revert k. induction ts as [|line ts IH]; intros k.
  { split_and!; [simpl; lia|done|]. by intros i l ?. }
  cbn [toVCLines]. destruct (IH (S k)) as (Hk & Hlen & Hcol).
  destruct (toVCLines _ _ _ ts _ _ _ _) as [lines k']. cbn [fst snd] in *.
  split_and!; [simpl; lia..|].
  intros [|i] l Hl; simplify_eq/=.
  - by rewrite Nat.add_0_r.
  - rewrite (Hcol i l Hl). do 2 f_equal. lia.
Qed.

Lemma colouredFrom_app colors k (lines lines' : list (@VCLine X Y)) :
  colouredFrom colors k lines →
  colouredFrom colors (k + length lines) lines' →
  colouredFrom colors k (lines ++ lines').
Proof.
  intros H1 H2 i l Hl. apply lookup_app_Some in Hl as [Hl|[Hle Hl]]; [by apply H1|].
  rewrite (H2 _ _ Hl). do 2 f_equal. lia.
Qed.

Lemma histogramToVCLines_counter histogram unit colors k :
  (histogramToVCLines dateOf numberOf isNaN histogram unit colors k).2
  = k + length (histogramToVCLines dateOf numberOf isNaN histogram unit colors k).1
  ∧ length (histogramToVCLines dateOf numberOf isNaN histogram unit colors k).1
    = length (concat (snd <$> histogram))
  ∧ colouredFrom colors k (histogramToVCLines dateOf numberOf isNaN histogram unit colors k).1.
Proof.
  unfold histogramToVCLines.
  assert (∀ (allLines : list (@VCLine X Y)),
            colouredFrom colors k allLines →
            let res := foldl (λ '(allLines, colorsIdx) stat,
                                let '(lines, colorsIdx) :=
                                  toVCLines dateOf numberOf isNaN stat.2 unit colors None
                                            colorsIdx in
                                (allLines ++ lines, colorsIdx))
                             (allLines, k + length allLines) histogram in
            res.2 = k + length res.1
            ∧ length res.1 = length allLines + length (concat (snd <$> histogram))
            ∧ colouredFrom colors k res.1) as Hloop.
  { induction histogram as [|stat histogram IH]; intros allLines Hall.
    { simpl. split_and!; [done|lia|done]. }
    cbn [foldl].
    destruct (toVCLines_counter stat.2 unit colors None (k + length allLines))
      as (Hk & Hlen & Hcol).
    destruct (toVCLines _ _ _ stat.2 _ _ _ _) as [lines k']. cbn [fst snd] in *.
    subst k'.
    replace (k + length allLines + length stat.2) with (k + length (allLines ++ lines))
      by (rewrite length_app; lia).
    destruct (IH (allLines ++ lines)) as (IH1 & IH2 & IH3); [by apply colouredFrom_app|].
    split_and!; [done| |done].
    rewrite IH2. rewrite fmap_cons. cbn [concat]. rewrite !length_app. lia. }
  specialize (Hloop []). rewrite Nat.add_0_r in Hloop. apply Hloop.
  by intros i l ?.
Qed.

(** X19. The lines of a list of series take the colours in turn, from the
    value of the counter at the call on, and start again after the last
    colour; the counter is left advanced by the number of series. Each line
    has the name given as title, or that of its series when the title is
    missing or empty; the legend item and every datapoint of a line carry
    the name and the colour of the line; and no datapoint that is not a
    number is kept. Without colours every colour is undefined. *)
Theorem lines_take_colours_in_turn (ts : list (@TimeSeries Datapoint)) (unit : string)
    (colors : list string) (title : option string) (colorsIdx : nat) :
  let lines := (toVCLines dateOf numberOf isNaN ts unit colors title colorsIdx).1 in
  (toVCLines dateOf numberOf isNaN ts unit colors title colorsIdx).2 = colorsIdx + length ts
  ∧ length lines = length ts
  ∧ (∀ i line series,
       lines !! i = Some line → ts !! i = Some series →
       color line = colors !! ((colorsIdx + i) mod length colors)
       ∧ legendItem line = {| li_name := lineName title series; li_fill := color line |}
       ∧ length (datapoints line) ≤ length (values series)
       ∧ Forall (λ dp, dp_name dp = lineName title series
                       ∧ dp_unit dp = unit
                       ∧ dp_color dp = color line
                       ∧ isNaN (dp_y dp) = false) (datapoints line))
  ∧ (colors = [] → Forall (λ line, color line = None) lines).
Proof.
  intros lines. unfold lines. clear lines.
  destruct (toVCLines_counter ts unit colors title colorsIdx) as (Hk & Hlen & Hcol).
  split_and!; [done..| |].
  - clear Hk Hlen. intros i line series Hline Hseries.
    split; [by apply Hcol|]. clear Hcol.
    revert colorsIdx i Hline Hseries.
    induction ts as [|line0 ts IH]; intros k i Hline Hseries; [done|].
    cbn [toVCLines] in Hline.
    destruct (toVCLines _ _ _ ts _ _ _ _) as [lines' k'] eqn:Hrest. cbn [fst] in Hline.
    destruct i as [|i]; simplify_eq/=.
    + split_and!; [done| |].
      * rewrite length_filter, length_fmap. done.
      * apply Forall_forall. intros dp [Hnan Hdp]%list_elem_of_filter.
        apply list_elem_of_fmap in Hdp as (dp0 & -> & _). done.
    + apply (IH (S k) i); [|done]. by rewrite Hrest.
  - intros ->. apply Forall_forall. intros line [i Hi]%list_elem_of_lookup.
    by rewrite (Hcol i line Hi).
Qed.


End LinesFacts.

(** Three series on two colours: the third line takes the first colour
    again, and the datapoint that is not a number is dropped. *)
Example request_lines :
  victoryChartsUtils.toVCLines fst snd (λ y, bool_decide (y = None))
    MoreExamples.requestSeries "ops" ["blue"; "green"] None 0
  = ([{| victoryChartsUtils.datapoints :=
           [{| victoryChartsUtils.dp_name := "v1"; victoryChartsUtils.dp_x := 0;
               victoryChartsUtils.dp_y := Some 3; victoryChartsUtils.dp_unit := "ops";
               victoryChartsUtils.dp_color := Some "blue" |}];
         victoryChartsUtils.legendItem :=
           {| victoryChartsUtils.li_name := "v1"; victoryChartsUtils.li_fill := Some "blue" |};
         victoryChartsUtils.color := Some "blue" |};
      {| victoryChartsUtils.datapoints :=
           [{| victoryChartsUtils.dp_name := "v2"; victoryChartsUtils.dp_x := 0;
               victoryChartsUtils.dp_y := Some 4; victoryChartsUtils.dp_unit := "ops";
               victoryChartsUtils.dp_color := Some "green" |}];
         victoryChartsUtils.legendItem :=
           {| victoryChartsUtils.li_name := "v2"; victoryChartsUtils.li_fill := Some "green" |};
         victoryChartsUtils.color := Some "green" |};
      {| victoryChartsUtils.datapoints := [];
         victoryChartsUtils.legendItem :=
           {| victoryChartsUtils.li_name := "v3"; victoryChartsUtils.li_fill := Some "blue" |};
         victoryChartsUtils.color := Some "blue" |}], 3).
Proof. reflexivity. Qed.

(** ** The legend *)

Lemma longest_length (bound : nat) (names : list string) (a : string) :
  String.length
    (foldl (λ a b, if decide (String.length b < String.length a) then a else b) a names)
  < bound
  ↔ String.length a < bound ∧ Forall (λ b, String.length b < bound) names.
Proof.
  revert a. induction names as [|b names IH]; intros a.
  { simpl. split; [by intros ?; split|by intros [? _]]. }
  cbn [foldl]. rewrite IH, Forall_cons. case_decide; split; intros; destruct_and?;
    split_and?; try done; lia.
Qed.

Lemma ceil_div_bounds (n k : Z) :
  (0 ≤ n → 1 ≤ k →
   0 ≤ (n + k - 1) `div` k
   ∧ n ≤ k * ((n + k - 1) `div` k)
   ∧ k * ((n + k - 1) `div` k) < n + k)%Z.
Proof.
  intros Hn Hk.
  pose proof (Z.div_mod (n + k - 1) k ltac:(lia)) as Hdm.
  pose proof (Z.mod_pos_bound (n + k - 1) k ltac:(lia)) as Hmod.
  split_and!; [apply Z.div_pos; lia|lia..].
Qed.

Lemma ceil_div_least (n k r : Z) :
  (1 ≤ k → n ≤ k * r → (n + k - 1) `div` k ≤ r)%Z.
Proof.
  intros Hk Hr. apply Z.lt_succ_r, Z.div_lt_upper_bound; lia.
Qed.


(** Five lines, the longest name of eleven characters, on 450 pixels: boxes
    of 200 pixels, two in a row, three rows. *)
Example legend_of_five_lines :
  victoryChartsUtils.buildLegendInfo MoreExamples.legendSeries 450
  = {| victoryChartsUtils.height := 105; victoryChartsUtils.itemsPerRow := 2 |}.
Proof. reflexivity. Qed.

(** X22. For the same lines a wider chart never has a higher legend, and
    never fewer items in a row. *)
Theorem legend_no_higher_when_wider {X Y : Type}
    (series : list (@victoryChartsUtils.VCLine X Y)) (chartWidth chartWidth' : Z) :
  (chartWidth ≤ chartWidth')%Z →
  (victoryChartsUtils.height (victoryChartsUtils.buildLegendInfo series chartWidth')
   ≤ victoryChartsUtils.height (victoryChartsUtils.buildLegendInfo series chartWidth)
   ∧ victoryChartsUtils.itemsPerRow (victoryChartsUtils.buildLegendInfo series chartWidth)
     ≤ victoryChartsUtils.itemsPerRow (victoryChartsUtils.buildLegendInfo series chartWidth'))%Z.
Proof.
  intros Hle. unfold victoryChartsUtils.buildLegendInfo.
  set (longest := String.length (foldl _ "" _)). clearbody longest.
  set (boxSize := if decide (30 ≤ longest) then _ else _).
  assert (0 < boxSize)%Z as Hpos by (unfold boxSize; repeat case_decide; lia).
  clearbody boxSize.
  cbn [victoryChartsUtils.height victoryChartsUtils.itemsPerRow].
  pose proof (Z.div_le_mono chartWidth chartWidth' boxSize Hpos Hle) as Hdiv.
  set (itemsPerRow := Z.max 1 (chartWidth `div` boxSize)).
  set (itemsPerRow' := Z.max 1 (chartWidth' `div` boxSize)).
  assert (1 ≤ itemsPerRow ≤ itemsPerRow')%Z as Hipr by (unfold itemsPerRow, itemsPerRow'; lia).
  split; [|lia].
  destruct (ceil_div_bounds (Z.of_nat (length series)) itemsPerRow ltac:(lia) ltac:(lia))
    as (Hrows0 & Hrows1 & _).
  pose proof (ceil_div_least (Z.of_nat (length series)) itemsPerRow'
                ((Z.of_nat (length series) + itemsPerRow - 1) `div` itemsPerRow)
                ltac:(lia) ltac:(nia)).
  lia.
Qed.

Lemma legend_no_higher_when_wider_witness :
  (victoryChartsUtils.height (victoryChartsUtils.buildLegendInfo MoreExamples.legendSeries 900)
   ≤ victoryChartsUtils.height (victoryChartsUtils.buildLegendInfo MoreExamples.legendSeries 450)
   ∧ victoryChartsUtils.itemsPerRow
       (victoryChartsUtils.buildLegendInfo MoreExamples.legendSeries 450)
     ≤ victoryChartsUtils.itemsPerRow
         (victoryChartsUtils.buildLegendInfo MoreExamples.legendSeries 900))%Z.
Proof.
  apply (legend_no_higher_when_wider MoreExamples.legendSeries 450 900). lia.
Defined.
